(** * af-test-viewer: answer scoring, hint bookkeeping and prompt templating

    A shallow embedding of the page controller ([Home] in the test-taking
    page: [selectAnswer], [getCorrectAnswer], [submitQuestion], [submitTest],
    [calculateTotalScore], [countAnsweredQuestions], [generateHint],
    [generateSolution]) and of the prompt assembly of the generation endpoint
    ([POST] of the generate-solution route), together with the properties the
    specification states about them.

    Conventions.
    - A JavaScript string is the list of its UTF-16 code units
      ([jsstring]).  [String.fromCharCode] can produce any code unit, so a
      byte string would not do.
    - A JavaScript number is [JSNumber]: NaN, the two infinities, or a finite
      value held as an exact rational.  IEEE rounding and overflow are not
      modelled: the embedding agrees with the engine as long as every number
      read or computed is one that a double holds exactly, as all the
      integers of magnitude up to 2^53 are, which is what answer positions,
      hint counters and scores are.  Where the engine rounds (a literal with
      more digits than a double holds, a sum beyond 2^53) or overflows to
      Infinity, the embedding keeps the exact value.
    - [toUpperCase] and [toLowerCase] are modelled on ASCII letters; the
      case mappings of Unicode outside ASCII are not.
    - React state ([questionStates], [testSubmitted], [solutions]) is one
      record [Page]; a handler is a function from the page at the time of the
      event to the next page.  Handlers read the state of the render they
      were created in and update through [setX(prev => ...)]; events are
      processed one at a time, so both are the same page here.
    - An asynchronous handler is split at its [await]: the part that runs at
      the click (which returns the network request it issues) and the part
      that runs when the response, or the exception, arrives. *)

From Stdlib Require Import Ascii String QArith Qround.
From stdpp Require Import base option list strings gmap fin_maps pretty.

Local Open Scope Z_scope.

(** ** JavaScript strings *)

Abbreviation jsstring := (list N).

(** A literal, written as a Rocq string of ASCII characters. *)
Definition js (s : string) : jsstring :=
  (fun a => N_of_ascii a) <$> list_ascii_of_string s.

(** [s1 === s2] on strings. *)
Definition str_eq (s1 s2 : jsstring) : bool := bool_decide (s1 = s2).

(** Truthiness of a string: only the empty string is falsy. *)
Definition truthy_str (s : jsstring) : bool :=
  match s with [] => false | _ => true end.

(** Truthiness of [o] where [o] is a string or [undefined]. *)
Definition truthy_ostr (o : option jsstring) : bool :=
  match o with Some s => truthy_str s | None => false end.

(** Truthiness of [o] where [o] is a boolean or [undefined]. *)
Definition truthy_obool (o : option bool) : bool :=
  match o with Some b => b | None => false end.

(** [String.fromCharCode(n)] for an integer [n]: one code unit, [n] modulo
    2^16. *)
Definition ToUint16 (n : Z) : N := Z.to_N (n mod 65536).

(** WhiteSpace and LineTerminator code points of ECMAScript, the characters
    that [trim] strips and that [Number] skips around a literal. *)
Definition isWhiteSpace (c : N) : bool :=
  match c with
  | 9 | 10 | 11 | 12 | 13 | 32 | 160 | 5760 | 8232 | 8233 | 8239 | 8287
  | 12288 | 65279 => true
  | _ => (8192 <=? c)%N && (c <=? 8202)%N
  end%N.

Fixpoint trimStart (s : jsstring) : jsstring :=
  match s with
  | c :: s' => if isWhiteSpace c then trimStart s' else s
  | [] => []
  end.

Definition trimEnd (s : jsstring) : jsstring := reverse (trimStart (reverse s)).

Definition trim (s : jsstring) : jsstring := trimEnd (trimStart s).

(** [toUpperCase] on the ASCII letters; code units outside ASCII are left as
    they are (option letters, the only strings the page compares, are
    ASCII). *)
Definition upper_unit (c : N) : N :=
  if (97 <=? c)%N && (c <=? 122)%N then (c - 32)%N else c.

Definition toUpperCase (s : jsstring) : jsstring := upper_unit <$> s.

(** ** JavaScript numbers *)

Inductive JSNumber :=
| JNaN
| JInf (negative : bool)
| JFin (q : Q).

Definition isNaN (n : JSNumber) : bool :=
  match n with JNaN => true | _ => false end.

(** Truncation towards zero. *)
Definition Qtrunc (q : Q) : Z :=
  if Qle_bool 0 q then Qfloor q else Qceiling q.

(** [String.fromCharCode(64 + num)]: the addition, then ToUint16 (NaN and the
    infinities go to 0), then a string of that one code unit. *)
Definition fromCharCode_64_plus (num : JSNumber) : jsstring :=
  match num with
  | JFin q => [ToUint16 (Qtrunc (Qplus (inject_Z 64) q))]
  | _ => [0%N]
  end.

(** *** [Number(string)]: the StringNumericLiteral grammar *)

Definition digit_val (base : N) (c : N) : option N :=
  let v :=
    if (48 <=? c)%N && (c <=? 57)%N then Some (c - 48)%N
    else if (97 <=? c)%N && (c <=? 102)%N then Some (c - 87)%N
    else if (65 <=? c)%N && (c <=? 70)%N then Some (c - 55)%N
    else None in
  match v with
  | Some d => if (d <? base)%N then Some d else None
  | None => None
  end.

(** The longest prefix of digits in [base]: its value read after the digits
    [acc], how many digits it has, and the rest of the string. *)
Fixpoint read_digits (base : N) (s : jsstring) (acc : N) (count : nat)
  : N * nat * jsstring :=
  match s with
  | c :: s' =>
      match digit_val base c with
      | Some d => read_digits base s' (acc * base + d)%N (S count)
      | None => (acc, count, s)
      end
  | [] => (acc, count, [])
  end.

(** ExponentPart, optional: [e] or [E], an optional sign, at least one
    digit.  The exponent read and the rest, or [None] when an [e] is there
    with no digits behind it. *)
Definition read_exponent (s : jsstring) : option (Z * jsstring) :=
  match s with
  | c :: s' =>
      if bool_decide (c = 101%N) || bool_decide (c = 69%N) then
        let '(neg, s'') :=
          match s' with
          | 43%N :: t => (false, t)
          | 45%N :: t => (true, t)
          | _ => (false, s')
          end in
        let '(e, n, rest) := read_digits 10 s'' 0%N 0%nat in
        match n with
        | O => None
        | _ => Some (if neg then - Z.of_N e else Z.of_N e, rest)
        end
      else Some (0, s)
  | [] => Some (0, [])
  end.

(** [m * 10^e] as a rational. *)
Definition scale10 (m : N) (e : Z) : Q :=
  if 0 <=? e then inject_Z (Z.of_N m * 10 ^ e)
  else Qmake (Z.of_N m) (Z.to_pos (10 ^ (- e))).

(** StrUnsignedDecimalLiteral: [Infinity], or digits with an optional
    fraction and exponent; the whole string must be consumed. *)
Definition read_unsigned_decimal (s : jsstring) : JSNumber :=
  if bool_decide (s = js "Infinity") then JInf false else
  let '(ip, ni, s1) := read_digits 10 s 0%N 0%nat in
  let '(m, nf, s2) :=
    match s1 with
    | 46%N :: t => let '(m, nf, s2) := read_digits 10 t ip 0%nat in (m, nf, s2)
    | _ => (ip, 0%nat, s1)
    end in
  match ni, nf with
  | O, O => JNaN
  | _, _ =>
      match read_exponent s2 with
      | Some (e, []) => JFin (scale10 m (e - Z.of_nat nf))
      | _ => JNaN
      end
  end.

Definition negate (n : JSNumber) : JSNumber :=
  match n with
  | JNaN => JNaN
  | JInf b => JInf (negb b)
  | JFin q => JFin (Qopp q)
  end.

(** NonDecimalIntegerLiteral: [0x], [0o] or [0b] (either case), then at
    least one digit of that base and nothing else. *)
Definition read_radix (base : N) (s : jsstring) : JSNumber :=
  match read_digits base s 0%N 0%nat with
  | (_, O, _) => JNaN
  | (v, _, []) => JFin (inject_Z (Z.of_N v))
  | _ => JNaN
  end.

Definition StringToNumber (s : jsstring) : JSNumber :=
  match trim s with
  | [] => JFin 0
  | 48%N :: 120%N :: t | 48%N :: 88%N :: t => read_radix 16 t
  | 48%N :: 111%N :: t | 48%N :: 79%N :: t => read_radix 8 t
  | 48%N :: 98%N :: t | 48%N :: 66%N :: t => read_radix 2 t
  | 43%N :: t => read_unsigned_decimal t
  | 45%N :: t => negate (read_unsigned_decimal t)
  | t => read_unsigned_decimal t
  end.

(** ** Values of the [answer] field *)

(** What the test document (JSON) can hold in [answer]: the declared type
    is [string | string[] | number], optional; [null] is what a document
    with an explicit null has there. *)
Inductive JSValue :=
| VUndefined
| VNull
| VNumber (n : JSNumber)
| VString (s : jsstring).

Inductive AnswerField :=
| AnsValue (v : JSValue)
| AnsArray (l : list JSValue).

Definition typeof_number (v : JSValue) : bool :=
  match v with VNumber _ => true | _ => false end.

(** [Number(v)]. *)
Definition ToNumber (v : JSValue) : JSNumber :=
  match v with
  | VUndefined => JNaN
  | VNull => JFin 0
  | VNumber n => n
  | VString s => StringToNumber s
  end.

(** [String(v || '')] for a [v] that is not a number: [getCorrectAnswer]
    gets here only when [typeof v] is not ['number'] (lemma
    [letter_branch_not_number]), so the decimal rendering of numbers is not
    needed; the falsy numbers would give [''] as well. *)
Definition String_or_empty (v : JSValue) : jsstring :=
  match v with
  | VString s => s
  | VUndefined | VNull | VNumber _ => []
  end.

(** ** The data model of the page *)

Record Option := { opt_text : jsstring }.

Record Problem := {
  text : jsstring;
  passage_text : option jsstring;
  options : option (list Option);
  solution : option jsstring;
  answer : AnswerField;
}.

(** The fields of a [SolutionState] object.  The interface declares four of
    them as required, but the handlers build objects by spreading
    [prev[problemKey]], which is [undefined] for a key not seen yet, so every
    field can be missing from an object at run time. *)
Record SolutionState := {
  hintLoading : option bool;
  solutionLoading : option bool;
  aiHints : option (list jsstring);
  aiSolution : option jsstring;
  hintError : option jsstring;
  solutionError : option jsstring;
  showPanel : option bool;
}.

(** [submitted], [hintsUsed] and [score] are set by every handler that
    creates a [QuestionState]. *)
Record QuestionState := {
  selectedAnswer : option jsstring;
  submitted : bool;
  hintsUsed : Z;
  score : Z;
  isCorrect : option bool;
}.

Record Page := {
  questionStates : gmap jsstring QuestionState;
  testSubmitted : bool;
  solutions : gmap jsstring SolutionState;
  defaultHintPrompt : jsstring;
  customHintPrompt : jsstring;
  defaultSolutionPrompt : jsstring;
  customSolutionPrompt : jsstring;
}.

Definition setQuestionStates (f : gmap jsstring QuestionState -> gmap jsstring QuestionState)
    (st : Page) : Page :=
  {| questionStates := f (questionStates st);
     testSubmitted := testSubmitted st;
     solutions := solutions st;
     defaultHintPrompt := defaultHintPrompt st;
     customHintPrompt := customHintPrompt st;
     defaultSolutionPrompt := defaultSolutionPrompt st;
     customSolutionPrompt := customSolutionPrompt st |}.

Definition setSolutions (f : gmap jsstring SolutionState -> gmap jsstring SolutionState)
    (st : Page) : Page :=
  {| questionStates := questionStates st;
     testSubmitted := testSubmitted st;
     solutions := f (solutions st);
     defaultHintPrompt := defaultHintPrompt st;
     customHintPrompt := customHintPrompt st;
     defaultSolutionPrompt := defaultSolutionPrompt st;
     customSolutionPrompt := customSolutionPrompt st |}.

Definition setTestSubmitted (b : bool) (st : Page) : Page :=
  {| questionStates := questionStates st;
     testSubmitted := b;
     solutions := solutions st;
     defaultHintPrompt := defaultHintPrompt st;
     customHintPrompt := customHintPrompt st;
     defaultSolutionPrompt := defaultSolutionPrompt st;
     customSolutionPrompt := customSolutionPrompt st |}.

(** [n || 0] for [n] a number or [undefined]. *)
Definition num_or_zero (o : option Z) : Z :=
  match o with
  | Some n => if n =? 0 then 0 else n
  | None => 0
  end.

(** [x === s] for [x] a string or [undefined]. *)
Definition ostr_eq (o : option jsstring) (s : jsstring) : bool :=
  match o with Some a => str_eq a s | None => false end.

(** ** Answer selection and scoring *)

Definition selectAnswer (problemKey answer : jsstring) (st : Page) : Page :=
  if testSubmitted st
     || truthy_obool (submitted <$> questionStates st !! problemKey)
  then st
  else
    setQuestionStates (fun prev =>
      <[problemKey :=
          {| selectedAnswer := Some answer;
             submitted := false;
             hintsUsed := num_or_zero (hintsUsed <$> prev !! problemKey);
             score := 0;
             isCorrect := prev !! problemKey ≫= isCorrect |}]> prev) st.

Definition getCorrectAnswer (problem : Problem) : jsstring :=
  let rawAnswer :=
    match answer problem with
    | AnsArray l => default VUndefined (l !! 0%nat)
    | AnsValue v => v
    end in
  if typeof_number rawAnswer || negb (isNaN (ToNumber rawAnswer)) then
    let num := ToNumber rawAnswer in
    fromCharCode_64_plus num
  else
    trim (toUpperCase (String_or_empty rawAnswer)).

Definition submitQuestion (problemKey : jsstring) (problem : Problem) (st : Page) : Page :=
  match questionStates st !! problemKey with
  | None => st
  | Some state =>
      if negb (truthy_ostr (selectedAnswer state)) || submitted state then st
      else
        let correctAnswer := getCorrectAnswer problem in
        let isCorrect := ostr_eq (selectedAnswer state) correctAnswer in
        let score :=
          if isCorrect then Z.max 0 (4 - num_or_zero (Some (hintsUsed state)))
          else 0 in
        (* [...prev[problemKey]] is [state]: the updater runs on the page
           the handler read *)
        setQuestionStates (fun prev =>
          <[problemKey :=
              {| selectedAnswer := selectedAnswer state;
                 submitted := true;
                 hintsUsed := hintsUsed state;
                 score := score;
                 isCorrect := Some isCorrect |}]> prev) st
  end.

Definition submitTest (st : Page) : Page := setTestSubmitted true st.

(** [Object.values(questionStates)]. *)
Definition values (st : Page) : list QuestionState :=
  (map_to_list (questionStates st)).*2.

Definition calculateTotalScore (st : Page) : Z :=
  foldl (fun total state => total + (if submitted state then score state else 0))
        0 (values st).

Definition countAnsweredQuestions (st : Page) : nat :=
  length (List.filter (fun s => submitted s) (values st)).

(** ** Hints and solutions *)

(** The JSON body of a request to the generation endpoint.  A field that is
    [undefined] is left out by [JSON.stringify]. *)
Record GenRequest := {
  questionText : option jsstring;
  passageText : option jsstring;
  reqOptions : option (list Option);
  type : option jsstring;
  previousHints : option (list jsstring);
  customPrompt : option jsstring;
}.

(** How the [fetch] of a handler ends. *)
Inductive FetchResult :=
| ResponseOk (solution : jsstring)
    (** [response.ok], with body [{solution}] *)
| ResponseNotOk (error : option jsstring)
    (** a non-2xx status; the body may carry [{error}] *)
| FetchThrew (message : option jsstring).
    (** [fetch] or [response.json()] threw; [Some m] when what was thrown is
        an [Error] with message [m] *)

(** The message the [catch] block records, or [None] when nothing is thrown. *)
Definition failure_message (fallback : jsstring) (r : FetchResult) : option jsstring :=
  match r with
  | ResponseOk _ => None
  | ResponseNotOk e =>
      (* throw new Error(data.error || fallback) *)
      Some (if truthy_ostr e then default [] e else fallback)
  | FetchThrew (Some m) => Some m
  | FetchThrew None => Some fallback
  end.

(** [prev[problemKey]?.f] *)
Definition field {A} (f : SolutionState -> option A)
    (prev : gmap jsstring SolutionState) (problemKey : jsstring) : option A :=
  prev !! problemKey ≫= f.

(** [b || false] *)
Definition bool_or_false (o : option bool) : bool := truthy_obool o.

(** [a || []] *)
Definition list_or_empty (o : option (list jsstring)) : list jsstring := default [] o.

(** [generateHint], up to the [await fetch]: marks the key as loading and
    issues the request. *)
Definition generateHint (problemKey : jsstring) (problem : Problem) (st : Page)
  : Page * list GenRequest :=
  let currentState := solutions st !! problemKey in
  let previousHints := list_or_empty (currentState ≫= aiHints) in
  let st' :=
    setSolutions (fun prev =>
      <[problemKey :=
          {| hintLoading := Some true;
             solutionLoading := Some (bool_or_false (field solutionLoading prev problemKey));
             aiHints := Some (list_or_empty (field aiHints prev problemKey));
             aiSolution := field aiSolution prev problemKey;
             hintError := field hintError prev problemKey;
             solutionError := field solutionError prev problemKey;
             showPanel := Some true |}]> prev) st in
  (st',
   [ {| questionText := Some (text problem);
        passageText := passage_text problem;
        reqOptions := options problem;
        type := Some (js "hint");
        previousHints := Some previousHints;
        customPrompt :=
          if negb (str_eq (customHintPrompt st) (defaultHintPrompt st))
          then Some (customHintPrompt st) else None |} ]).

(** [generateHint], from the point where the [fetch] settles. *)
Definition generateHint_settled (problemKey : jsstring) (r : FetchResult) (st : Page) : Page :=
  match r with
  | ResponseOk data_solution =>
      let st1 :=
        setSolutions (fun prev =>
          <[problemKey :=
              {| hintLoading := Some false;
                 solutionLoading := field solutionLoading prev problemKey;
                 aiHints := Some (list_or_empty (field aiHints prev problemKey) ++ [data_solution]);
                 aiSolution := field aiSolution prev problemKey;
                 hintError := field hintError prev problemKey;
                 solutionError := field solutionError prev problemKey;
                 showPanel := field showPanel prev problemKey |}]> prev) st in
      (* Track hints used for scoring *)
      setQuestionStates (fun prev =>
        <[problemKey :=
            {| selectedAnswer := prev !! problemKey ≫= selectedAnswer;
               submitted := bool_or_false (submitted <$> prev !! problemKey);
               hintsUsed := num_or_zero (hintsUsed <$> prev !! problemKey) + 1;
               score := num_or_zero (score <$> prev !! problemKey);
               isCorrect := prev !! problemKey ≫= isCorrect |}]> prev) st1
  | _ =>
      setSolutions (fun prev =>
        <[problemKey :=
            {| hintLoading := Some false;
               solutionLoading := field solutionLoading prev problemKey;
               aiHints := field aiHints prev problemKey;
               aiSolution := field aiSolution prev problemKey;
               hintError := failure_message (js "Failed to generate hint") r;
               solutionError := field solutionError prev problemKey;
               showPanel := field showPanel prev problemKey |}]> prev) st
  end.

(** [generateSolution], up to the [await fetch]. *)
Definition generateSolution (problemKey : jsstring) (problem : Problem) (st : Page)
  : Page * list GenRequest :=
  let st' :=
    setSolutions (fun prev =>
      <[problemKey :=
          {| hintLoading := Some (bool_or_false (field hintLoading prev problemKey));
             solutionLoading := Some true;
             aiHints := Some (list_or_empty (field aiHints prev problemKey));
             aiSolution := field aiSolution prev problemKey;
             hintError := field hintError prev problemKey;
             solutionError := field solutionError prev problemKey;
             showPanel := Some true |}]> prev) st in
  (st',
   [ {| questionText := Some (text problem);
        passageText := passage_text problem;
        reqOptions := options problem;
        type := Some (js "solution");
        previousHints := None;
        customPrompt :=
          if negb (str_eq (customSolutionPrompt st) (defaultSolutionPrompt st))
          then Some (customSolutionPrompt st) else None |} ]).

(** [generateSolution], from the point where the [fetch] settles. *)
Definition generateSolution_settled (problemKey : jsstring) (r : FetchResult) (st : Page) : Page :=
  match r with
  | ResponseOk data_solution =>
      setSolutions (fun prev =>
        <[problemKey :=
            {| hintLoading := field hintLoading prev problemKey;
               solutionLoading := Some false;
               aiHints := field aiHints prev problemKey;
               aiSolution := Some data_solution;
               hintError := field hintError prev problemKey;
               solutionError := field solutionError prev problemKey;
               showPanel := field showPanel prev problemKey |}]> prev) st
  | _ =>
      setSolutions (fun prev =>
        <[problemKey :=
            {| hintLoading := field hintLoading prev problemKey;
               solutionLoading := Some false;
               aiHints := field aiHints prev problemKey;
               aiSolution := field aiSolution prev problemKey;
               hintError := field hintError prev problemKey;
               solutionError := failure_message (js "Failed to generate solution") r;
               showPanel := field showPanel prev problemKey |}]> prev) st
  end.

(** *** The buttons

    The hint button is rendered while the question is open and has options;
    it carries [disabled={solutionState?.hintLoading}], and a disabled button
    dispatches no click. *)
Definition isQuestionSubmitted (problemKey : jsstring) (st : Page) : bool :=
  truthy_obool (submitted <$> questionStates st !! problemKey) || testSubmitted st.

Definition has_options (problem : Problem) : bool :=
  match options problem with
  | Some (_ :: _) => true
  | _ => false
  end.

Definition hintButton_rendered (problemKey : jsstring) (problem : Problem) (st : Page) : bool :=
  negb (isQuestionSubmitted problemKey st) && has_options problem.

Definition hintButton_disabled (problemKey : jsstring) (st : Page) : bool :=
  truthy_obool (solutions st !! problemKey ≫= hintLoading).

(** A click on the hint button of [problemKey]. *)
Definition clickHint (problemKey : jsstring) (problem : Problem) (st : Page)
  : Page * list GenRequest :=
  if hintButton_rendered problemKey problem st && negb (hintButton_disabled problemKey st)
  then generateHint problemKey problem st
  else (st, []).

(** ** The generation endpoint: assembling the prompt *)

Definition nl : jsstring := [10%N].

(** [String.prototype.indexOf] by way of a split: the text before and the
    text after the first occurrence of [pat] in [s]. *)
Fixpoint starts_with (pat s : jsstring) : bool :=
  match pat, s with
  | [], _ => true
  | p :: pat', c :: s' => bool_decide (p = c) && starts_with pat' s'
  | _ :: _, [] => false
  end.

Fixpoint split_first (pat s : jsstring) : option (jsstring * jsstring) :=
  if starts_with pat s then Some ([], drop (length pat) s)
  else
    match s with
    | [] => None
    | c :: s' =>
        match split_first pat s' with
        | Some (before, after) => Some (c :: before, after)
        | None => None
        end
    end.

(** GetSubstitution of ECMAScript for a pattern that is a string: there are
    no captures, so of the dollar forms only [$$], [$&], [$`] and [$'] are
    expanded; a dollar before anything else stands for itself. *)
Fixpoint GetSubstitution (matched preceding following template : jsstring) : jsstring :=
  match template with
  | 36%N :: 36%N :: t => 36%N :: GetSubstitution matched preceding following t
  | 36%N :: 38%N :: t => matched ++ GetSubstitution matched preceding following t
  | 36%N :: 96%N :: t => preceding ++ GetSubstitution matched preceding following t
  | 36%N :: 39%N :: t => following ++ GetSubstitution matched preceding following t
  | c :: t => c :: GetSubstitution matched preceding following t
  | [] => []
  end.

(** [s.replace(pat, replacement)] with both arguments strings: the first
    occurrence only. *)
Definition replace (pat replacement s : jsstring) : jsstring :=
  match split_first pat s with
  | Some (before, after) =>
      before ++ GetSubstitution pat before after replacement ++ after
  | None => s
  end.

(** [parts.join(sep)] *)
Fixpoint join (sep : jsstring) (parts : list jsstring) : jsstring :=
  match parts with
  | [] => []
  | [p] => p
  | p :: rest => p ++ sep ++ join sep rest
  end.

Definition DEFAULT_SOLUTION_PROMPT : jsstring := js
"You are a very smart student, attempting the Joint Entrance Examination (JEE) Advanced of the Indian Institutes of Technology (IIT).

Read the instructions below carefully, and then answer the question.

IMPORTANT: Mathematical equations in the question are written in LaTeX notation (e.g., $x^2$ for inline math, $$E=mc^2$$ for display math). Parse and interpret them correctly.

The question may reference a diagram. If there is a discrepancy between the text and any diagram description, you should use the information from the text.

Remember that the questions are constructed very carefully, and do not contain any errors - so read the question carefully and answer the question as asked.

---

{{QUESTION_CONTENT}}

---

Answer the question above.

Follow carefully any instructions given in the question.

Ensure that your solution ends with the sentence of the form:
'The correct answer is ...', where ... is your answer.

If the question is a multiple choice question, your answer should be the letter corresponding to the correct answer.".

Definition DEFAULT_HINT_PROMPT : jsstring := js
"You are a very smart student, attempting the Joint Entrance Examination (JEE) Advanced of the Indian Institutes of Technology (IIT).

Read the instructions below carefully, provide one hint that would allow reattempting the question. DO NOT PROVIDE THE ANSWER. The goal of the hint is to tell the student specific and sharp problem solving steps - focus on these and not on explaining theory. After each hint show one step of the solution.

IMPORTANT: Mathematical equations in the question are written in LaTeX notation (e.g., $x^2$ for inline math, $E=mc^2$ for display math). Parse and interpret them correctly.

The question may reference a diagram. If there is a discrepancy between the text and any diagram description, you should use the information from the text.

Remember that the questions are constructed very carefully, and do not contain any errors - so read the question and follow instructions very carefully.

---

{{QUESTION_CONTENT}}

---

{{HINT_INSTRUCTIONS}}".

(** The lines of the options, [A. ...], [B. ...], from index [idx] on. *)
Fixpoint option_lines (idx : nat) (opts : list Option) : jsstring :=
  match opts with
  | [] => []
  | opt :: rest =>
      [ToUint16 (65 + Z.of_nat idx)] ++ js ". " ++ opt_text opt ++ nl
      ++ option_lines (S idx) rest
  end.

Definition build_questionContent (req : GenRequest) : jsstring :=
  let questionContent := [] in
  let questionContent :=
    if truthy_ostr (passageText req)
    then questionContent ++ js "**Passage:**" ++ nl ++ default [] (passageText req) ++ nl ++ nl
    else questionContent in
  let questionContent :=
    questionContent ++ js "**Question:**" ++ nl ++ default [] (questionText req) ++ nl ++ nl in
  match reqOptions req with
  | Some ((_ :: _) as opts) =>
      questionContent ++ js "**Options:**" ++ nl ++ option_lines 0 opts
  | _ => questionContent
  end.

(** [previousHints.map((hint, idx) => `Hint ${idx + 1}: ${hint}`)], from
    index [idx] on. *)
Fixpoint hint_lines (idx : nat) (hints : list jsstring) : list jsstring :=
  match hints with
  | [] => []
  | hint :: rest =>
      (js "Hint " ++ js (pretty (idx + 1)%nat) ++ js ": " ++ hint)
      :: hint_lines (S idx) rest
  end.

Definition build_hintInstructions (req : GenRequest) : jsstring :=
  match previousHints req with
  | Some ((_ :: _) as hints) =>
      js "Previously given hints:" ++ nl
      ++ join nl (hint_lines 0 hints)
      ++ nl ++ nl
      ++ js "Provide the next hint that builds on the previous hints above. Make it progressively more specific and detailed. Do NOT repeat information already given. Do NOT reveal the final answer."
  | _ =>
      js "Provide a helpful hint to guide toward solving this problem. Do NOT reveal the final answer."
  end.

(** What [POST] does with a request body, up to the call of the model
    provider: a 400 answer, or the prompt it submits. *)
Inductive PostStep :=
| BadRequest (error : jsstring)
| SubmitPrompt (finalPrompt : jsstring).

Definition POST (req : GenRequest) : PostStep :=
  if negb (truthy_ostr (questionText req)) then
    BadRequest (js "Question text is required")
  else
    let questionContent := build_questionContent req in
    let defaultPrompt :=
      if ostr_eq (type req) (js "hint") then DEFAULT_HINT_PROMPT
      else DEFAULT_SOLUTION_PROMPT in
    let promptTemplate :=
      if truthy_ostr (customPrompt req) then default [] (customPrompt req)
      else defaultPrompt in
    let hintInstructions := build_hintInstructions req in
    let finalPrompt :=
      replace (js "{{PREVIOUS_HINTS}}") hintInstructions
        (replace (js "{{HINT_INSTRUCTIONS}}") hintInstructions
           (replace (js "{{QUESTION_CONTENT}}") questionContent promptTemplate)) in
    SubmitPrompt finalPrompt.

(** ** Loading a test, and the events of the page *)

(** What [fetchTest] (and the "take another test" button) does to the
    state of the questions before it fetches. *)
Definition resetTest (st : Page) : Page :=
  setTestSubmitted false
    (setQuestionStates (fun _ => ∅) (setSolutions (fun _ => ∅) st)).

Definition setCustomHintPrompt (s : jsstring) (st : Page) : Page :=
  {| questionStates := questionStates st;
     testSubmitted := testSubmitted st;
     solutions := solutions st;
     defaultHintPrompt := defaultHintPrompt st;
     customHintPrompt := s;
     defaultSolutionPrompt := defaultSolutionPrompt st;
     customSolutionPrompt := customSolutionPrompt st |}.

Definition setCustomSolutionPrompt (s : jsstring) (st : Page) : Page :=
  {| questionStates := questionStates st;
     testSubmitted := testSubmitted st;
     solutions := solutions st;
     defaultHintPrompt := defaultHintPrompt st;
     customHintPrompt := customHintPrompt st;
     defaultSolutionPrompt := defaultSolutionPrompt st;
     customSolutionPrompt := s |}.

Definition DEFAULT_PROMPT_PLACEHOLDER : jsstring := js "Loading...".

(** The page as [useState] initialises it. *)
Definition initial_page : Page :=
  {| questionStates := ∅;
     testSubmitted := false;
     solutions := ∅;
     defaultHintPrompt := DEFAULT_PROMPT_PLACEHOLDER;
     customHintPrompt := [];
     defaultSolutionPrompt := DEFAULT_PROMPT_PLACEHOLDER;
     customSolutionPrompt := [] |}.

(** The effect that runs on mount, once [GET] of the endpoint has answered
    with its two default prompts. *)
Definition promptsFetched (st : Page) : Page :=
  {| questionStates := questionStates st;
     testSubmitted := testSubmitted st;
     solutions := solutions st;
     defaultHintPrompt := DEFAULT_HINT_PROMPT;
     customHintPrompt := DEFAULT_HINT_PROMPT;
     defaultSolutionPrompt := DEFAULT_SOLUTION_PROMPT;
     customSolutionPrompt := DEFAULT_SOLUTION_PROMPT |}.

(** The page once the default prompts are fetched, before any test is
    loaded. *)
Definition mounted_page : Page := promptsFetched initial_page.

(** Everything that can happen to the page, one event at a time.  A settled
    fetch is an event of its own: it can arrive at any later time, also
    after the test was reset. *)
Inductive Event :=
| SelectAnswer (problemKey letter : jsstring)
| SubmitQuestion (problemKey : jsstring) (problem : Problem)
| SubmitTest
| GenerateHint (problemKey : jsstring) (problem : Problem)
| HintSettled (problemKey : jsstring) (r : FetchResult)
| GenerateSolution (problemKey : jsstring) (problem : Problem)
| SolutionSettled (problemKey : jsstring) (r : FetchResult)
| ResetTest
| PromptsFetched
| EditHintPrompt (s : jsstring)
| EditSolutionPrompt (s : jsstring).

Definition handle (st : Page) (e : Event) : Page :=
  match e with
  | SelectAnswer k letter => selectAnswer k letter st
  | SubmitQuestion k problem => submitQuestion k problem st
  | SubmitTest => submitTest st
  | GenerateHint k problem => (generateHint k problem st).1
  | HintSettled k r => generateHint_settled k r st
  | GenerateSolution k problem => (generateSolution k problem st).1
  | SolutionSettled k r => generateSolution_settled k r st
  | ResetTest => resetTest st
  | PromptsFetched => promptsFetched st
  | EditHintPrompt s => setCustomHintPrompt s st
  | EditSolutionPrompt s => setCustomSolutionPrompt s st
  end.

Definition run (events : list Event) (st : Page) : Page := foldl handle st events.

Definition reachable (st : Page) : Prop :=
  exists events, st = run events initial_page.

(** A question that is not submitted has no verdict and no points. *)
Definition unsubmitted_unscored (st : Page) : Prop :=
  forall k state, questionStates st !! k = Some state -> submitted state = false ->
    score state = 0 /\ isCorrect state = None.

(** ** Vocabulary of the statements *)

(** What a handler leaves alone besides the two maps. *)
Definition same_settings (st st' : Page) : Prop :=
  defaultHintPrompt st' = defaultHintPrompt st
  /\ customHintPrompt st' = customHintPrompt st
  /\ defaultSolutionPrompt st' = defaultSolutionPrompt st
  /\ customSolutionPrompt st' = customSolutionPrompt st.

(** No option is selected for a key: the key has no state yet, or its state
    has no [selectedAnswer], or an empty one. *)
Definition no_option_selected (problemKey : jsstring) (st : Page) : Prop :=
  forall state, questionStates st !! problemKey = Some state ->
    selectedAnswer state = None \/ selectedAnswer state = Some [].

Definition already_submitted (problemKey : jsstring) (st : Page) : Prop :=
  exists state, questionStates st !! problemKey = Some state /\ submitted state = true.

Definition contribution (state : QuestionState) : Z :=
  if submitted state then score state else 0.

Definition Zsum (l : list Z) : Z := foldr Z.add 0 l.

(** The aggregates as the specification words them: the sum of [score], and
    the number, of the question states with [submitted = true]. *)
Definition submitted_states (st : Page) : list QuestionState :=
  List.filter (fun s => submitted s) (values st).

Definition totalScore_spec (st : Page) : Z := Zsum (score <$> submitted_states st).

Definition answeredCount_spec (st : Page) : nat := length (submitted_states st).

(** A string of white space only. *)
Definition all_white (s : jsstring) : Prop := Forall (fun c => isWhiteSpace c = true) s.

(** The hints of a key, [solutions[key]?.aiHints || []], and its hint
    counter, [questionStates[key]?.hintsUsed || 0]. *)
Definition hints_of (problemKey : jsstring) (st : Page) : list jsstring :=
  list_or_empty (field aiHints (solutions st) problemKey).

Definition hintsUsed_of (problemKey : jsstring) (st : Page) : Z :=
  num_or_zero (hintsUsed <$> questionStates st !! problemKey).

(** The request failed: a status that is not 2xx, or an exception. *)
Definition is_failure (r : FetchResult) : bool :=
  match r with ResponseOk _ => false | _ => true end.

(** A hint request for the key is under way, as the page sees it. *)
Definition hint_pending (problemKey : jsstring) (st : Page) : Prop :=
  truthy_obool (field hintLoading (solutions st) problemKey) = true.

(** A problem with the given answer and four options. *)
Definition problem_with (a : AnswerField) : Problem :=
  {| text := js "Which one?";
     passage_text := None;
     options := Some [ {| opt_text := js "first" |}; {| opt_text := js "second" |};
                       {| opt_text := js "third" |}; {| opt_text := js "fourth" |} ];
     solution := None;
     answer := a |}.

(** The state map of the specification's example, built by hand: three
    questions, one submitted and correct after one hint, one submitted and
    incorrect, one with a selection that is not submitted. *)
Definition example_page : Page :=
  setQuestionStates (fun _ =>
    <[js "0-0" := {| selectedAnswer := Some (js "A"); submitted := true;
                     hintsUsed := 1; score := 3; isCorrect := Some true |}]>
    (<[js "0-1" := {| selectedAnswer := Some (js "B"); submitted := true;
                      hintsUsed := 0; score := 0; isCorrect := Some false |}]>
    (<[js "0-2" := {| selectedAnswer := Some (js "C"); submitted := false;
                      hintsUsed := 0; score := 0; isCorrect := None |}]> ∅)))
    mounted_page.

(** The events that lead to the questions of [example_page]. *)
Definition example_events : list Event :=
  [ GenerateHint (js "0-0") (problem_with (AnsArray [VString (js "1")]));
    HintSettled (js "0-0") (ResponseOk (js "Start from the definition."));
    SelectAnswer (js "0-0") (js "A");
    SubmitQuestion (js "0-0") (problem_with (AnsArray [VString (js "1")]));
    SelectAnswer (js "0-1") (js "B");
    SubmitQuestion (js "0-1") (problem_with (AnsValue (VString (js "C"))));
    SelectAnswer (js "0-2") (js "C") ].

(** The mounted page after a click on the hint button of question 0-0, its
    request still under way. *)
Definition pending_page : Page :=
  (generateHint (js "0-0") (problem_with (AnsValue (VNumber (JFin (inject_Z 1))))) mounted_page).1.

(** A page where question 0-0 has a selection and five hints used. *)
Definition five_hints_state : QuestionState :=
  {| selectedAnswer := Some (js "A"); submitted := false;
     hintsUsed := 5; score := 0; isCorrect := None |}.

Definition five_hints_page : Page :=
  setQuestionStates (fun _ => <[js "0-0" := five_hints_state]> ∅) mounted_page.

(** A page where question 0-0 has a generated solution and one hint. *)
Definition solved_page : Page :=
  generateSolution_settled (js "0-0") (ResponseOk (js "The correct answer is A."))
    (generateHint_settled (js "0-0") (ResponseOk (js "Start from the definition."))
       mounted_page).

Definition answer_one : Problem := problem_with (AnsValue (VNumber (JFin (inject_Z 1)))).

(** Substitution as the specification words it: the text goes in place of
    the token as it is. *)
Definition substitute_verbatim (token content template : jsstring) : jsstring :=
  match split_first token template with
  | Some (before, after) => before ++ content ++ after
  | None => template
  end.

(** The prompt of a request when each of the three substitutions, made one
    after the other as in [POST] and each at the first occurrence of its
    token, puts its text in as it is. *)
Definition verbatim_prompt (req : GenRequest) : jsstring :=
  let promptTemplate :=
    if truthy_ostr (customPrompt req) then default [] (customPrompt req)
    else if ostr_eq (type req) (js "hint") then DEFAULT_HINT_PROMPT
    else DEFAULT_SOLUTION_PROMPT in
  substitute_verbatim (js "{{PREVIOUS_HINTS}}") (build_hintInstructions req)
    (substitute_verbatim (js "{{HINT_INSTRUCTIONS}}") (build_hintInstructions req)
       (substitute_verbatim (js "{{QUESTION_CONTENT}}") (build_questionContent req)
          promptTemplate)).

Definition prompt_of (step : PostStep) : jsstring :=
  match step with
  | SubmitPrompt finalPrompt => finalPrompt
  | BadRequest _ => []
  end.

(** The body [generateHint] sends for a first hint on a question with this
    text, no passage and no options, with the default prompt. *)
Definition first_hint_request (questionText : jsstring) : GenRequest :=
  {| questionText := Some questionText;
     passageText := None;
     reqOptions := None;
     type := Some (js "hint");
     previousHints := Some [];
     customPrompt := None |}.

(** * More of the page and of the endpoints *)

(** ** How one event changes the state of one question *)

(** The ways the state of a question ([None]: no state yet) changes under an
    event that is not a reset: not at all, by a selection, by a submission,
    by a hint that arrived. *)
Inductive QStep : option QuestionState -> option QuestionState -> Prop :=
| QStep_same old : QStep old old
| QStep_select old letter :
    default false (submitted <$> old) = false ->
    QStep old (Some {| selectedAnswer := Some letter;
                       submitted := false;
                       hintsUsed := default 0 (hintsUsed <$> old);
                       score := 0;
                       isCorrect := old ≫= isCorrect |})
| QStep_submit state a correct :
    selectedAnswer state = Some a -> a <> [] -> submitted state = false ->
    QStep (Some state)
          (Some {| selectedAnswer := Some a;
                   submitted := true;
                   hintsUsed := hintsUsed state;
                   score := if (correct : bool) then Z.max 0 (4 - hintsUsed state) else 0;
                   isCorrect := Some correct |})
| QStep_hint old :
    QStep old (Some {| selectedAnswer := old ≫= selectedAnswer;
                       submitted := default false (submitted <$> old);
                       hintsUsed := default 0 (hintsUsed <$> old) + 1;
                       score := default 0 (score <$> old);
                       isCorrect := old ≫= isCorrect |}).

(** The question an event is about, if it is about one. *)
Definition event_key (e : Event) : option jsstring :=
  match e with
  | SelectAnswer k _ | SubmitQuestion k _ | GenerateHint k _ | HintSettled k _
  | GenerateSolution k _ | SolutionSettled k _ => Some k
  | SubmitTest | ResetTest | PromptsFetched | EditHintPrompt _
  | EditSolutionPrompt _ => None
  end.

Definition is_reset (e : Event) : bool :=
  match e with ResetTest => true | _ => false end.

Definition is_submit (e : Event) : bool :=
  match e with SubmitQuestion _ _ => true | _ => false end.

(** What a question adds to the total and to the count as it stands. *)
Definition contribution_at (k : jsstring) (st : Page) : Z :=
  default 0 (contribution <$> questionStates st !! k).

Definition counted_at (k : jsstring) (st : Page) : nat :=
  if default false (submitted <$> questionStates st !! k) then 1%nat else 0%nat.

(** The invariants of the question states. *)
Definition scores_bounded (st : Page) : Prop :=
  forall k state, questionStates st !! k = Some state ->
    0 <= hintsUsed state /\ 0 <= score state <= 4.

Definition submitted_judged (st : Page) : Prop :=
  forall k state, questionStates st !! k = Some state -> submitted state = true ->
    exists a correct,
      selectedAnswer state = Some a /\ a <> []
      /\ isCorrect state = Some correct
      /\ (correct = false -> score state = 0).

Definition hints_counted (st : Page) : Prop :=
  forall k, hintsUsed_of k st = Z.of_nat (length (hints_of k st)).

(** ** The buttons of a question, and the requests in flight *)

(** [String.fromCharCode(65 + optIdx)], the letter shown before an option. *)
Definition optionLetter (optIdx : nat) : jsstring := [ToUint16 (65 + Z.of_nat optIdx)].

(** A click on option number [optIdx] of a question: the options are there
    when the problem has some, and the handler is
    [!isQuestionSubmitted && selectAnswer(problemKey, optionLetter)]. *)
Definition clickOption (problemKey : jsstring) (problem : Problem) (optIdx : nat)
    (st : Page) : Page :=
  match options problem ≫= (fun opts => opts !! optIdx) with
  | Some _ =>
      if negb (isQuestionSubmitted problemKey st)
      then selectAnswer problemKey (optionLetter optIdx) st
      else st
  | None => st
  end.

(** The "Submit Answer" button is rendered like the hint button and carries
    [disabled={!qState?.selectedAnswer}]. *)
Definition clickSubmitAnswer (problemKey : jsstring) (problem : Problem) (st : Page) : Page :=
  if negb (isQuestionSubmitted problemKey st) && has_options problem
     && truthy_ostr (questionStates st !! problemKey ≫= selectedAnswer)
  then submitQuestion problemKey problem st
  else st.

(** The solution button is rendered once the question or the test is
    submitted and carries [disabled={solutionState?.solutionLoading}]. *)
Definition clickSolution (problemKey : jsstring) (problem : Problem) (st : Page)
  : Page * list GenRequest :=
  if isQuestionSubmitted problemKey st
     && negb (truthy_obool (field solutionLoading (solutions st) problemKey))
  then generateSolution problemKey problem st
  else (st, []).

(** The "Submit Test" button is rendered while the test is not submitted. *)
Definition clickSubmitTest (st : Page) : Page :=
  if testSubmitted st then st else submitTest st.

(** The page together with the requests that were sent and have not
    settled, by the key they were sent for.  The buttons of a question are
    there while its test is shown; a session does not keep track of that and
    so allows every click that the page allows, and more. *)
Record Session := {
  page : Page;
  hintsInFlight : list jsstring;
  solutionsInFlight : list jsstring;
}.

Definition initial_session : Session :=
  {| page := initial_page; hintsInFlight := []; solutionsInFlight := [] |}.

(** What a user, and the network, can do to a session. *)
Inductive Action :=
| ClickOption (problemKey : jsstring) (problem : Problem) (optIdx : nat)
| ClickSubmitAnswer (problemKey : jsstring) (problem : Problem)
| ClickGetHint (problemKey : jsstring) (problem : Problem)
| ClickGenerateSolution (problemKey : jsstring) (problem : Problem)
| ClickSubmitTest
| ClickBackOrFetch
| HintArrives (problemKey : jsstring) (r : FetchResult)
| SolutionArrives (problemKey : jsstring) (r : FetchResult)
| PromptsArrive
| TypeHintPrompt (s : jsstring)
| TypeSolutionPrompt (s : jsstring).

Definition is_back (a : Action) : bool :=
  match a with ClickBackOrFetch => true | _ => false end.

Fixpoint remove_one (k : jsstring) (l : list jsstring) : list jsstring :=
  match l with
  | [] => []
  | x :: l' => if bool_decide (x = k) then l' else x :: remove_one k l'
  end.

Definition with_page (st : Page) (s : Session) : Session :=
  {| page := st; hintsInFlight := hintsInFlight s;
     solutionsInFlight := solutionsInFlight s |}.

Definition act (s : Session) (a : Action) : Session :=
  match a with
  | ClickOption k problem optIdx => with_page (clickOption k problem optIdx (page s)) s
  | ClickSubmitAnswer k problem => with_page (clickSubmitAnswer k problem (page s)) s
  | ClickGetHint k problem =>
      let '(st, requests) := clickHint k problem (page s) in
      {| page := st;
         hintsInFlight := ((fun _ => k) <$> requests) ++ hintsInFlight s;
         solutionsInFlight := solutionsInFlight s |}
  | ClickGenerateSolution k problem =>
      let '(st, requests) := clickSolution k problem (page s) in
      {| page := st;
         hintsInFlight := hintsInFlight s;
         solutionsInFlight := ((fun _ => k) <$> requests) ++ solutionsInFlight s |}
  | ClickSubmitTest => with_page (clickSubmitTest (page s)) s
  | ClickBackOrFetch => with_page (resetTest (page s)) s
  | HintArrives k r =>
      if bool_decide (k ∈ hintsInFlight s) then
        {| page := generateHint_settled k r (page s);
           hintsInFlight := remove_one k (hintsInFlight s);
           solutionsInFlight := solutionsInFlight s |}
      else s
  | SolutionArrives k r =>
      if bool_decide (k ∈ solutionsInFlight s) then
        {| page := generateSolution_settled k r (page s);
           hintsInFlight := hintsInFlight s;
           solutionsInFlight := remove_one k (solutionsInFlight s) |}
      else s
  | PromptsArrive => with_page (promptsFetched (page s)) s
  | TypeHintPrompt t => with_page (setCustomHintPrompt t (page s)) s
  | TypeSolutionPrompt t => with_page (setCustomSolutionPrompt t (page s)) s
  end.

Definition play (actions : list Action) (s : Session) : Session := foldl act s actions.

(** A solution request for the key is under way, as the page sees it. *)
Definition solution_pending (problemKey : jsstring) (st : Page) : Prop :=
  truthy_obool (field solutionLoading (solutions st) problemKey) = true.

(** Every request in flight is the only one of its kind for its key, and the
    page shows its key as loading. *)
Definition lone_requests (s : Session) : Prop :=
  NoDup (hintsInFlight s) /\ NoDup (solutionsInFlight s)
  /\ (forall k, k ∈ hintsInFlight s -> hint_pending k (page s))
  /\ (forall k, k ∈ solutionsInFlight s -> solution_pending k (page s)).

(** A test is loaded, the hint of question 0-0 is asked for, the test is
    loaded again while that request is in flight, and the hint of question
    0-0 is asked for once more. *)
Definition reload_actions : list Action :=
  [PromptsArrive; ClickBackOrFetch; ClickGetHint (js "0-0") answer_one;
   ClickBackOrFetch; ClickGetHint (js "0-0") answer_one].

(** The session of a loaded test after a click on the hint button of
    question 0-0, its request in flight. *)
Definition pending_session : Session :=
  play [PromptsArrive; ClickBackOrFetch; ClickGetHint (js "0-0") answer_one]
    initial_session.

(** What the page shows of the answer to a question. *)
Definition verdict_view (k : jsstring) (st : Page)
  : option jsstring * bool * Z * option bool :=
  (questionStates st !! k ≫= selectedAnswer,
   default false (submitted <$> questionStates st !! k),
   default 0 (score <$> questionStates st !! k),
   questionStates st !! k ≫= isCorrect).

(** ** The generation endpoint: from the prompt to the response *)

(** [pat] occurs in [s]. *)
Definition occurs (pat s : jsstring) : Prop :=
  exists before after, s = before ++ pat ++ after.

(** The part of the provider's answer that [POST] reads:
    [data.choices?.[0]?.message], with its [content] and [reasoning]; a
    field that is [null] or missing is [None]. *)
Record Message := {
  content : option jsstring;
  reasoning : option jsstring;
}.

Record Choice := { message : option Message }.

Record Completion := { choices : option (list Choice) }.

(** [message?.content || message?.reasoning || "No solution generated"] *)
Definition extract_solution (data : Completion) : jsstring :=
  let first_message : option Message :=
    (choices data ≫= (fun cs : list Choice => cs !! 0%nat)) ≫= message in
  if truthy_ostr (first_message ≫= content) then default [] (first_message ≫= content)
  else if truthy_ostr (first_message ≫= reasoning)
       then default [] (first_message ≫= reasoning)
  else js "No solution generated".

(** How the call of the provider ends: with a 2xx answer and its body, or
    not (the [fetch] throws, the status is not 2xx, the body is not JSON),
    which all end in the [catch] of [POST]. *)
Inductive ProviderOutcome :=
| ProviderOk (data : Completion)
| ProviderFailed.

(** The response of [POST] as the page's [fetch] sees it: 400 with the
    validation error, 200 with [{solution}], or 500 with the fixed error. *)
Definition POST_response (req : GenRequest) (o : ProviderOutcome) : FetchResult :=
  match POST req with
  | BadRequest error => ResponseNotOk (Some error)
  | SubmitPrompt _ =>
      match o with
      | ProviderOk data => ResponseOk (extract_solution data)
      | ProviderFailed => ResponseNotOk (Some (js "Failed to generate solution"))
      end
  end.

(** A hint from the click to the arrival of the answer of the endpoint,
    with nothing else happening in between. *)
Definition hint_round_trip (k : jsstring) (problem : Problem) (o : ProviderOutcome)
    (st : Page) : Page :=
  match generateHint k problem st with
  | (st1, req :: _) => generateHint_settled k (POST_response req o) st1
  | (st1, []) => st1
  end.

Definition solution_round_trip (k : jsstring) (problem : Problem) (o : ProviderOutcome)
    (st : Page) : Page :=
  match generateSolution k problem st with
  | (st1, req :: _) => generateSolution_settled k (POST_response req o) st1
  | (st1, []) => st1
  end.


(** ** The test document, its sections and the keys of its questions *)

(** A section: its [subject], and the lists of problems it holds under
    other keys. *)
Record ProblemSection := {
  subject : jsstring;
  problem_lists : gmap jsstring (list Problem);
}.

Record Test := {
  code : jsstring;
  name : jsstring;
  duration : jsstring;
  marks : jsstring;
  problems : option (list ProblemSection);
}.

(** [toLowerCase] as it is on strings of ASCII characters: the capital
    letters A to Z become small, every other character stays.  (Outside
    ASCII the engine follows the Unicode case mappings, which are not
    modelled; what is proved of this function is stated for ASCII
    strings.) *)
Definition lower_unit (c : N) : N :=
  if (65 <=? c)%N && (c <=? 90)%N then (c + 32)%N else c.

Definition toLowerCase (s : jsstring) : jsstring := lower_unit <$> s.

(** [s.replace(/\s/g, "_")]: every white-space character becomes an
    underscore. *)
Definition underscore_spaces (s : jsstring) : jsstring :=
  (fun c => if isWhiteSpace c then 95%N else c) <$> s.

(** The key under which [getProblems] looks. *)
Definition problems_key (subject : jsstring) : jsstring :=
  underscore_spaces (toLowerCase subject) ++ js "_problems".

Definition getProblems (section : ProblemSection) : list Problem :=
  default [] (problem_lists section !! problems_key (subject section)).

(** [`${sectionIdx}-${problemIdx}`] *)
Definition problemKey (sectionIdx problemIdx : nat) : jsstring :=
  js (pretty sectionIdx) ++ js "-" ++ js (pretty problemIdx).

(** The questions the page renders for a test, each with its key, in the
    order of the two nested [map]s. *)
Fixpoint problems_from (sectionIdx problemIdx : nat) (ps : list Problem)
  : list (jsstring * Problem) :=
  match ps with
  | [] => []
  | p :: ps' =>
      (problemKey sectionIdx problemIdx, p) :: problems_from sectionIdx (S problemIdx) ps'
  end.

Fixpoint sections_from (sectionIdx : nat) (sections : list ProblemSection)
  : list (jsstring * Problem) :=
  match sections with
  | [] => []
  | section :: sections' =>
      problems_from sectionIdx 0 (getProblems section)
      ++ sections_from (S sectionIdx) sections'
  end.

Definition rendered_questions (t : Test) : list (jsstring * Problem) :=
  sections_from 0 (default [] (problems t)).

(** ** Loading a test *)

(** The page with what [fetchTest] works on besides the question states.
    [Json] is the type of the values that a JSON text can stand for, [null]
    among them: neither the test route nor [fetchTest] looks into the body of
    a 2xx answer, and the page keeps as its test whatever value it reads. *)
Record View (Json : Type) := {
  view_page : Page;
  testId : jsstring;
  test : Json;
  error : option jsstring;
  loading : bool;
}.

Arguments view_page {Json} _.
Arguments testId {Json} _.
Arguments test {Json} _.
Arguments error {Json} _.
Arguments loading {Json} _.

(** How the call of the content management system by the test route ends:
    with a status and, when the body is JSON, the value it stands for,
    whatever it is; or with an exception. *)
Inductive CmsOutcome (Json : Type) :=
| CmsAnswered (status : Z) (body : option Json)
| CmsThrew.

Arguments CmsAnswered {Json} status body.
Arguments CmsThrew {Json}.

(** The answer of the test route, as the page reads it: with status 200 and
    a JSON value, or with an error status and an object with an [error]
    message. *)
Inductive RouteResponse (Json : Type) :=
| RouteTest (data : Json)
| RouteError (status : Z) (message : jsstring).

Arguments RouteTest {Json} data.
Arguments RouteError {Json} status message.

(** [response.ok] *)
Definition status_ok (status : Z) : bool := (200 <=? status) && (status <=? 299).

(** [GET] of the test route.  [NextResponse.json(testData)] writes the value
    out as JSON text and the page reads that text back: [reread] is the value
    read back ([JSON.parse(JSON.stringify(testData))]). *)
Definition GET_test {Json : Type} (reread : Json -> Json) (o : CmsOutcome Json)
  : RouteResponse Json :=
  match o with
  | CmsAnswered status body =>
      if negb (status_ok status) then
        if status =? 404 then RouteError 404 (js "Test not found")
        else RouteError 500 (js "Failed to fetch test from CMS")
      else
        match body with
        | Some testData => RouteTest (reread testData)
        | None => RouteError 500 (js "Failed to fetch test from CMS")
        end
  | CmsThrew => RouteError 500 (js "Failed to fetch test from CMS")
  end.

(** How the [fetch] of [fetchTest] ends. *)
Inductive TestFetch (Json : Type) :=
| TestAnswered (r : RouteResponse Json)
| TestFetchThrew.

Arguments TestAnswered {Json} r.
Arguments TestFetchThrew {Json}.

(** [fetchTest], up to the [await fetch]: the view, and whether a request
    goes out. *)
Definition fetchTest {Json : Type} (null : Json) (id : option jsstring) (v : View Json)
  : View Json * bool :=
  let targetId := if truthy_ostr id then default [] id else testId v in
  if negb (truthy_str (trim targetId)) then
    ({| view_page := view_page v; testId := testId v; test := test v;
        error := Some (js "Please enter a Test ID"); loading := loading v |},
     false)
  else
    ({| view_page := resetTest (view_page v); testId := testId v; test := null;
        error := None; loading := true |},
     true).

(** [fetchTest], from the point where the [fetch] settles. *)
Definition fetchTest_settled {Json : Type} (r : TestFetch Json) (v : View Json)
  : View Json :=
  match r with
  | TestAnswered (RouteTest data) =>
      {| view_page := view_page v; testId := testId v; test := data;
         error := error v; loading := false |}
  | TestAnswered (RouteError _ message) =>
      {| view_page := view_page v; testId := testId v; test := test v;
         error := Some (if truthy_str message then message
                        else js "Failed to fetch test");
         loading := false |}
  | TestFetchThrew =>
      {| view_page := view_page v; testId := testId v; test := test v;
         error := Some (js "Failed to fetch test"); loading := false |}
  end.

(** A load from the click to the answer of the route. *)
Definition load_test {Json : Type} (null : Json) (id : option jsstring)
    (r : TestFetch Json) (v : View Json) : View Json :=
  match fetchTest null id v with
  | (v1, true) => fetchTest_settled r v1
  | (v1, false) => v1
  end.

(** ** The first version of the generation endpoint *)

(** The text around [${questionContent}] in the template literal of the
    first [POST]. *)
Definition V1_PROMPT_BEFORE : jsstring := js
"You are a very smart student, attempting the Joint Entrance Examination (JEE) Advanced of the Indian Institutes of Technology (IIT).

Read the instructions below carefully, and then answer the question.

IMPORTANT: Mathematical equations in the question are written in LaTeX notation (e.g., $x^2$ for inline math, $$E=mc^2$$ for display math). Parse and interpret them correctly.

The question may reference a diagram. If there is a discrepancy between the text and any diagram description, you should use the information from the text.

Remember that the questions are constructed very carefully, and do not contain any errors - so read the question carefully and answer the question as asked.

---

".

Definition V1_PROMPT_AFTER : jsstring := js
"

---

Answer the question above.

Follow carefully any instructions given in the question.

Ensure that your solution ends with the sentence of the form:
'The correct answer is ...', where ... is your answer.

If the question is a multiple choice question, your answer should be the letter corresponding to the correct answer.".

(** The first [POST]: it reads the question, its passage and its options,
    and has one prompt, for solutions. *)
Definition POST_v1 (req : GenRequest) : PostStep :=
  if negb (truthy_ostr (questionText req)) then
    BadRequest (js "Question text is required")
  else
    SubmitPrompt (V1_PROMPT_BEFORE ++ build_questionContent req ++ V1_PROMPT_AFTER).

(** ** More vocabulary *)

(** No hyphen in a string. *)
Definition no_dash (l : jsstring) : Prop := Forall (fun c => c <> 45%N) l.



(** The target of a load is blank: the identifier given, or else the one
    typed, is empty or white space. *)
Definition blank_target {Json : Type} (id : option jsstring) (v : View Json) : Prop :=
  all_white (if truthy_ostr id then default [] id else testId v).

(** The answer of a problem is missing: absent, [null], an empty array, or
    a string, alone or first in an array, that is empty or white space. *)
Inductive answer_missing : AnswerField -> Prop :=
| missing_undefined : answer_missing (AnsValue VUndefined)
| missing_null : answer_missing (AnsValue VNull)
| missing_blank s : all_white s -> answer_missing (AnsValue (VString s))
| missing_empty_array : answer_missing (AnsArray [])
| missing_first v l : answer_missing (AnsValue v) -> answer_missing (AnsArray (v :: l)).

(** Hints asked for one after the other, each one answered by the provider
    before the next is asked for. *)
Definition hints_in_turn (k : jsstring) (problem : Problem) (answers : list Completion)
    (st : Page) : Page :=
  foldl (fun acc data => hint_round_trip k problem (ProviderOk data) acc) st answers.

(** * Properties *)

(** ** Small facts about the JavaScript operators *)

Example StringToNumber_two : StringToNumber (js " 2 ") = JFin (inject_Z 2).
Proof. reflexivity. Qed.

Example StringToNumber_empty : StringToNumber (js "") = JFin 0.
Proof. reflexivity. Qed.

Example StringToNumber_letter : StringToNumber (js "C") = JNaN.
Proof. reflexivity. Qed.

Lemma num_or_zero_Some (n : Z) : num_or_zero (Some n) = n.
Proof. unfold num_or_zero. destruct (Z.eqb_spec n 0); congruence. Qed.

Lemma str_eq_true (s1 s2 : jsstring) : str_eq s1 s2 = true <-> s1 = s2.
Proof. unfold str_eq. apply bool_decide_eq_true. Qed.

Lemma truthy_str_false (s : jsstring) : truthy_str s = false <-> s = [].
Proof. destruct s; simpl; split; congruence. Qed.

Lemma truthy_ostr_true (o : option jsstring) :
  truthy_ostr o = true <-> exists a, o = Some a /\ a <> [].
Proof.
  destruct o as [[|c a]|]; simpl; split; try congruence.
  - intros (a & Ha & Hne). congruence.
  - intros _. exists (c :: a). split; congruence.
  - intros (a & Ha & _). congruence.
Qed.

(** Two pages with the same components are the same page. *)
Lemma Page_eq (st st' : Page) :
  questionStates st = questionStates st' ->
  testSubmitted st = testSubmitted st' ->
  solutions st = solutions st' ->
  defaultHintPrompt st = defaultHintPrompt st' ->
  customHintPrompt st = customHintPrompt st' ->
  defaultSolutionPrompt st = defaultSolutionPrompt st' ->
  customSolutionPrompt st = customSolutionPrompt st' ->
  st = st'.
Proof. destruct st, st'; simpl; intros; subst; reflexivity. Qed.

Lemma same_settings_refl st : same_settings st st.
Proof. repeat split. Qed.

(** ** Per-question submission *)

Lemma submitQuestion_noop problemKey problem st :
  no_option_selected problemKey st \/ already_submitted problemKey st ->
  submitQuestion problemKey problem st = st.
Proof.
  unfold submitQuestion, no_option_selected, already_submitted.
  destruct (questionStates st !! problemKey) as [state|] eqn:Hk; [|reflexivity].
  intros [Hsel | (state' & Heq & Hsub)].
  - destruct (Hsel state eq_refl) as [-> | ->]; reflexivity.
  - injection Heq as <-. rewrite Hsub, orb_true_r. reflexivity.
Qed.

Lemma submitQuestion_effective problemKey problem st state a :
  questionStates st !! problemKey = Some state ->
  selectedAnswer state = Some a -> a <> [] -> submitted state = false ->
  submitQuestion problemKey problem st =
    setQuestionStates (fun prev =>
      <[problemKey :=
          {| selectedAnswer := Some a;
             submitted := true;
             hintsUsed := hintsUsed state;
             score := if bool_decide (a = getCorrectAnswer problem)
                      then Z.max 0 (4 - hintsUsed state) else 0;
             isCorrect := Some (bool_decide (a = getCorrectAnswer problem)) |}]> prev) st.
Proof.
  intros Hk Hsel Hne Hsub. unfold submitQuestion.
  rewrite Hk, Hsel, Hsub, num_or_zero_Some.
  destruct a as [|c a]; [congruence|]. reflexivity.
Qed.

(** C1.  [submitQuestion] leaves the page as it is when no option is selected
    for the key or the question is already submitted.  Otherwise the state of
    the key gets [isCorrect = (selectedAnswer === getCorrectAnswer(problem))],
    [score = max(0, 4 - hintsUsed)] when correct and [0] when not, and
    [submitted = true]; the score is never negative, and a correct answer
    after four or more hints scores 0.  The selection and the hint counter of
    the key, the other keys and the rest of the page are untouched. *)
Theorem submitQuestion_spec (problemKey : jsstring) (problem : Problem) (st : Page) :
  (no_option_selected problemKey st \/ already_submitted problemKey st ->
   submitQuestion problemKey problem st = st)
  /\ (forall state a,
        questionStates st !! problemKey = Some state ->
        selectedAnswer state = Some a -> a <> [] -> submitted state = false ->
        let st' := submitQuestion problemKey problem st in
        let correct := bool_decide (a = getCorrectAnswer problem) in
        exists state',
          questionStates st' !! problemKey = Some state'
          /\ isCorrect state' = Some correct
          /\ score state' = (if correct then Z.max 0 (4 - hintsUsed state) else 0)
          /\ submitted state' = true
          /\ 0 <= score state'
          /\ (4 <= hintsUsed state -> score state' = 0)
          /\ selectedAnswer state' = Some a
          /\ hintsUsed state' = hintsUsed state
          /\ (forall k, k <> problemKey ->
                questionStates st' !! k = questionStates st !! k)
          /\ testSubmitted st' = testSubmitted st
          /\ solutions st' = solutions st
          /\ same_settings st st').
Proof.
  split; [apply submitQuestion_noop|].
  intros state a Hk Hsel Hne Hsub st' correct. subst st'.
  rewrite (submitQuestion_effective _ _ _ _ _ Hk Hsel Hne Hsub). fold correct.
  eexists. split; [apply lookup_insert_eq|]. simpl.
  repeat split; try reflexivity.
  - destruct correct; lia.
  - intros Hh. destruct correct; lia.
  - intros k Hne'. apply lookup_insert_ne. congruence.
Qed.

(** ** Answer selection *)

Lemma selectAnswer_test_submitted problemKey letter st :
  testSubmitted st = true -> selectAnswer problemKey letter st = st.
Proof. intros H. unfold selectAnswer. rewrite H. reflexivity. Qed.

Lemma selectAnswer_question_submitted problemKey letter st state :
  questionStates st !! problemKey = Some state -> submitted state = true ->
  selectAnswer problemKey letter st = st.
Proof.
  intros Hk Hsub. unfold selectAnswer. rewrite Hk. simpl.
  rewrite Hsub, orb_true_r. reflexivity.
Qed.

Lemma selectAnswer_open problemKey letter st :
  testSubmitted st = false ->
  (forall state, questionStates st !! problemKey = Some state -> submitted state = false) ->
  selectAnswer problemKey letter st =
    setQuestionStates (fun prev =>
      <[problemKey :=
          {| selectedAnswer := Some letter;
             submitted := false;
             hintsUsed := num_or_zero (hintsUsed <$> prev !! problemKey);
             score := 0;
             isCorrect := prev !! problemKey ≫= isCorrect |}]> prev) st.
Proof.
  intros Ht Hq. unfold selectAnswer. rewrite Ht.
  destruct (questionStates st !! problemKey) as [state|] eqn:Hk; simpl.
  - rewrite (Hq state eq_refl). reflexivity.
  - reflexivity.
Qed.

Lemma submitQuestion_submitted_after problemKey problem st state :
  questionStates st !! problemKey = Some state ->
  truthy_ostr (selectedAnswer state) = true ->
  already_submitted problemKey (submitQuestion problemKey problem st).
Proof.
  intros Hk Hsel. unfold already_submitted.
  destruct (submitted state) eqn:Hsub.
  - rewrite submitQuestion_noop; [eauto|]. right. red. eauto.
  - apply truthy_ostr_true in Hsel as (a & Ha & Hne).
    rewrite (submitQuestion_effective _ _ _ _ _ Hk Ha Hne Hsub).
    eexists. split; [apply lookup_insert_eq|]. reflexivity.
Qed.

(** C5.  [selectAnswer] leaves the whole page as it is when the test is
    submitted (whatever the key) and when the question of the key is
    submitted; in particular after [submitTest], and after [submitQuestion]
    on a key with a selection.  Otherwise it sets [selectedAnswer] of the key
    to the letter given, whatever was selected before, with
    [submitted = false] and [score = 0]; the hint counter of the key is kept
    (0 for a new key) and the other keys are untouched. *)
Theorem selectAnswer_spec (problemKey letter : jsstring) (st : Page) :
  (testSubmitted st = true -> selectAnswer problemKey letter st = st)
  /\ (already_submitted problemKey st -> selectAnswer problemKey letter st = st)
  /\ selectAnswer problemKey letter (submitTest st) = submitTest st
  /\ (forall problem state,
        questionStates st !! problemKey = Some state ->
        truthy_ostr (selectedAnswer state) = true ->
        selectAnswer problemKey letter (submitQuestion problemKey problem st)
        = submitQuestion problemKey problem st)
  /\ (testSubmitted st = false ->
      (forall state, questionStates st !! problemKey = Some state ->
                     submitted state = false) ->
      let st' := selectAnswer problemKey letter st in
      exists state',
        questionStates st' !! problemKey = Some state'
        /\ selectedAnswer state' = Some letter
        /\ submitted state' = false
        /\ score state' = 0
        /\ hintsUsed state' = default 0 (hintsUsed <$> questionStates st !! problemKey)
        /\ (forall k, k <> problemKey ->
              questionStates st' !! k = questionStates st !! k)
        /\ testSubmitted st' = testSubmitted st
        /\ solutions st' = solutions st
        /\ same_settings st st').
Proof.
  split; [apply selectAnswer_test_submitted|].
  split.
  { intros (state & Hk & Hsub). eapply selectAnswer_question_submitted; eauto. }
  split; [apply selectAnswer_test_submitted; reflexivity|].
  split.
  { intros problem state Hk Hsel.
    destruct (submitQuestion_submitted_after _ problem _ _ Hk Hsel) as (s' & Hk' & Hsub').
    eapply selectAnswer_question_submitted; eauto. }
  intros Ht Hq st'. subst st'. rewrite (selectAnswer_open _ _ _ Ht Hq).
  eexists. split; [apply lookup_insert_eq|]. simpl.
  repeat split; try reflexivity.
  - destruct (questionStates st !! problemKey) as [state|]; simpl; [|reflexivity].
    apply num_or_zero_Some.
  - intros k Hne. apply lookup_insert_ne. congruence.
Qed.

(** ** Whole-test submission and the aggregates *)

Lemma foldl_add_contribution (l : list QuestionState) (acc : Z) :
  foldl (fun total state => total + (if submitted state then score state else 0)) acc l
  = acc + Zsum (contribution <$> l).
Proof.
  revert acc. induction l as [|s l IH]; intros acc; csimpl.
  - lia.
  - rewrite IH. unfold contribution at 2. lia.
Qed.

Lemma calculateTotalScore_sum st :
  calculateTotalScore st = Zsum (contribution <$> values st).
Proof. unfold calculateTotalScore. rewrite foldl_add_contribution. lia. Qed.

Lemma Zsum_contribution_filter (l : list QuestionState) :
  Zsum (contribution <$> l) = Zsum (score <$> List.filter (fun s => submitted s) l).
Proof.
  induction l as [|s l IH]; csimpl; [reflexivity|].
  unfold contribution at 1. destruct (submitted s); csimpl; lia.
Qed.

#[local] Instance Zsum_perm : Proper (Permutation ==> eq) Zsum.
Proof.
  intros l1 l2 H. unfold Zsum.
  induction H; simpl; lia.
Qed.

Lemma filter_length_perm {A} (f : A -> bool) (l1 l2 : list A) :
  Permutation l1 l2 -> length (List.filter f l1) = length (List.filter f l2).
Proof.
  induction 1 as [|x l1 l2 _ IH|x y l|l1 l2 l3 _ IH1 _ IH2]; simpl.
  - reflexivity.
  - destruct (f x); simpl; congruence.
  - destruct (f x), (f y); reflexivity.
  - congruence.
Qed.

Lemma values_insert_fresh (k : jsstring) (state : QuestionState) (st : Page) :
  questionStates st !! k = None ->
  Permutation (values (setQuestionStates (fun prev => <[k := state]> prev) st))
              (state :: values st).
Proof.
  intros Hk. unfold values. simpl.
  rewrite (map_to_list_insert _ _ _ Hk). reflexivity.
Qed.

Lemma values_delete (k : jsstring) (state : QuestionState) (st : Page) :
  questionStates st !! k = Some state ->
  Permutation (values st)
              (state :: values (setQuestionStates (fun prev => delete k prev) st)).
Proof.
  intros Hk. unfold values. simpl.
  rewrite <- (map_to_list_delete _ _ _ Hk). reflexivity.
Qed.

Lemma calculateTotalScore_insert_fresh (k : jsstring) (state : QuestionState) (st : Page) :
  questionStates st !! k = None ->
  calculateTotalScore (setQuestionStates (fun prev => <[k := state]> prev) st)
  = calculateTotalScore st + contribution state.
Proof.
  intros Hk. rewrite !calculateTotalScore_sum.
  rewrite (values_insert_fresh _ _ _ Hk). csimpl. lia.
Qed.

Lemma countAnsweredQuestions_insert_fresh (k : jsstring) (state : QuestionState) (st : Page) :
  questionStates st !! k = None ->
  countAnsweredQuestions (setQuestionStates (fun prev => <[k := state]> prev) st)
  = (countAnsweredQuestions st + (if submitted state then 1 else 0))%nat.
Proof.
  intros Hk. unfold countAnsweredQuestions.
  rewrite (filter_length_perm _ _ _ (values_insert_fresh _ _ _ Hk)). simpl.
  destruct (submitted state); simpl; lia.
Qed.

Lemma example_page_reached :
  run (PromptsFetched :: example_events) initial_page
  = setSolutions (fun _ => solutions (run example_events mounted_page)) example_page.
Proof. vm_compute. reflexivity. Qed.

(** C8.  [calculateTotalScore] is the sum of [score] over exactly the
    question states with [submitted = true], and [countAnsweredQuestions] is
    their number.  Both are functions of the current map alone: 0 for the
    empty map, and a state under a new key adds its score, and one to the
    count, when it is submitted and nothing when it is not.  On the example
    of three questions (one correct after one hint, one incorrect, one not
    submitted) the total is 3 and the count is 2. *)
Theorem aggregates_spec (st : Page) :
  calculateTotalScore st = totalScore_spec st
  /\ countAnsweredQuestions st = answeredCount_spec st
  /\ calculateTotalScore (resetTest st) = 0
  /\ countAnsweredQuestions (resetTest st) = 0%nat
  /\ (forall k state, questionStates st !! k = None ->
        let st' := setQuestionStates (fun prev => <[k := state]> prev) st in
        calculateTotalScore st'
          = calculateTotalScore st + (if submitted state then score state else 0)
        /\ countAnsweredQuestions st'
          = (countAnsweredQuestions st + (if submitted state then 1 else 0))%nat)
  /\ calculateTotalScore example_page = 3
  /\ countAnsweredQuestions example_page = 2%nat.
Proof.
  split.
  { rewrite calculateTotalScore_sum. apply Zsum_contribution_filter. }
  split; [reflexivity|].
  split; [reflexivity|].
  split; [reflexivity|].
  split.
  { intros k state Hk. split.
    - apply calculateTotalScore_insert_fresh, Hk.
    - apply countAnsweredQuestions_insert_fresh, Hk. }
  split; vm_compute; reflexivity.
Qed.

(** ** Questions that were never submitted *)

Lemma questionStates_resetTest (st : Page) : questionStates (resetTest st) = ∅.
Proof. reflexivity. Qed.

Lemma questionStates_initial_page : questionStates initial_page = ∅.
Proof. reflexivity. Qed.

Lemma unsubmitted_unscored_handle (st : Page) (e : Event) :
  unsubmitted_unscored st -> unsubmitted_unscored (handle st e).
Proof.
  intros Hinv. destruct e as [k letter|k problem| |k problem|k r|k problem|k r| | |s|s];
    simpl; try exact Hinv.
  - (* selectAnswer *)
    unfold selectAnswer.
    destruct (testSubmitted st); [exact Hinv|]. simpl.
    destruct (questionStates st !! k) as [old|] eqn:Hk; simpl.
    + destruct (submitted old) eqn:Hsub; [exact Hinv|].
      intros k' state' Hk' Hsub'. simpl in Hk'.
      destruct (decide (k = k')) as [<-|Hne].
      * rewrite lookup_insert_eq in Hk'. injection Hk' as <-. simpl.
        rewrite Hk. simpl. split; [reflexivity|]. apply (Hinv k old Hk Hsub).
      * rewrite lookup_insert_ne in Hk' by exact Hne. eapply Hinv; eauto.
    + intros k' state' Hk' Hsub'. simpl in Hk'.
      destruct (decide (k = k')) as [<-|Hne].
      * rewrite lookup_insert_eq in Hk'. injection Hk' as <-. simpl.
        rewrite Hk. split; reflexivity.
      * rewrite lookup_insert_ne in Hk' by exact Hne. eapply Hinv; eauto.
  - (* submitQuestion *)
    unfold submitQuestion.
    destruct (questionStates st !! k) as [old|] eqn:Hk; [|exact Hinv].
    destruct (negb (truthy_ostr (selectedAnswer old)) || submitted old); [exact Hinv|].
    intros k' state' Hk' Hsub'. simpl in Hk'.
    destruct (decide (k = k')) as [<-|Hne].
    + rewrite lookup_insert_eq in Hk'. injection Hk' as <-. discriminate Hsub'.
    + rewrite lookup_insert_ne in Hk' by exact Hne. eapply Hinv; eauto.
  - (* a hint request settles *)
    unfold generateHint_settled. destruct r; try exact Hinv.
    intros k' state' Hk' Hsub'. simpl in Hk'.
    destruct (decide (k = k')) as [<-|Hne].
    + rewrite lookup_insert_eq in Hk'. injection Hk' as <-. simpl in *.
      destruct (questionStates st !! k) as [old|] eqn:Hk; simpl in *.
      * destruct (Hinv k old Hk Hsub') as [Hs Hc]. rewrite Hs. split; [reflexivity|exact Hc].
      * split; reflexivity.
    + rewrite lookup_insert_ne in Hk' by exact Hne. eapply Hinv; eauto.
  - (* a solution request settles *)
    unfold generateSolution_settled. destruct r; exact Hinv.
  - (* reset *)
    intros k' state' Hk'.
    rewrite questionStates_resetTest, lookup_empty in Hk'. discriminate.
Qed.

Lemma unsubmitted_unscored_run (events : list Event) (st : Page) :
  unsubmitted_unscored st -> unsubmitted_unscored (run events st).
Proof.
  revert st. induction events as [|e events IH]; intros st Hinv; simpl.
  - exact Hinv.
  - apply IH, unsubmitted_unscored_handle, Hinv.
Qed.

Lemma reachable_unsubmitted_unscored (st : Page) :
  reachable st -> unsubmitted_unscored st.
Proof.
  intros (events & ->). apply unsubmitted_unscored_run.
  intros k state Hk.
  rewrite questionStates_initial_page, lookup_empty in Hk. discriminate.
Qed.

Lemma calculateTotalScore_delete_unsubmitted (k : jsstring) (state : QuestionState) (st : Page) :
  questionStates st !! k = Some state -> submitted state = false ->
  calculateTotalScore st
  = calculateTotalScore (setQuestionStates (fun prev => delete k prev) st).
Proof.
  intros Hk Hsub. rewrite !calculateTotalScore_sum.
  rewrite (values_delete _ _ _ Hk). csimpl.
  unfold contribution at 1. rewrite Hsub. lia.
Qed.

Lemma countAnsweredQuestions_delete_unsubmitted (k : jsstring) (state : QuestionState) (st : Page) :
  questionStates st !! k = Some state -> submitted state = false ->
  countAnsweredQuestions st
  = countAnsweredQuestions (setQuestionStates (fun prev => delete k prev) st).
Proof.
  intros Hk Hsub. unfold countAnsweredQuestions.
  rewrite (filter_length_perm _ _ _ (values_delete _ _ _ Hk)). simpl.
  rewrite Hsub. reflexivity.
Qed.

(** C10.  [submitTest] sets the flag of the test to true whatever it was,
    and a second call changes nothing.  It touches no question state: the
    map, and with it both aggregates, are as before.  A question that was
    not submitted on its own stays as it was (not evaluated, not scored, not
    marked submitted) and counts for nothing in the total and in the number
    of answered questions; on a page reached from the initial page such a
    question has score 0 and no [isCorrect]. *)
Theorem submitTest_spec (st : Page) :
  let st' := submitTest st in
  testSubmitted st' = true
  /\ submitTest st' = st'
  /\ questionStates st' = questionStates st
  /\ solutions st' = solutions st
  /\ same_settings st st'
  /\ calculateTotalScore st' = calculateTotalScore st
  /\ countAnsweredQuestions st' = countAnsweredQuestions st
  /\ (forall k state,
        questionStates st !! k = Some state -> submitted state = false ->
        questionStates st' !! k = Some state
        /\ calculateTotalScore st'
           = calculateTotalScore (setQuestionStates (fun prev => delete k prev) st)
        /\ countAnsweredQuestions st'
           = countAnsweredQuestions (setQuestionStates (fun prev => delete k prev) st)
        /\ (reachable st -> score state = 0 /\ isCorrect state = None)).
Proof.
  simpl. repeat split; try reflexivity.
  - assumption.
  - change (calculateTotalScore (submitTest st)) with (calculateTotalScore st).
    eapply calculateTotalScore_delete_unsubmitted; eauto.
  - change (countAnsweredQuestions (submitTest st)) with (countAnsweredQuestions st).
    eapply countAnsweredQuestions_delete_unsubmitted; eauto.
  - eapply reachable_unsubmitted_unscored; eauto.
  - eapply reachable_unsubmitted_unscored; eauto.
Qed.

(** ** Hints *)

Lemma submitQuestion_questionStates problemKey problem st1 st2 :
  questionStates st1 = questionStates st2 ->
  questionStates (submitQuestion problemKey problem st1)
  = questionStates (submitQuestion problemKey problem st2).
Proof.
  intros Heq. unfold submitQuestion. rewrite Heq.
  destruct (questionStates st2 !! problemKey) as [state|]; [|exact Heq].
  destruct (negb (truthy_ostr (selectedAnswer state)) || submitted state); [exact Heq|].
  simpl. rewrite Heq. reflexivity.
Qed.

Lemma failure_message_is_Some fallback r :
  is_failure r = true -> exists msg, failure_message fallback r = Some msg.
Proof. destruct r as [s|e|[m|]]; simpl; intros H; try discriminate; eauto. Qed.

Lemma generateHint_settled_failure problemKey r st :
  is_failure r = true ->
  generateHint_settled problemKey r st =
    setSolutions (fun prev =>
      <[problemKey :=
          {| hintLoading := Some false;
             solutionLoading := field solutionLoading prev problemKey;
             aiHints := field aiHints prev problemKey;
             aiSolution := field aiSolution prev problemKey;
             hintError := failure_message (js "Failed to generate hint") r;
             solutionError := field solutionError prev problemKey;
             showPanel := field showPanel prev problemKey |}]> prev) st.
Proof. destruct r; simpl; intros H; try discriminate; reflexivity. Qed.

Lemma field_insert_eq {A} (f : SolutionState -> option A) prev problemKey s :
  field f (<[problemKey := s]> prev) problemKey = f s.
Proof. unfold field. rewrite lookup_insert_eq. reflexivity. Qed.

(** Reading the key just written, in either map. *)
Ltac settle_insert :=
  unfold hints_of, hintsUsed_of; cbn -[num_or_zero];
  rewrite ?field_insert_eq, ?lookup_insert_eq; cbn -[num_or_zero];
  rewrite ?num_or_zero_Some, <- ?app_assoc.

(** C3.  When a hint request fails, by a status that is not 2xx or by an
    exception, the handler leaves the hints of the key (so their number) and
    the whole map of question states (so the hint counter of the key) as
    they were, sets [hintLoading] to false and [hintError] to the message of
    the failure, and changes nothing else: the other fields of the key, the
    other keys, the flag of the test.  What [submitQuestion] would then
    score is what it would have scored before. *)
Theorem hint_failure_spec (problemKey : jsstring) (r : FetchResult) (st : Page) :
  is_failure r = true ->
  let st' := generateHint_settled problemKey r st in
  field aiHints (solutions st') problemKey = field aiHints (solutions st) problemKey
  /\ length (hints_of problemKey st') = length (hints_of problemKey st)
  /\ questionStates st' = questionStates st
  /\ hintsUsed_of problemKey st' = hintsUsed_of problemKey st
  /\ field hintLoading (solutions st') problemKey = Some false
  /\ (exists msg,
        field hintError (solutions st') problemKey = Some msg
        /\ failure_message (js "Failed to generate hint") r = Some msg)
  /\ field solutionLoading (solutions st') problemKey
     = field solutionLoading (solutions st) problemKey
  /\ field aiSolution (solutions st') problemKey
     = field aiSolution (solutions st) problemKey
  /\ field solutionError (solutions st') problemKey
     = field solutionError (solutions st) problemKey
  /\ field showPanel (solutions st') problemKey
     = field showPanel (solutions st) problemKey
  /\ (forall k, k <> problemKey -> solutions st' !! k = solutions st !! k)
  /\ testSubmitted st' = testSubmitted st
  /\ same_settings st st'
  /\ (forall problem,
        questionStates (submitQuestion problemKey problem st')
        = questionStates (submitQuestion problemKey problem st)).
Proof.
  intros Hr st'. subst st'. rewrite (generateHint_settled_failure _ _ _ Hr).
  unfold hints_of, hintsUsed_of. simpl. rewrite !field_insert_eq. simpl.
  repeat split; try reflexivity.
  - destruct (failure_message_is_Some (js "Failed to generate hint") r Hr) as (msg & Hm).
    exists msg. rewrite Hm. split; reflexivity.
  - intros k Hne. apply lookup_insert_ne. congruence.
  - intros problem. apply submitQuestion_questionStates. reflexivity.
Qed.

(** C4.  When a hint request succeeds, the text returned is put at the end
    of the hints of the key, after the hints already there, and the hint
    counter of the key goes up by exactly 1 (from 0 for a key with no state
    yet); so a second hint comes after the first one and the counter is then
    2 higher.  The selection, verdict, score and submitted flag of the key,
    and the other keys, are untouched. *)
Theorem hint_success_spec (problemKey hint : jsstring) (st : Page) :
  let st' := generateHint_settled problemKey (ResponseOk hint) st in
  hints_of problemKey st' = hints_of problemKey st ++ [hint]
  /\ hintsUsed <$> questionStates st' !! problemKey
     = Some (hintsUsed_of problemKey st + 1)
  /\ hintsUsed_of problemKey st' = hintsUsed_of problemKey st + 1
  /\ (forall hint2,
        let st'' := generateHint_settled problemKey (ResponseOk hint2) st' in
        hints_of problemKey st'' = hints_of problemKey st ++ [hint; hint2]
        /\ hintsUsed_of problemKey st'' = hintsUsed_of problemKey st + 2)
  /\ field hintLoading (solutions st') problemKey = Some false
  /\ questionStates st' !! problemKey ≫= selectedAnswer
     = questionStates st !! problemKey ≫= selectedAnswer
  /\ questionStates st' !! problemKey ≫= isCorrect
     = questionStates st !! problemKey ≫= isCorrect
  /\ default 0 (score <$> questionStates st' !! problemKey)
     = default 0 (score <$> questionStates st !! problemKey)
  /\ default false (submitted <$> questionStates st' !! problemKey)
     = default false (submitted <$> questionStates st !! problemKey)
  /\ (forall k, k <> problemKey ->
        solutions st' !! k = solutions st !! k
        /\ questionStates st' !! k = questionStates st !! k).
Proof.
  cbv zeta. repeat split; intros; settle_insert; try reflexivity.
  - lia.
  - destruct (questionStates st !! problemKey) as [state|]; simpl; [|reflexivity].
    apply num_or_zero_Some.
  - apply lookup_insert_ne. congruence.
  - apply lookup_insert_ne. congruence.
Qed.

(** *** A hint requested while one is under way *)

(** [generateHint] has no guard of its own: what it does for a key does not
    depend on whether a hint of that key is under way.  The guard is in the
    button that calls it: while the hint of a key is under way its hint
    button is disabled, and a click on it sends nothing and leaves the page
    as it is. *)
Lemma hintButton_disabled_pending (problemKey : jsstring) (st : Page) :
  hint_pending problemKey st -> hintButton_disabled problemKey st = true.
Proof. intros Hp. exact Hp. Qed.

Lemma clickHint_pending (problemKey : jsstring) (problem : Problem) (st : Page) :
  hint_pending problemKey st -> clickHint problemKey problem st = (st, []).
Proof.
  intros Hp. unfold clickHint.
  rewrite (hintButton_disabled_pending _ _ Hp), andb_false_r. reflexivity.
Qed.

(** ** Solutions *)

Lemma generateSolution_settled_failure problemKey r st :
  is_failure r = true ->
  generateSolution_settled problemKey r st =
    setSolutions (fun prev =>
      <[problemKey :=
          {| hintLoading := field hintLoading prev problemKey;
             solutionLoading := Some false;
             aiHints := field aiHints prev problemKey;
             aiSolution := field aiSolution prev problemKey;
             hintError := field hintError prev problemKey;
             solutionError := failure_message (js "Failed to generate solution") r;
             showPanel := field showPanel prev problemKey |}]> prev) st.
Proof. destruct r; simpl; intros H; try discriminate; reflexivity. Qed.

(** C7.  A solution request that succeeds puts the text returned in
    [aiSolution] of the key in place of whatever was there, so the solution
    of a second success is the second text alone; the hints of the key are
    not touched.  A solution request that fails sets [solutionError] to the
    message of the failure and leaves [aiSolution] as it was; besides the
    loading flag, which both outcomes set to false, nothing else changes. *)
Theorem solution_settled_spec (problemKey : jsstring) (st : Page) :
  (forall text1,
      let st' := generateSolution_settled problemKey (ResponseOk text1) st in
      field aiSolution (solutions st') problemKey = Some text1
      /\ (forall text2,
            field aiSolution
              (solutions (generateSolution_settled problemKey (ResponseOk text2) st'))
              problemKey = Some text2)
      /\ field aiHints (solutions st') problemKey
         = field aiHints (solutions st) problemKey
      /\ field solutionLoading (solutions st') problemKey = Some false
      /\ questionStates st' = questionStates st)
  /\ (forall r, is_failure r = true ->
      let st' := generateSolution_settled problemKey r st in
      field aiSolution (solutions st') problemKey
      = field aiSolution (solutions st) problemKey
      /\ (exists msg,
            field solutionError (solutions st') problemKey = Some msg
            /\ failure_message (js "Failed to generate solution") r = Some msg)
      /\ field solutionLoading (solutions st') problemKey = Some false
      /\ field hintLoading (solutions st') problemKey
         = field hintLoading (solutions st) problemKey
      /\ field aiHints (solutions st') problemKey
         = field aiHints (solutions st) problemKey
      /\ field hintError (solutions st') problemKey
         = field hintError (solutions st) problemKey
      /\ field showPanel (solutions st') problemKey
         = field showPanel (solutions st) problemKey
      /\ (forall k, k <> problemKey -> solutions st' !! k = solutions st !! k)
      /\ questionStates st' = questionStates st
      /\ testSubmitted st' = testSubmitted st
      /\ same_settings st st').
Proof.
  split.
  - intros text1. cbv zeta. repeat split; intros; settle_insert; reflexivity.
  - intros r Hr. cbv zeta. rewrite (generateSolution_settled_failure _ _ _ Hr).
    simpl. rewrite !field_insert_eq. simpl.
    repeat split; try reflexivity.
    + destruct (failure_message_is_Some (js "Failed to generate solution") r Hr)
        as (msg & Hm).
      exists msg. rewrite Hm. split; reflexivity.
    + intros k Hne. apply lookup_insert_ne. congruence.
Qed.

(** ** The statements at concrete pages *)

Lemma submitQuestion_spec_witness :
  submitQuestion (js "0-0") answer_one example_page = example_page
  /\ submitQuestion (js "0-7") answer_one example_page = example_page
  /\ exists state',
       questionStates (submitQuestion (js "0-0") answer_one five_hints_page) !! js "0-0"
       = Some state'
       /\ isCorrect state' = Some true
       /\ score state' = 0
       /\ submitted state' = true.
Proof.
  split; [|split].
  - apply (proj1 (submitQuestion_spec (js "0-0") answer_one example_page)).
    right. eexists. split; vm_compute; reflexivity.
  - apply (proj1 (submitQuestion_spec (js "0-7") answer_one example_page)).
    left. intros state H. vm_compute in H. discriminate H.
  - destruct (proj2 (submitQuestion_spec (js "0-0") answer_one five_hints_page)
                five_hints_state (js "A"))
      as (state' & Hk & Hc & _ & Hsub & _ & H4 & _).
    + vm_compute. reflexivity.
    + reflexivity.
    + discriminate.
    + reflexivity.
    + exists state'. split; [exact Hk|]. split; [exact Hc|]. split; [|exact Hsub].
      apply H4. simpl. lia.
Defined.

Lemma selectAnswer_spec_witness :
  selectAnswer (js "0-2") (js "D") (submitTest example_page) = submitTest example_page
  /\ selectAnswer (js "0-0") (js "D") example_page = example_page
  /\ exists state',
       questionStates (selectAnswer (js "0-2") (js "D") example_page) !! js "0-2"
       = Some state'
       /\ selectedAnswer state' = Some (js "D")
       /\ submitted state' = false
       /\ score state' = 0.
Proof.
  split; [|split].
  - apply (proj1 (selectAnswer_spec (js "0-2") (js "D") (submitTest example_page))).
    reflexivity.
  - apply (proj1 (proj2 (selectAnswer_spec (js "0-0") (js "D") example_page))).
    eexists. split; vm_compute; reflexivity.
  - destruct (proj2 (proj2 (proj2 (proj2
                (selectAnswer_spec (js "0-2") (js "D") example_page)))))
      as (state' & Hk & Hsel & Hsub & Hscore & _).
    + reflexivity.
    + intros state H. vm_compute in H. injection H as <-. reflexivity.
    + exists state'. repeat split; assumption.
Defined.

Lemma aggregates_spec_witness :
  questionStates example_page !! js "1-0" = None
  /\ calculateTotalScore
       (setQuestionStates (fun prev => <[js "1-0" := five_hints_state]> prev) example_page)
     = calculateTotalScore example_page + 0
  /\ countAnsweredQuestions
       (setQuestionStates (fun prev => <[js "1-0" := five_hints_state]> prev) example_page)
     = (countAnsweredQuestions example_page + 0)%nat.
Proof.
  assert (Hk : questionStates example_page !! js "1-0" = None)
    by (vm_compute; reflexivity).
  split; [exact Hk|].
  exact (proj1 (proj2 (proj2 (proj2 (proj2 (aggregates_spec example_page)))))
           (js "1-0") five_hints_state Hk).
Defined.

Lemma submitTest_spec_witness :
  let st := run (PromptsFetched :: example_events) initial_page in
  let state := {| selectedAnswer := Some (js "C"); submitted := false;
                  hintsUsed := 0; score := 0; isCorrect := None |} in
  questionStates st !! js "0-2" = Some state
  /\ reachable st
  /\ questionStates (submitTest st) !! js "0-2" = Some state
  /\ calculateTotalScore (submitTest st)
     = calculateTotalScore (setQuestionStates (fun prev => delete (js "0-2") prev) st)
  /\ score state = 0.
Proof.
  intros st state.
  assert (Hk : questionStates st !! js "0-2" = Some state) by (vm_compute; reflexivity).
  assert (Hr : reachable st) by (eexists; reflexivity).
  split; [exact Hk|]. split; [exact Hr|].
  destruct (proj2 (proj2 (proj2 (proj2 (proj2 (proj2 (proj2
              (submitTest_spec st))))))) _ _ Hk eq_refl)
    as (H1 & H2 & _ & H4).
  split; [exact H1|]. split; [exact H2|]. exact (proj1 (H4 Hr)).
Defined.

Lemma hint_failure_spec_witness :
  is_failure (ResponseNotOk (Some (js "Failed to generate solution"))) = true
  /\ length (hints_of (js "0-0")
               (generateHint_settled (js "0-0")
                  (ResponseNotOk (Some (js "Failed to generate solution"))) solved_page))
     = length (hints_of (js "0-0") solved_page)
  /\ hintsUsed_of (js "0-0")
       (generateHint_settled (js "0-0")
          (ResponseNotOk (Some (js "Failed to generate solution"))) solved_page)
     = hintsUsed_of (js "0-0") solved_page.
Proof.
  split; [reflexivity|].
  destruct (hint_failure_spec (js "0-0")
              (ResponseNotOk (Some (js "Failed to generate solution"))) solved_page
              eq_refl)
    as (_ & Hlen & _ & Hused & _).
  split; [exact Hlen|exact Hused].
Defined.

Lemma hint_success_spec_witness :
  js "0-1" <> js "0-0"
  /\ solutions (generateHint_settled (js "0-0") (ResponseOk (js "Try x = 1.")) solved_page)
       !! js "0-1"
     = solutions solved_page !! js "0-1".
Proof.
  assert (Hne : js "0-1" <> js "0-0") by discriminate.
  split; [exact Hne|].
  destruct (hint_success_spec (js "0-0") (js "Try x = 1.") solved_page)
    as (_ & _ & _ & _ & _ & _ & _ & _ & _ & Hother).
  exact (proj1 (Hother (js "0-1") Hne)).
Defined.

Lemma solution_settled_spec_witness :
  is_failure (FetchThrew None) = true
  /\ field aiSolution
       (solutions (generateSolution_settled (js "0-0") (FetchThrew None) solved_page))
       (js "0-0")
     = Some (js "The correct answer is A.")
  /\ field solutionError
       (solutions (generateSolution_settled (js "0-0") (FetchThrew None) solved_page))
       (js "0-0")
     = Some (js "Failed to generate solution").
Proof.
  split; [reflexivity|].
  destruct (proj2 (solution_settled_spec (js "0-0") solved_page) (FetchThrew None) eq_refl)
    as (Hsol & (msg & Herr & Hmsg) & _).
  split.
  - rewrite Hsol. vm_compute. reflexivity.
  - rewrite Herr, <- Hmsg. reflexivity.
Defined.

(** ** The correct letter *)

Lemma getCorrectAnswer_examples :
  getCorrectAnswer (problem_with (AnsValue (VNumber (JFin (inject_Z 1))))) = js "A"
  /\ getCorrectAnswer (problem_with (AnsValue (VString (js "2")))) = js "B"
  /\ getCorrectAnswer (problem_with (AnsValue (VString (js "C")))) = js "C"
  /\ getCorrectAnswer (problem_with (AnsArray [VString (js "1")])) = js "A"
  /\ getCorrectAnswer (problem_with (AnsValue VUndefined)) = js ""
  /\ getCorrectAnswer (problem_with (AnsArray [])) = js ""
  /\ getCorrectAnswer (problem_with (AnsValue (VString (js " 3 ")))) = js "C"
  /\ getCorrectAnswer (problem_with (AnsValue (VString (js " b ")))) = js "B".
Proof. repeat split; vm_compute; reflexivity. Qed.

(** *** White space around an answer *)

Lemma trimStart_white_prefix (pre s : jsstring) :
  all_white pre -> trimStart (pre ++ s) = trimStart s.
Proof.
  induction 1 as [|c pre Hc _ IH]; [reflexivity|].
  simpl. rewrite Hc. exact IH.
Qed.

Lemma trimStart_all_white (s : jsstring) : all_white s -> trimStart s = [].
Proof.
  intros H. rewrite <- (app_nil_r s). apply trimStart_white_prefix, H.
Qed.

Lemma trimStart_nil_inv (s : jsstring) : trimStart s = [] -> all_white s.
Proof.
  induction s as [|c s IH]; simpl; intros H; [constructor|].
  destruct (isWhiteSpace c) eqn:Hc; [|discriminate].
  constructor; [exact Hc|apply IH, H].
Qed.

Lemma trimStart_app (s post : jsstring) :
  trimStart s <> [] -> trimStart (s ++ post) = trimStart s ++ post.
Proof.
  induction s as [|c s IH]; simpl; intros H; [congruence|].
  destruct (isWhiteSpace c); [apply IH, H|reflexivity].
Qed.

Lemma trimEnd_white_suffix (s post : jsstring) :
  all_white post -> trimEnd (s ++ post) = trimEnd s.
Proof.
  intros H. unfold trimEnd. rewrite reverse_app.
  rewrite trimStart_white_prefix; [reflexivity|].
  unfold all_white. rewrite Forall_reverse. exact H.
Qed.

Lemma trim_white_around (pre s post : jsstring) :
  all_white pre -> all_white post -> trim (pre ++ s ++ post) = trim s.
Proof.
  intros Hpre Hpost. unfold trim. rewrite (trimStart_white_prefix _ _ Hpre).
  destruct (trimStart s) as [|c s'] eqn:Hs.
  - rewrite trimStart_all_white; [reflexivity|].
    apply Forall_app. split; [apply trimStart_nil_inv, Hs|exact Hpost].
  - rewrite trimStart_app by congruence. rewrite Hs.
    apply trimEnd_white_suffix, Hpost.
Qed.

(** [Number] skips the white space around a literal. *)
Lemma StringToNumber_white_around (pre s post : jsstring) :
  all_white pre -> all_white post ->
  StringToNumber (pre ++ s ++ post) = StringToNumber s.
Proof.
  intros Hpre Hpost. unfold StringToNumber.
  rewrite (trim_white_around _ _ _ Hpre Hpost). reflexivity.
Qed.

Lemma upper_unit_white (c : N) : isWhiteSpace c = true -> upper_unit c = c.
Proof.
  intros Hc. unfold upper_unit.
  destruct ((97 <=? c)%N && (c <=? 122)%N) eqn:Hr; [|reflexivity].
  apply andb_true_iff in Hr as [H1 H2].
  apply N.leb_le in H1, H2.
  assert (Hw : isWhiteSpace c = false); [|congruence].
  unfold isWhiteSpace.
  assert (Hhi : (c <? 8192)%N = true) by (apply N.ltb_lt; lia).
  destruct c as [|p]; [lia|].
  assert (H8 : (8192 <=? N.pos p)%N = false) by (apply N.leb_gt; lia).
  do 8 (try (destruct p as [p|p|]; try (simpl; rewrite ?H8; reflexivity); try lia)).
Qed.

Lemma toUpperCase_all_white (s : jsstring) : all_white s -> toUpperCase s = s.
Proof.
  induction 1 as [|c s Hc _ IH]; [reflexivity|].
  unfold toUpperCase in *. csimpl. rewrite IH, (upper_unit_white _ Hc). reflexivity.
Qed.

(** White space around a string answer does not change the letter, be the
    string a position or a letter. *)
Lemma getCorrectAnswer_white_around (pre s post : jsstring) :
  all_white pre -> all_white post ->
  getCorrectAnswer (problem_with (AnsValue (VString (pre ++ s ++ post))))
  = getCorrectAnswer (problem_with (AnsValue (VString s))).
Proof.
  intros Hpre Hpost. unfold getCorrectAnswer. simpl.
  rewrite (StringToNumber_white_around _ _ _ Hpre Hpost).
  destruct (isNaN (StringToNumber s)); simpl; [|reflexivity].
  unfold toUpperCase. rewrite !fmap_app.
  fold (toUpperCase pre) (toUpperCase s) (toUpperCase post).
  rewrite (toUpperCase_all_white _ Hpre), (toUpperCase_all_white _ Hpost).
  apply trim_white_around; assumption.
Qed.

(** Only the first element of an array counts. *)
Lemma getCorrectAnswer_first_element (p : Problem) (v : JSValue) (l : list JSValue) :
  answer p = AnsArray (v :: l) ->
  getCorrectAnswer p = getCorrectAnswer (problem_with (AnsValue v)).
Proof. intros H. unfold getCorrectAnswer. rewrite H. reflexivity. Qed.

(** The second branch of [getCorrectAnswer] is taken by [undefined] and by
    the strings that are not numeric literals, and by nothing else. *)
Lemma letter_branch_not_number (v : JSValue) :
  typeof_number v || negb (isNaN (ToNumber v)) = false ->
  v = VUndefined \/ exists s, v = VString s /\ StringToNumber s = JNaN.
Proof.
  destruct v as [| |n|s]; simpl; intros H; try discriminate.
  - left. reflexivity.
  - right. exists s. split; [reflexivity|].
    destruct (StringToNumber s); simpl in H; try discriminate. reflexivity.
Qed.

Lemma getCorrectAnswer_letter (s : jsstring) :
  StringToNumber s = JNaN ->
  getCorrectAnswer (problem_with (AnsValue (VString s))) = trim (toUpperCase s).
Proof. intros H. unfold getCorrectAnswer. simpl. rewrite H. reflexivity. Qed.

Lemma Qtrunc_inject_Z (z : Z) : Qtrunc (inject_Z z) = z.
Proof.
  unfold Qtrunc. destruct (Qle_bool 0 (inject_Z z)).
  - apply Qfloor_Z.
  - apply Qceiling_Z.
Qed.

(** A position [n] given as a number is the letter with code [64 + n]. *)
Lemma getCorrectAnswer_position (n : Z) :
  getCorrectAnswer (problem_with (AnsValue (VNumber (JFin (inject_Z n)))))
  = [ToUint16 (64 + n)].
Proof.
  unfold getCorrectAnswer. simpl. f_equal. f_equal.
  rewrite <- (Qtrunc_inject_Z (64 + n)).
  unfold Qtrunc, Qle_bool, Qfloor, Qceiling, Qplus, Qopp, inject_Z. simpl.
  rewrite !Z.mul_1_r. reflexivity.
Qed.

(** C2, where the code parts from it.  An answer that is the empty string
    is not turned into the empty string: [Number('')] is 0, not NaN, so the
    first branch of [getCorrectAnswer] takes it and the result is the
    character with code 64.  The same happens to [null] and to a string of
    white space. *)
Theorem getCorrectAnswer_empty_answer :
  getCorrectAnswer (problem_with (AnsValue (VString (js "")))) = js "@"
  /\ getCorrectAnswer (problem_with (AnsValue VNull)) = js "@"
  /\ getCorrectAnswer (problem_with (AnsValue (VString (js "  ")))) = js "@"
  /\ getCorrectAnswer (problem_with (AnsArray [VString (js "")])) = js "@"
  /\ str_eq (getCorrectAnswer (problem_with (AnsValue (VString (js ""))))) (js "") = false.
Proof. repeat split; vm_compute; reflexivity. Qed.

(** ** The prompt *)

Lemma GetSubstitution_other (matched preceding following : jsstring) (c : N) (t : jsstring) :
  c <> 36%N ->
  GetSubstitution matched preceding following (c :: t)
  = c :: GetSubstitution matched preceding following t.
Proof.
  intros Hc. destruct c as [|p]; [reflexivity|].
  do 6 (try (destruct p as [p|p|]; try reflexivity)).
  exfalso. apply Hc. reflexivity.
Qed.

(** A replacement text without a dollar goes in as it is. *)
Lemma GetSubstitution_no_dollar (matched preceding following template : jsstring) :
  Forall (fun c => c <> 36%N) template ->
  GetSubstitution matched preceding following template = template.
Proof.
  induction 1 as [|c t Hc _ IH]; [reflexivity|].
  rewrite (GetSubstitution_other _ _ _ _ _ Hc), IH. reflexivity.
Qed.

Lemma replace_no_dollar (pat replacement s : jsstring) :
  Forall (fun c => c <> 36%N) replacement ->
  replace pat replacement s = substitute_verbatim pat replacement s.
Proof.
  intros H. unfold replace, substitute_verbatim.
  destruct (split_first pat s) as [[before after]|]; [|reflexivity].
  rewrite (GetSubstitution_no_dollar _ _ _ _ H). reflexivity.
Qed.

(** With no dollar in the question content and in the hint instructions,
    each of the three substitutions puts its text in as it is, at the first
    occurrence of its token.  They are made one after the other, so a token
    that the question content brings in is substituted by the next one. *)
Lemma POST_verbatim_without_dollar (req : GenRequest) :
  truthy_ostr (questionText req) = true ->
  Forall (fun c => c <> 36%N) (build_questionContent req) ->
  Forall (fun c => c <> 36%N) (build_hintInstructions req) ->
  POST req = SubmitPrompt (verbatim_prompt req).
Proof.
  intros Hq Hc Hh. unfold POST, verbatim_prompt. rewrite Hq. simpl.
  rewrite !(replace_no_dollar _ _ _ Hh), (replace_no_dollar _ _ _ Hc).
  destruct (truthy_ostr (customPrompt req)); reflexivity.
Qed.

(** The legacy token gets the hint instructions like the current one. *)
Lemma POST_legacy_token :
  POST {| questionText := Some (js "Which one?");
          passageText := None;
          reqOptions := None;
          type := Some (js "hint");
          previousHints := Some [js "Think."];
          customPrompt := Some (js "{{QUESTION_CONTENT}}{{PREVIOUS_HINTS}}") |}
  = POST {| questionText := Some (js "Which one?");
            passageText := None;
            reqOptions := None;
            type := Some (js "hint");
            previousHints := Some [js "Think."];
            customPrompt := Some (js "{{QUESTION_CONTENT}}{{HINT_INSTRUCTIONS}}") |}.
Proof. vm_compute. reflexivity. Qed.

(** C9, where the code parts from it.  The tokens are replaced with
    [String.prototype.replace], which reads the dollar forms of its second
    argument; so a question content with display mathematics between double
    dollars does not reach the prompt verbatim: each [$$] arrives as one
    [$].  For the first hint on the question "Simplify $$x^2$$." the prompt
    submitted is the one that verbatim substitution gives for
    "Simplify $x^2$.", and not the one it gives for the question. *)
Theorem POST_dollar_content :
  POST (first_hint_request (js "Simplify $$x^2$$."))
  = SubmitPrompt (verbatim_prompt (first_hint_request (js "Simplify $x^2$.")))
  /\ str_eq (prompt_of (POST (first_hint_request (js "Simplify $$x^2$$."))))
            (verbatim_prompt (first_hint_request (js "Simplify $$x^2$$.")))
     = false.
Proof. split; vm_compute; reflexivity. Qed.

(** * More properties *)

(** ** One event, one question *)

Lemma num_or_zero_default (o : option Z) : num_or_zero o = default 0 o.
Proof. destruct o as [n|]; [apply num_or_zero_Some|reflexivity]. Qed.

Lemma truthy_obool_default (o : option bool) : truthy_obool o = default false o.
Proof. destruct o; reflexivity. Qed.

Lemma handle_QStep (st : Page) (e : Event) (k : jsstring) :
  is_reset e = false ->
  QStep (questionStates st !! k) (questionStates (handle st e) !! k).
Proof.
  intros He.
  destruct e as [k0 letter|k0 problem| |k0 problem|k0 r|k0 problem|k0 r| | |s|s];
    simpl in *; try discriminate; try apply QStep_same.
  - (* selectAnswer *)
    unfold selectAnswer.
    destruct (testSubmitted st
              || truthy_obool (submitted <$> questionStates st !! k0)) eqn:Hg;
      [apply QStep_same|].
    apply orb_false_iff in Hg as [_ Hg]. simpl.
    destruct (decide (k0 = k)) as [<-|Hne].
    + rewrite lookup_insert_eq, num_or_zero_default.
      apply QStep_select. rewrite <- truthy_obool_default. exact Hg.
    + rewrite lookup_insert_ne by exact Hne. apply QStep_same.
  - (* submitQuestion *)
    unfold submitQuestion.
    destruct (questionStates st !! k0) as [state|] eqn:Hk; [|apply QStep_same].
    destruct (negb (truthy_ostr (selectedAnswer state)) || submitted state) eqn:Hg;
      [apply QStep_same|].
    apply orb_false_iff in Hg as [Hsel Hsub].
    apply negb_false_iff, truthy_ostr_true in Hsel as (a & Ha & Hne).
    cbn [questionStates setQuestionStates]. rewrite num_or_zero_Some, Ha.
    destruct (decide (k0 = k)) as [<-|Hne'].
    + rewrite lookup_insert_eq, Hk.
      apply (QStep_submit state a (ostr_eq (Some a) (getCorrectAnswer problem)));
        assumption.
    + rewrite lookup_insert_ne by exact Hne'. apply QStep_same.
  - (* a hint request settles *)
    destruct r; simpl; try apply QStep_same.
    destruct (decide (k0 = k)) as [<-|Hne].
    + rewrite lookup_insert_eq, !num_or_zero_default.
      unfold bool_or_false. rewrite truthy_obool_default. apply QStep_hint.
    + rewrite lookup_insert_ne by exact Hne. apply QStep_same.
  - (* a solution request settles *)
    destruct r; apply QStep_same.
Qed.

Lemma handle_frame (st : Page) (e : Event) :
  (forall k k', event_key e = Some k -> k' <> k ->
     questionStates (handle st e) !! k' = questionStates st !! k'
     /\ solutions (handle st e) !! k' = solutions st !! k')
  /\ (event_key e = None -> is_reset e = false ->
      questionStates (handle st e) = questionStates st
      /\ solutions (handle st e) = solutions st).
Proof.
  split.
  - intros k k' Hk Hne.
    destruct e as [k0 letter|k0 problem| |k0 problem|k0 r|k0 problem|k0 r| | |s|s];
      simpl in Hk; try discriminate; injection Hk as ->; simpl.
    + unfold selectAnswer.
      destruct (testSubmitted st || _); [split; reflexivity|]. simpl.
      split; [apply lookup_insert_ne; congruence|reflexivity].
    + unfold submitQuestion.
      destruct (questionStates st !! k) as [state|]; [|split; reflexivity].
      destruct (negb _ || _); [split; reflexivity|]. simpl.
      split; [apply lookup_insert_ne; congruence|reflexivity].
    + split; [reflexivity|apply lookup_insert_ne; congruence].
    + destruct r; simpl; split;
        try reflexivity; apply lookup_insert_ne; congruence.
    + split; [reflexivity|apply lookup_insert_ne; congruence].
    + destruct r; simpl; split;
        try reflexivity; apply lookup_insert_ne; congruence.
  - intros Hk Hr.
    destruct e; simpl in Hk, Hr; try discriminate; split; reflexivity.
Qed.

(** X6.  An event about one question leaves every other question alone, in
    the question states and in the hint and solution states alike; an event
    about no question, the reset apart, leaves both maps as they are. *)
Theorem handle_isolation (st : Page) (e : Event) :
  (forall k k', event_key e = Some k -> k' <> k ->
     questionStates (handle st e) !! k' = questionStates st !! k'
     /\ solutions (handle st e) !! k' = solutions st !! k')
  /\ (event_key e = None -> is_reset e = false ->
      questionStates (handle st e) = questionStates st
      /\ solutions (handle st e) = solutions st).
Proof. exact (handle_frame st e). Qed.

Lemma handle_isolation_witness :
  event_key (HintSettled (js "0-0") (ResponseOk (js "Try x = 1."))) = Some (js "0-0")
  /\ js "0-1" <> js "0-0"
  /\ questionStates (handle example_page (HintSettled (js "0-0") (ResponseOk (js "Try x = 1."))))
       !! js "0-1"
     = questionStates example_page !! js "0-1"
  /\ solutions (handle example_page SubmitTest) = solutions example_page.
Proof.
  assert (Hne : js "0-1" <> js "0-0") by discriminate.
  split; [reflexivity|]. split; [exact Hne|]. split.
  - exact (proj1 (proj1 (handle_isolation example_page
                           (HintSettled (js "0-0") (ResponseOk (js "Try x = 1."))))
                    (js "0-0") (js "0-1") eq_refl Hne)).
  - exact (proj2 (proj2 (handle_isolation example_page SubmitTest) eq_refl eq_refl)).
Defined.

(** ** The aggregates, question by question *)

Lemma calculateTotalScore_ext (st st' : Page) :
  questionStates st = questionStates st' ->
  calculateTotalScore st = calculateTotalScore st'.
Proof. intros H. unfold calculateTotalScore, values. rewrite H. reflexivity. Qed.

Lemma countAnsweredQuestions_ext (st st' : Page) :
  questionStates st = questionStates st' ->
  countAnsweredQuestions st = countAnsweredQuestions st'.
Proof. intros H. unfold countAnsweredQuestions, values. rewrite H. reflexivity. Qed.

Lemma calculateTotalScore_split (k : jsstring) (st : Page) :
  calculateTotalScore st
  = contribution_at k st
    + calculateTotalScore (setQuestionStates (fun prev => delete k prev) st).
Proof.
  unfold contribution_at.
  destruct (questionStates st !! k) as [state|] eqn:Hk; simpl.
  - rewrite !calculateTotalScore_sum, (values_delete _ _ _ Hk). csimpl. lia.
  - rewrite (calculateTotalScore_ext
               (setQuestionStates (fun prev => delete k prev) st) st); [lia|].
    simpl. apply delete_id, Hk.
Qed.

Lemma countAnsweredQuestions_split (k : jsstring) (st : Page) :
  countAnsweredQuestions st
  = (counted_at k st
     + countAnsweredQuestions (setQuestionStates (fun prev => delete k prev) st))%nat.
Proof.
  unfold counted_at.
  destruct (questionStates st !! k) as [state|] eqn:Hk; simpl.
  - unfold countAnsweredQuestions at 1.
    rewrite (filter_length_perm _ _ _ (values_delete _ _ _ Hk)). simpl.
    destruct (submitted state); reflexivity.
  - apply countAnsweredQuestions_ext. simpl. symmetry. apply delete_id, Hk.
Qed.

(** Two pages that differ at one key at most have the same aggregates up to
    what that key adds. *)
Lemma aggregates_one_key (k : jsstring) (st st' : Page) :
  (forall k', k' <> k -> questionStates st' !! k' = questionStates st !! k') ->
  calculateTotalScore st' - contribution_at k st'
  = calculateTotalScore st - contribution_at k st
  /\ (countAnsweredQuestions st' + counted_at k st
      = countAnsweredQuestions st + counted_at k st')%nat.
Proof.
  intros Hother.
  assert (Hdel : delete k (questionStates st') = delete k (questionStates st)).
  { apply map_eq. intros k'. destruct (decide (k = k')) as [<-|Hne].
    - rewrite !lookup_delete_eq. reflexivity.
    - rewrite !lookup_delete_ne by exact Hne. apply Hother. congruence. }
  rewrite (calculateTotalScore_split k st'), (calculateTotalScore_split k st).
  rewrite (countAnsweredQuestions_split k st'), (countAnsweredQuestions_split k st).
  rewrite (calculateTotalScore_ext (setQuestionStates (fun prev => delete k prev) st')
             (setQuestionStates (fun prev => delete k prev) st)) by exact Hdel.
  rewrite (countAnsweredQuestions_ext (setQuestionStates (fun prev => delete k prev) st')
             (setQuestionStates (fun prev => delete k prev) st)) by exact Hdel.
  split; lia.
Qed.

Lemma QStep_contribution (old new : option QuestionState) :
  QStep old new ->
  default 0 (contribution <$> old) <= default 0 (contribution <$> new)
  /\ (default false (submitted <$> old) = true ->
      default false (submitted <$> new) = true)
  /\ (default false (submitted <$> new) = default false (submitted <$> old) ->
      default 0 (contribution <$> new) = default 0 (contribution <$> old)).
Proof.
  intros H. destruct H as [old|old letter Hsub|state a correct Ha Hne Hsub|old].
  - repeat split; auto; lia.
  - destruct old as [state|]; simpl in *; unfold contribution; simpl.
    + rewrite Hsub. repeat split; try lia; congruence.
    + repeat split; try lia; congruence.
  - simpl. unfold contribution. simpl. rewrite Hsub.
    repeat split; try congruence. destruct correct; lia.
  - destruct old as [state|]; simpl; unfold contribution; simpl;
      repeat split; auto; lia.
Qed.

Lemma handle_submitted_flag (st : Page) (e : Event) (k : jsstring) :
  is_reset e = false -> is_submit e = false ->
  default false (submitted <$> questionStates (handle st e) !! k)
  = default false (submitted <$> questionStates st !! k).
Proof.
  intros Hr Hs.
  destruct e as [k0 letter|k0 problem| |k0 problem|k0 r|k0 problem|k0 r| | |s|s];
    simpl in *; try discriminate; try reflexivity.
  - unfold selectAnswer.
    destruct (testSubmitted st
              || truthy_obool (submitted <$> questionStates st !! k0)) eqn:Hg;
      [reflexivity|].
    apply orb_false_iff in Hg as [_ Hg]. simpl.
    destruct (decide (k0 = k)) as [<-|Hne].
    + rewrite lookup_insert_eq. simpl. rewrite <- truthy_obool_default. symmetry. exact Hg.
    + rewrite lookup_insert_ne by exact Hne. reflexivity.
  - destruct r; simpl; try reflexivity.
    destruct (decide (k0 = k)) as [<-|Hne].
    + rewrite lookup_insert_eq. simpl. apply truthy_obool_default.
    + rewrite lookup_insert_ne by exact Hne. reflexivity.
  - destruct r; reflexivity.
Qed.

Lemma aggregates_handle (st : Page) (e : Event) :
  is_reset e = false ->
  calculateTotalScore st <= calculateTotalScore (handle st e)
  /\ (countAnsweredQuestions st <= countAnsweredQuestions (handle st e))%nat
  /\ (is_submit e = false ->
      calculateTotalScore (handle st e) = calculateTotalScore st
      /\ countAnsweredQuestions (handle st e) = countAnsweredQuestions st).
Proof.
  intros Hr. destruct (event_key e) as [k|] eqn:Hk.
  - destruct (aggregates_one_key k st (handle st e)) as [Ht Hc].
    { intros k' Hne. apply (proj1 (handle_frame st e) k k' Hk Hne). }
    destruct (QStep_contribution _ _ (handle_QStep st e k Hr)) as (Hle & Hmono & Heq).
    unfold contribution_at, counted_at in *.
    split; [lia|]. split.
    + destruct (default false (submitted <$> questionStates st !! k)) eqn:Hold.
      * rewrite (Hmono eq_refl) in Hc. lia.
      * destruct (default false (submitted <$> questionStates (handle st e) !! k)); lia.
    + intros Hs. pose proof (handle_submitted_flag st e k Hr Hs) as Hflag.
      rewrite Hflag in Hc. rewrite (Heq Hflag) in Ht. split; lia.
  - destruct (proj2 (handle_frame st e) Hk Hr) as [Hq _].
    rewrite (calculateTotalScore_ext _ _ Hq), (countAnsweredQuestions_ext _ _ Hq).
    repeat split; lia.
Qed.

(** X1.  No event but the reset lowers the total score or the number of
    answered questions, and no event but a submission of a question (and the
    reset) changes them at all: selecting an answer, asking for hints or
    solutions, their arrival, and submitting the test leave both as they
    are. *)
Theorem aggregates_step (st : Page) (e : Event) :
  is_reset e = false ->
  calculateTotalScore st <= calculateTotalScore (handle st e)
  /\ (countAnsweredQuestions st <= countAnsweredQuestions (handle st e))%nat
  /\ (is_submit e = false ->
      calculateTotalScore (handle st e) = calculateTotalScore st
      /\ countAnsweredQuestions (handle st e) = countAnsweredQuestions st).
Proof. exact (aggregates_handle st e). Qed.

Lemma aggregates_step_witness :
  is_reset (SelectAnswer (js "0-2") (js "D")) = false
  /\ is_submit (SelectAnswer (js "0-2") (js "D")) = false
  /\ calculateTotalScore (handle example_page (SelectAnswer (js "0-2") (js "D"))) = 3
  /\ calculateTotalScore example_page
     <= calculateTotalScore
          (handle example_page (SubmitQuestion (js "0-2") answer_one)).
Proof.
  split; [reflexivity|]. split; [reflexivity|]. split.
  - rewrite (proj1 (proj2 (proj2 (aggregates_step example_page
                                    (SelectAnswer (js "0-2") (js "D")) eq_refl)) eq_refl)).
    vm_compute. reflexivity.
  - exact (proj1 (aggregates_step example_page
                    (SubmitQuestion (js "0-2") answer_one) eq_refl)).
Defined.

Lemma submitQuestion_totals (problemKey : jsstring) (problem : Problem) (st : Page)
    (state : QuestionState) (a : jsstring) :
  questionStates st !! problemKey = Some state ->
  selectedAnswer state = Some a -> a <> [] -> submitted state = false ->
  calculateTotalScore (submitQuestion problemKey problem st)
  = calculateTotalScore st
    + (if bool_decide (a = getCorrectAnswer problem)
       then Z.max 0 (4 - hintsUsed state) else 0)
  /\ countAnsweredQuestions (submitQuestion problemKey problem st)
     = S (countAnsweredQuestions st).
Proof.
  intros Hk Ha Hne Hsub.
  destruct (aggregates_one_key problemKey st (submitQuestion problemKey problem st))
    as [Ht Hc].
  { intros k' Hne'.
    apply (proj1 (handle_frame st (SubmitQuestion problemKey problem))
             problemKey k' eq_refl Hne'). }
  unfold contribution_at, counted_at in *.
  rewrite (submitQuestion_effective _ _ _ _ _ Hk Ha Hne Hsub) in *.
  cbn [questionStates setQuestionStates] in *.
  rewrite lookup_insert_eq, Hk in *. simpl in *.
  unfold contribution in Ht. simpl in Ht. rewrite Hsub in *.
  split; lia.
Qed.

(** X2.  A submission that takes effect adds to the total exactly the score
    it awards, [max(0, 4 - hintsUsed)] for the correct letter and 0 for
    another, and adds one to the number of answered questions. *)
Theorem submitQuestion_adds (problemKey : jsstring) (problem : Problem) (st : Page)
    (state : QuestionState) (a : jsstring) :
  questionStates st !! problemKey = Some state ->
  selectedAnswer state = Some a -> a <> [] -> submitted state = false ->
  calculateTotalScore (submitQuestion problemKey problem st)
  = calculateTotalScore st
    + (if bool_decide (a = getCorrectAnswer problem)
       then Z.max 0 (4 - hintsUsed state) else 0)
  /\ countAnsweredQuestions (submitQuestion problemKey problem st)
     = S (countAnsweredQuestions st).
Proof. exact (submitQuestion_totals problemKey problem st state a). Qed.

Lemma submitQuestion_adds_witness :
  calculateTotalScore (submitQuestion (js "0-2") (problem_with (AnsValue (VString (js "c"))))
                         example_page) = 7
  /\ countAnsweredQuestions
       (submitQuestion (js "0-2") (problem_with (AnsValue (VString (js "c")))) example_page)
     = 3%nat.
Proof.
  destruct (submitQuestion_adds (js "0-2") (problem_with (AnsValue (VString (js "c"))))
              example_page
              {| selectedAnswer := Some (js "C"); submitted := false;
                 hintsUsed := 0; score := 0; isCorrect := None |}
              (js "C"))
    as [Ht Hc].
  - vm_compute. reflexivity.
  - reflexivity.
  - discriminate.
  - reflexivity.
  - split.
    + rewrite Ht. vm_compute. reflexivity.
    + rewrite Hc. vm_compute. reflexivity.
Defined.

(** ** What stays once a question is submitted *)

Lemma QStep_frozen (old new : option QuestionState) (state : QuestionState) :
  QStep old new -> old = Some state -> submitted state = true ->
  exists state',
    new = Some state'
    /\ selectedAnswer state' = selectedAnswer state
    /\ submitted state' = true
    /\ score state' = score state
    /\ isCorrect state' = isCorrect state
    /\ hintsUsed state <= hintsUsed state'.
Proof.
  intros H Hold Hsub.
  destruct H as [old|old letter Hsub'|state0 a correct Ha Hne Hsub'|old]; subst.
  - exists state. repeat split; auto; lia.
  - simpl in Hsub'. congruence.
  - injection Hold as ->. congruence.
  - eexists. split; [reflexivity|]. simpl. repeat split; auto; lia.
Qed.

(** X3.  Submission of a question is final: through any sequence of events
    without a reset, a submitted question stays submitted with the letter,
    the verdict and the score it was submitted with; only its hint counter
    can still go up, when a hint asked for earlier arrives. *)
Theorem verdict_frozen (events : list Event) (st : Page) (k : jsstring)
    (state : QuestionState) :
  Forall (fun e => is_reset e = false) events ->
  questionStates st !! k = Some state -> submitted state = true ->
  exists state',
    questionStates (run events st) !! k = Some state'
    /\ selectedAnswer state' = selectedAnswer state
    /\ submitted state' = true
    /\ score state' = score state
    /\ isCorrect state' = isCorrect state
    /\ hintsUsed state <= hintsUsed state'.
Proof.
  intros Hev. revert st state.
  induction Hev as [|e events He _ IH]; intros st state Hk Hsub.
  - exists state. repeat split; auto; lia.
  - destruct (QStep_frozen _ _ state (handle_QStep st e k He) Hk Hsub)
      as (s1 & Hk1 & Hsel1 & Hsub1 & Hscore1 & Hc1 & Hh1).
    destruct (IH (handle st e) s1 Hk1 Hsub1)
      as (s2 & Hk2 & Hsel2 & Hsub2 & Hscore2 & Hc2 & Hh2).
    exists s2. simpl. split; [exact Hk2|].
    repeat split; try congruence; lia.
Qed.

Lemma verdict_frozen_witness :
  exists state',
    questionStates
      (run [HintSettled (js "0-0") (ResponseOk (js "Try x = 1."));
            SelectAnswer (js "0-0") (js "D");
            SubmitQuestion (js "0-0") (problem_with (AnsValue (VString (js "D"))));
            SubmitTest] example_page) !! js "0-0" = Some state'
    /\ selectedAnswer state' = Some (js "A")
    /\ score state' = 3
    /\ isCorrect state' = Some true.
Proof.
  destruct (verdict_frozen
              [HintSettled (js "0-0") (ResponseOk (js "Try x = 1."));
               SelectAnswer (js "0-0") (js "D");
               SubmitQuestion (js "0-0") (problem_with (AnsValue (VString (js "D"))));
               SubmitTest]
              example_page (js "0-0")
              {| selectedAnswer := Some (js "A"); submitted := true;
                 hintsUsed := 1; score := 3; isCorrect := Some true |})
    as (state' & Hk & Hsel & _ & Hscore & Hc & _).
  - repeat constructor.
  - vm_compute. reflexivity.
  - reflexivity.
  - exists state'. split; [exact Hk|]. split; [exact Hsel|]. split; [exact Hscore|exact Hc].
Defined.

(** ** Invariants of the pages that can be reached *)

Lemma reachable_ind (P : Page -> Prop) :
  P initial_page ->
  (forall st e, P st -> P (handle st e)) ->
  forall st, reachable st -> P st.
Proof.
  intros H0 Hstep st (events & ->).
  unfold run. generalize initial_page H0.
  induction events as [|e events IH]; intros st0 Hst0; simpl.
  - exact Hst0.
  - apply IH, Hstep, Hst0.
Qed.

Lemma QStep_bounds (old new : option QuestionState) :
  QStep old new ->
  (forall s, old = Some s -> 0 <= hintsUsed s /\ 0 <= score s <= 4) ->
  forall s', new = Some s' -> 0 <= hintsUsed s' /\ 0 <= score s' <= 4.
Proof.
  intros H Hold s' Hnew.
  destruct H as [old|old letter Hsub|state a correct Ha Hne Hsub|old].
  - apply Hold, Hnew.
  - injection Hnew as <-. simpl.
    destruct old as [s|]; simpl; [|lia]. destruct (Hold s eq_refl). lia.
  - injection Hnew as <-. simpl. destruct (Hold state eq_refl).
    destruct correct; lia.
  - injection Hnew as <-. simpl.
    destruct old as [s|]; simpl; [|lia]. destruct (Hold s eq_refl). lia.
Qed.

Lemma scores_bounded_handle (st : Page) (e : Event) :
  scores_bounded st -> scores_bounded (handle st e).
Proof.
  intros Hinv k s' Hk'.
  destruct (is_reset e) eqn:Hr.
  - destruct e; discriminate.
  - apply (QStep_bounds _ _ (handle_QStep st e k Hr)); [|exact Hk'].
    intros s Hs. apply (Hinv k s Hs).
Qed.

Lemma values_lookup (st : Page) (s : QuestionState) :
  s ∈ values st -> exists k, questionStates st !! k = Some s.
Proof.
  unfold values. intros H. apply list_elem_of_fmap in H as ([k s0] & -> & Hin).
  exists k. apply elem_of_map_to_list in Hin. exact Hin.
Qed.

Lemma bounded_sum (l : list QuestionState) :
  Forall (fun s => 0 <= score s <= 4) l ->
  0 <= Zsum (contribution <$> l)
  <= 4 * Z.of_nat (length (List.filter (fun s => submitted s) l)).
Proof.
  induction 1 as [|s l Hs _ IH]; csimpl; [lia|].
  unfold contribution at 1 3. destruct (submitted s); simpl length; lia.
Qed.

(** X4.  On every page that can be reached, every question has a hint
    counter that is not negative and a score between 0 and 4, and the total
    score lies between 0 and four times the number of answered questions. *)
Theorem reachable_scores_bounded (st : Page) :
  reachable st ->
  scores_bounded st
  /\ 0 <= calculateTotalScore st <= 4 * Z.of_nat (countAnsweredQuestions st).
Proof.
  intros Hr.
  assert (Hb : scores_bounded st).
  { revert st Hr. apply reachable_ind.
    - intros k s Hk. rewrite questionStates_initial_page, lookup_empty in Hk. discriminate.
    - intros st e. apply scores_bounded_handle. }
  split; [exact Hb|].
  rewrite calculateTotalScore_sum. unfold countAnsweredQuestions.
  apply bounded_sum. apply Forall_forall. intros s Hs.
  destruct (values_lookup _ _ Hs) as (k & Hk). apply (Hb k s Hk).
Qed.

Lemma reachable_scores_bounded_witness :
  reachable (run (PromptsFetched :: example_events) initial_page)
  /\ calculateTotalScore (run (PromptsFetched :: example_events) initial_page)
     <= 4 * Z.of_nat (countAnsweredQuestions
                        (run (PromptsFetched :: example_events) initial_page)).
Proof.
  assert (Hr : reachable (run (PromptsFetched :: example_events) initial_page))
    by (eexists; reflexivity).
  split; [exact Hr|].
  exact (proj2 (proj2 (reachable_scores_bounded _ Hr))).
Defined.

Lemma QStep_judged (old new : option QuestionState) :
  QStep old new ->
  (forall s, old = Some s -> submitted s = true ->
     exists a correct, selectedAnswer s = Some a /\ a <> []
       /\ isCorrect s = Some correct /\ (correct = false -> score s = 0)) ->
  forall s', new = Some s' -> submitted s' = true ->
    exists a correct, selectedAnswer s' = Some a /\ a <> []
      /\ isCorrect s' = Some correct /\ (correct = false -> score s' = 0).
Proof.
  intros H Hold s' Hnew Hsub'.
  destruct H as [old|old letter Hsub|state a correct Ha Hne Hsub|old].
  - apply Hold; assumption.
  - injection Hnew as <-. discriminate Hsub'.
  - injection Hnew as <-. exists a, correct. simpl.
    repeat split; auto. intros ->. reflexivity.
  - injection Hnew as <-. simpl in *.
    destruct old as [s|]; simpl in *; [|discriminate].
    apply (Hold s eq_refl Hsub').
Qed.

(** X5.  On every page that can be reached, a submitted question has a
    selected letter that is not empty and a verdict, and an incorrect one
    has score 0. *)
Theorem reachable_submitted_judged (st : Page) :
  reachable st -> submitted_judged st.
Proof.
  revert st. apply reachable_ind.
  - intros k s Hk. rewrite questionStates_initial_page, lookup_empty in Hk. discriminate.
  - intros st e Hinv k s' Hk' Hsub'.
    destruct (is_reset e) eqn:Hr.
    + destruct e; discriminate.
    + apply (QStep_judged _ _ (handle_QStep st e k Hr)); [|exact Hk'|exact Hsub'].
      intros s Hs. apply (Hinv k s Hs).
Qed.

Lemma reachable_submitted_judged_witness :
  reachable (run (PromptsFetched :: example_events) initial_page)
  /\ exists state a correct,
       questionStates (run (PromptsFetched :: example_events) initial_page) !! js "0-1"
       = Some state
       /\ submitted state = true
       /\ selectedAnswer state = Some a /\ a <> []
       /\ isCorrect state = Some correct.
Proof.
  assert (Hr : reachable (run (PromptsFetched :: example_events) initial_page))
    by (eexists; reflexivity).
  split; [exact Hr|].
  assert (Hk : questionStates (run (PromptsFetched :: example_events) initial_page)
                 !! js "0-1"
               = Some {| selectedAnswer := Some (js "B"); submitted := true;
                         hintsUsed := 0; score := 0; isCorrect := Some false |})
    by (vm_compute; reflexivity).
  destruct (reachable_submitted_judged _ Hr (js "0-1") _ Hk eq_refl)
    as (a & correct & Ha & Hne & Hc & _).
  eexists _, a, correct. split; [exact Hk|]. split; [reflexivity|].
  split; [exact Ha|]. split; [exact Hne|exact Hc].
Defined.

(** ** The hint counter and the hints shown *)

Lemma hint_counters_ext (k : jsstring) (st st' : Page) :
  questionStates st' !! k = questionStates st !! k ->
  solutions st' !! k = solutions st !! k ->
  hintsUsed_of k st' = hintsUsed_of k st /\ hints_of k st' = hints_of k st.
Proof.
  intros Hq Hs. unfold hintsUsed_of, hints_of, field. rewrite Hq, Hs. split; reflexivity.
Qed.

(** Under any event but the reset, the hint counter of a question and its
    list of hints move together: both stay, or the counter goes up by one
    and one hint is added at the end. *)
Lemma handle_hint_counters (st : Page) (e : Event) (k : jsstring) :
  is_reset e = false ->
  (hintsUsed_of k (handle st e) = hintsUsed_of k st
   /\ hints_of k (handle st e) = hints_of k st)
  \/ (exists h, hintsUsed_of k (handle st e) = hintsUsed_of k st + 1
                /\ hints_of k (handle st e) = hints_of k st ++ [h]).
Proof.
  intros Hr. destruct (event_key e) as [k0|] eqn:Hk.
  2:{ left. destruct (proj2 (handle_frame st e) Hk Hr) as [Hq Hs].
      apply hint_counters_ext; congruence. }
  destruct (decide (k = k0)) as [->|Hne].
  2:{ left. destruct (proj1 (handle_frame st e) k0 k Hk Hne) as [Hq Hs].
      apply hint_counters_ext; assumption. }
  destruct e as [k1 letter|k1 problem| |k1 problem|k1 r|k1 problem|k1 r| | |s|s];
    simpl in Hk; try discriminate; injection Hk as ->; simpl.
  - left. unfold selectAnswer. destruct (testSubmitted st || _); [split; reflexivity|].
    unfold hintsUsed_of, hints_of. cbn -[num_or_zero].
    rewrite lookup_insert_eq. cbn -[num_or_zero]. rewrite num_or_zero_Some.
    split; reflexivity.
  - left. unfold submitQuestion.
    destruct (questionStates st !! k0) as [state|] eqn:Hk0; [|split; reflexivity].
    destruct (negb _ || _); [split; reflexivity|].
    unfold hintsUsed_of, hints_of. cbn -[num_or_zero].
    rewrite lookup_insert_eq, Hk0. split; reflexivity.
  - left. unfold hintsUsed_of, hints_of. cbn -[num_or_zero].
    rewrite field_insert_eq. split; reflexivity.
  - destruct r as [h|err|msg]; [right; exists h|left|left];
      unfold hintsUsed_of, hints_of; cbn -[num_or_zero];
      rewrite ?field_insert_eq, ?lookup_insert_eq; cbn -[num_or_zero];
      rewrite ?num_or_zero_Some; split; reflexivity.
  - left. unfold hintsUsed_of, hints_of. cbn -[num_or_zero].
    rewrite field_insert_eq. split; reflexivity.
  - left. destruct r; unfold hintsUsed_of, hints_of; cbn -[num_or_zero];
      rewrite field_insert_eq; split; reflexivity.
Qed.

(** X7.  On every page that can be reached, the hint counter of each
    question, which is what the score is reduced by, is the number of hints
    shown for it. *)
Theorem reachable_hints_counted (st : Page) :
  reachable st -> hints_counted st.
Proof.
  revert st. apply reachable_ind.
  - intros k. reflexivity.
  - intros st e Hinv k. destruct (is_reset e) eqn:Hr.
    + destruct e; try discriminate. reflexivity.
    + destruct (handle_hint_counters st e k Hr) as [[Hu Hh]|(h & Hu & Hh)];
        rewrite Hu, Hh, (Hinv k); [reflexivity|].
      rewrite length_app. simpl. lia.
Qed.

Lemma reachable_hints_counted_witness :
  reachable (run (PromptsFetched :: example_events) initial_page)
  /\ hintsUsed_of (js "0-0") (run (PromptsFetched :: example_events) initial_page)
     = Z.of_nat (length (hints_of (js "0-0")
                           (run (PromptsFetched :: example_events) initial_page))).
Proof.
  assert (Hr : reachable (run (PromptsFetched :: example_events) initial_page))
    by (eexists; reflexivity).
  split; [exact Hr|]. exact (reachable_hints_counted _ Hr (js "0-0")).
Defined.

(** X8.  A hint that arrives after the test was reset is not dropped: on
    the page just reset its question gets it as the only hint, with a hint
    counter of 1, so that the correct letter, selected and submitted for the
    question under that key, scores 3 and not 4. *)
Theorem stale_hint_after_reset (st : Page) (k hint letter : jsstring) (problem : Problem) :
  letter <> [] -> letter = getCorrectAnswer problem ->
  let st' := generateHint_settled k (ResponseOk hint) (resetTest st) in
  hints_of k st' = [hint]
  /\ hintsUsed_of k st' = 1
  /\ calculateTotalScore (submitQuestion k problem (selectAnswer k letter st')) = 3.
Proof.
  intros Hne Hletter st'.
  assert (Hh : hints_of k st' = [hint]).
  { unfold st', hints_of, field. simpl. rewrite lookup_insert_eq. reflexivity. }
  assert (Hu : hintsUsed_of k st' = 1).
  { unfold st', hintsUsed_of. simpl. rewrite lookup_insert_eq. reflexivity. }
  split; [exact Hh|]. split; [exact Hu|].
  assert (Hk : questionStates st' !! k
               = Some {| selectedAnswer := None; submitted := false; hintsUsed := 1;
                         score := 0; isCorrect := None |}).
  { unfold st'. simpl. rewrite lookup_insert_eq. reflexivity. }
  assert (Hsel : selectAnswer k letter st'
                 = setQuestionStates (fun prev =>
                     <[k := {| selectedAnswer := Some letter; submitted := false;
                               hintsUsed := 1; score := 0; isCorrect := None |}]> prev) st').
  { rewrite selectAnswer_open.
    - unfold setQuestionStates. rewrite Hk. reflexivity.
    - reflexivity.
    - intros s Hs. rewrite Hk in Hs. injection Hs as <-. reflexivity. }
  destruct (submitQuestion_totals k problem (selectAnswer k letter st')
              {| selectedAnswer := Some letter; submitted := false;
                 hintsUsed := 1; score := 0; isCorrect := None |} letter)
    as [Ht _]; try reflexivity; try assumption.
  { rewrite Hsel. simpl. apply lookup_insert_eq. }
  rewrite Ht. rewrite bool_decide_true by exact Hletter. simpl.
  pose proof (proj1 (proj2 (proj2 (aggregates_handle st' (SelectAnswer k letter) eq_refl))
                      eq_refl)) as H1.
  change (handle st' (SelectAnswer k letter)) with (selectAnswer k letter st') in H1.
  pose proof (proj1 (proj2 (proj2 (aggregates_handle (resetTest st)
                                     (HintSettled k (ResponseOk hint)) eq_refl))
                      eq_refl)) as H2.
  change (handle (resetTest st) (HintSettled k (ResponseOk hint))) with st' in H2.
  rewrite H1, H2. reflexivity.
Qed.

Lemma stale_hint_after_reset_witness :
  js "A" <> []
  /\ js "A" = getCorrectAnswer answer_one
  /\ calculateTotalScore
       (submitQuestion (js "0-0") answer_one
          (selectAnswer (js "0-0") (js "A")
             (generateHint_settled (js "0-0") (ResponseOk (js "Try x = 1."))
                (resetTest example_page)))) = 3.
Proof.
  assert (Hne : js "A" <> []) by discriminate.
  assert (Hc : js "A" = getCorrectAnswer answer_one) by (vm_compute; reflexivity).
  split; [exact Hne|]. split; [exact Hc|].
  exact (proj2 (proj2 (stale_hint_after_reset example_page (js "0-0") (js "Try x = 1.")
                         (js "A") answer_one Hne Hc))).
Defined.

(** ** Through the buttons *)

Lemma field_insert_ne {A} (f : SolutionState -> option A) prev k k' s :
  k <> k' -> field f (<[k := s]> prev) k' = field f prev k'.
Proof. intros Hne. unfold field. rewrite lookup_insert_ne by exact Hne. reflexivity. Qed.

Lemma generateHint_pending (k k' : jsstring) (problem : Problem) (st : Page) :
  truthy_obool (field hintLoading (solutions (generateHint k problem st).1) k')
  = (if decide (k = k') then true
     else truthy_obool (field hintLoading (solutions st) k'))
  /\ truthy_obool (field solutionLoading (solutions (generateHint k problem st).1) k')
     = truthy_obool (field solutionLoading (solutions st) k').
Proof.
  simpl. destruct (decide (k = k')) as [<-|Hne].
  - rewrite !field_insert_eq. simpl. split; [reflexivity|].
    unfold bool_or_false. destruct (field solutionLoading (solutions st) k); reflexivity.
  - rewrite !field_insert_ne by exact Hne. split; reflexivity.
Qed.

Lemma generateHint_settled_pending (k k' : jsstring) (r : FetchResult) (st : Page) :
  truthy_obool (field hintLoading (solutions (generateHint_settled k r st)) k')
  = (if decide (k = k') then false
     else truthy_obool (field hintLoading (solutions st) k'))
  /\ truthy_obool (field solutionLoading (solutions (generateHint_settled k r st)) k')
     = truthy_obool (field solutionLoading (solutions st) k').
Proof.
  destruct r; simpl; (destruct (decide (k = k')) as [<-|Hne];
    [rewrite !field_insert_eq|rewrite !field_insert_ne by exact Hne];
    split; reflexivity).
Qed.

Lemma generateSolution_pending (k k' : jsstring) (problem : Problem) (st : Page) :
  truthy_obool (field solutionLoading (solutions (generateSolution k problem st).1) k')
  = (if decide (k = k') then true
     else truthy_obool (field solutionLoading (solutions st) k'))
  /\ truthy_obool (field hintLoading (solutions (generateSolution k problem st).1) k')
     = truthy_obool (field hintLoading (solutions st) k').
Proof.
  simpl. destruct (decide (k = k')) as [<-|Hne].
  - rewrite !field_insert_eq. simpl. split; [reflexivity|].
    unfold bool_or_false. destruct (field hintLoading (solutions st) k); reflexivity.
  - rewrite !field_insert_ne by exact Hne. split; reflexivity.
Qed.

Lemma generateSolution_settled_pending (k k' : jsstring) (r : FetchResult) (st : Page) :
  truthy_obool (field solutionLoading (solutions (generateSolution_settled k r st)) k')
  = (if decide (k = k') then false
     else truthy_obool (field solutionLoading (solutions st) k'))
  /\ truthy_obool (field hintLoading (solutions (generateSolution_settled k r st)) k')
     = truthy_obool (field hintLoading (solutions st) k').
Proof.
  destruct r; simpl; (destruct (decide (k = k')) as [<-|Hne];
    [rewrite !field_insert_eq|rewrite !field_insert_ne by exact Hne];
    split; reflexivity).
Qed.

Lemma clickOption_solutions k problem optIdx st :
  solutions (clickOption k problem optIdx st) = solutions st.
Proof.
  unfold clickOption. destruct (options problem ≫= _); [|reflexivity].
  destruct (negb _); [|reflexivity].
  unfold selectAnswer. destruct (testSubmitted st || _); reflexivity.
Qed.

Lemma clickSubmitAnswer_solutions k problem st :
  solutions (clickSubmitAnswer k problem st) = solutions st.
Proof.
  unfold clickSubmitAnswer. destruct (_ && _); [|reflexivity].
  unfold submitQuestion. destruct (questionStates st !! k); [|reflexivity].
  destruct (negb _ || _); reflexivity.
Qed.

Lemma elem_of_remove_one (k x : jsstring) (l : list jsstring) :
  NoDup l -> x ∈ remove_one k l <-> x ∈ l /\ x <> k.
Proof.
  induction 1 as [|y l Hy Hnd IH]; simpl.
  - split; [intros H; inversion H|intros [H _]; inversion H].
  - destruct (bool_decide (y = k)) eqn:Hd.
    + apply bool_decide_eq_true in Hd as ->. rewrite elem_of_cons. split.
      * intros Hx. split; [right; exact Hx|]. intros ->. contradiction.
      * intros [[->|Hx] Hne]; [contradiction|exact Hx].
    + apply bool_decide_eq_false in Hd. rewrite !elem_of_cons, IH. split.
      * intros [->|[Hx Hne]]; [split; [left; reflexivity|exact Hd]|split; [right|]; assumption].
      * intros [[->|Hx] Hne]; [left; reflexivity|right; split; assumption].
Qed.

Lemma NoDup_remove_one (k : jsstring) (l : list jsstring) :
  NoDup l -> NoDup (remove_one k l).
Proof.
  induction 1 as [|y l Hy Hnd IH]; simpl; [constructor|].
  destruct (bool_decide (y = k)); [exact Hnd|].
  constructor; [|exact IH].
  rewrite (elem_of_remove_one _ _ _ Hnd). intros [Hin _]. contradiction.
Qed.

Lemma lone_requests_act (s : Session) (a : Action) :
  is_back a = false -> lone_requests s -> lone_requests (act s a).
Proof.
  intros Hb (Hnh & Hns & Hh & Hs). unfold lone_requests, hint_pending, solution_pending in *.
  destruct a as [k p i|k p|k p|k p| | |k r|k r| |t|t]; simpl in *; try discriminate.
  - rewrite clickOption_solutions. auto.
  - rewrite clickSubmitAnswer_solutions. auto.
  - (* the hint button *)
    unfold clickHint.
    destruct (hintButton_rendered k p (page s) && negb (hintButton_disabled k (page s)))
      eqn:Hg; [|simpl; auto].
    apply andb_true_iff in Hg as [_ Hg]. apply negb_true_iff in Hg.
    change (hintButton_disabled k (page s))
      with (truthy_obool (field hintLoading (solutions (page s)) k)) in Hg.
    change (generateHint k p (page s))
      with ((generateHint k p (page s)).1, (generateHint k p (page s)).2).
    cbn [page hintsInFlight solutionsInFlight]. simpl ((generateHint _ _ _).2).
    cbn [fmap list_fmap app].
    split; [|split; [exact Hns|split]].
    + constructor; [|exact Hnh]. intros Hin. rewrite (Hh k Hin) in Hg. discriminate.
    + intros k' Hin. rewrite (proj1 (generateHint_pending k k' p (page s))).
      destruct (decide (k = k')); [reflexivity|].
      apply elem_of_cons in Hin as [->|Hin]; [congruence|]. apply Hh, Hin.
    + intros k' Hin. rewrite (proj2 (generateHint_pending k k' p (page s))).
      apply Hs, Hin.
  - (* the solution button *)
    unfold clickSolution.
    destruct (isQuestionSubmitted k (page s)
              && negb (truthy_obool (field solutionLoading (solutions (page s)) k)))
      eqn:Hg; [|simpl; auto].
    apply andb_true_iff in Hg as [_ Hg]. apply negb_true_iff in Hg.
    change (generateSolution k p (page s))
      with ((generateSolution k p (page s)).1, (generateSolution k p (page s)).2).
    cbn [page hintsInFlight solutionsInFlight]. simpl ((generateSolution _ _ _).2).
    cbn [fmap list_fmap app].
    split; [exact Hnh|split; [|split]].
    + constructor; [|exact Hns]. intros Hin. rewrite (Hs k Hin) in Hg. discriminate.
    + intros k' Hin. rewrite (proj2 (generateSolution_pending k k' p (page s))).
      apply Hh, Hin.
    + intros k' Hin. rewrite (proj1 (generateSolution_pending k k' p (page s))).
      destruct (decide (k = k')); [reflexivity|].
      apply elem_of_cons in Hin as [->|Hin]; [congruence|]. apply Hs, Hin.
  - unfold clickSubmitTest. destruct (testSubmitted (page s)); simpl; auto.
  - (* a hint arrives *)
    destruct (bool_decide (k ∈ hintsInFlight s)); [|auto]. simpl.
    split; [apply NoDup_remove_one, Hnh|split; [exact Hns|split]].
    + intros k' Hin. apply (elem_of_remove_one _ _ _ Hnh) in Hin as [Hin Hne].
      rewrite (proj1 (generateHint_settled_pending k k' r (page s))).
      destruct (decide (k = k')); [congruence|]. apply Hh, Hin.
    + intros k' Hin. rewrite (proj2 (generateHint_settled_pending k k' r (page s))).
      apply Hs, Hin.
  - (* a solution arrives *)
    destruct (bool_decide (k ∈ solutionsInFlight s)); [|auto]. simpl.
    split; [exact Hnh|split; [apply NoDup_remove_one, Hns|split]].
    + intros k' Hin. rewrite (proj2 (generateSolution_settled_pending k k' r (page s))).
      apply Hh, Hin.
    + intros k' Hin. apply (elem_of_remove_one _ _ _ Hns) in Hin as [Hin Hne].
      rewrite (proj1 (generateSolution_settled_pending k k' r (page s))).
      destruct (decide (k = k')); [congruence|]. apply Hs, Hin.
  - auto.
  - auto.
  - auto.
Qed.

(** X9.  Through the buttons, and as long as the test is not reset or left,
    no question ever has two hint requests, or two solution requests, in
    flight at the same time, and every request in flight has its question
    shown as loading. *)
Theorem one_request_per_question (actions : list Action) (s : Session) :
  Forall (fun a => is_back a = false) actions ->
  lone_requests s -> lone_requests (play actions s).
Proof.
  intros Hact. revert s. induction Hact as [|a actions Ha _ IH]; intros s Hs.
  - exact Hs.
  - simpl. apply IH, lone_requests_act; assumption.
Qed.

Lemma lone_requests_initial : lone_requests initial_session.
Proof.
  repeat split; try constructor; intros k Hin; inversion Hin.
Qed.

Lemma one_request_per_question_witness :
  Forall (fun a => is_back a = false)
    [PromptsArrive; ClickGetHint (js "0-0") answer_one; ClickGetHint (js "0-0") answer_one;
     ClickGetHint (js "0-1") answer_one]
  /\ lone_requests initial_session
  /\ NoDup (hintsInFlight
              (play [PromptsArrive; ClickGetHint (js "0-0") answer_one;
                     ClickGetHint (js "0-0") answer_one;
                     ClickGetHint (js "0-1") answer_one] initial_session)).
Proof.
  assert (Ha : Forall (fun a => is_back a = false)
                 [PromptsArrive; ClickGetHint (js "0-0") answer_one;
                  ClickGetHint (js "0-0") answer_one;
                  ClickGetHint (js "0-1") answer_one])
    by (repeat constructor).
  split; [exact Ha|]. split; [exact lone_requests_initial|].
  exact (proj1 (one_request_per_question _ _ Ha lone_requests_initial)).
Defined.

(** *** Hint requests for one key *)

Lemma lone_requests_play (actions : list Action) (s : Session) :
  Forall (fun a => is_back a = false) actions ->
  lone_requests s -> lone_requests (play actions s).
Proof.
  intros Hact. revert s. induction Hact as [|a actions Ha _ IH]; intros s Hs.
  - exact Hs.
  - simpl. apply IH, lone_requests_act; assumption.
Qed.

(** C6, as the specification words it, does not hold of the page:
    overlapping hint requests for one key do occur.  A test is loaded and the
    hint of question 0-0 is asked for; the test is loaded again while that
    request is in flight, which clears the loading flag of the key and
    cancels nothing; the hint button of question 0-0 is enabled again, and a
    click on it sends a second request: two requests for the key are in
    flight. *)
Lemma hint_requests_overlap_after_reload :
  hintsInFlight (play (take 4 reload_actions) initial_session) = [js "0-0"]
  /\ ~ hint_pending (js "0-0") (page (play (take 4 reload_actions) initial_session))
  /\ hintsInFlight (play reload_actions initial_session) = [js "0-0"; js "0-0"]
  /\ ~ NoDup (hintsInFlight (play reload_actions initial_session)).
Proof.
  assert (H2 : hintsInFlight (play reload_actions initial_session) = [js "0-0"; js "0-0"])
    by (vm_compute; reflexivity).
  split; [vm_compute; reflexivity|].
  split; [intros Hp; vm_compute in Hp; discriminate Hp|].
  split; [exact H2|].
  rewrite H2. intros Hnd. apply NoDup_cons in Hnd as [Hnin _].
  apply Hnin. left.
Qed.

(** C6, amended.  While the hint of a key is under way, a click on its hint
    button is ignored: it sends no request and leaves the page, and the
    requests in flight, as they are.  And as long as the test is not reset or
    loaded again, overlapping hint requests for one key never occur: from a
    session where no key has two hint requests in flight and every key with
    one in flight is shown as loading (the page as it is mounted is one, and
    so is every page with nothing in flight), whatever is clicked and
    whatever arrives, no key has two hint requests in flight, and every key
    with one in flight is shown as loading, so that its button is
    disabled. *)
Theorem hint_requests_do_not_overlap :
  (forall (s : Session) (problemKey : jsstring) (problem : Problem),
      hint_pending problemKey (page s) ->
      act s (ClickGetHint problemKey problem) = s)
  /\ lone_requests initial_session
  /\ (forall (st : Page),
        lone_requests {| page := st; hintsInFlight := []; solutionsInFlight := [] |})
  /\ (forall (actions : list Action) (s : Session),
        Forall (fun a => is_back a = false) actions ->
        lone_requests s ->
        NoDup (hintsInFlight (play actions s))
        /\ (forall k, k ∈ hintsInFlight (play actions s) ->
              hint_pending k (page (play actions s))
              /\ hintButton_disabled k (page (play actions s)) = true)).
Proof.
  split; [|split; [|split]].
  - intros s k p Hp. unfold act. rewrite (clickHint_pending _ _ _ Hp).
    destruct s; reflexivity.
  - repeat split; try constructor; intros k Hin; inversion Hin.
  - intros st. repeat split; try constructor; intros k Hin; inversion Hin.
  - intros actions s Hact Hs.
    destruct (lone_requests_play actions s Hact Hs) as (Hnd & _ & Hh & _).
    split; [exact Hnd|]. intros k Hin. split.
    + apply Hh, Hin.
    + apply hintButton_disabled_pending, Hh, Hin.
Qed.

Lemma hint_requests_do_not_overlap_witness :
  hint_pending (js "0-0") (page pending_session)
  /\ act pending_session (ClickGetHint (js "0-0") answer_one) = pending_session
  /\ Forall (fun a => is_back a = false)
       [PromptsArrive; ClickGetHint (js "0-0") answer_one;
        ClickGetHint (js "0-0") answer_one; HintArrives (js "0-0") (FetchThrew None);
        ClickGetHint (js "0-0") answer_one]
  /\ lone_requests initial_session
  /\ NoDup (hintsInFlight
              (play [PromptsArrive; ClickGetHint (js "0-0") answer_one;
                     ClickGetHint (js "0-0") answer_one;
                     HintArrives (js "0-0") (FetchThrew None);
                     ClickGetHint (js "0-0") answer_one] initial_session)).
Proof.
  assert (Hp : hint_pending (js "0-0") (page pending_session)) by reflexivity.
  assert (Ha : Forall (fun a => is_back a = false)
                 [PromptsArrive; ClickGetHint (js "0-0") answer_one;
                  ClickGetHint (js "0-0") answer_one;
                  HintArrives (js "0-0") (FetchThrew None);
                  ClickGetHint (js "0-0") answer_one])
    by (repeat constructor).
  destruct hint_requests_do_not_overlap as (Hclick & Hinit & _ & Hplay).
  split; [exact Hp|].
  split; [exact (Hclick pending_session (js "0-0") answer_one Hp)|].
  split; [exact Ha|]. split; [exact Hinit|].
  exact (proj1 (Hplay _ _ Ha Hinit)).
Defined.

Lemma verdict_view_ext (k : jsstring) (st st' : Page) :
  questionStates st' = questionStates st -> verdict_view k st' = verdict_view k st.
Proof. intros H. unfold verdict_view. rewrite H. reflexivity. Qed.

Lemma generateHint_settled_verdict_view (k0 k : jsstring) (r : FetchResult) (st : Page) :
  verdict_view k (generateHint_settled k0 r st) = verdict_view k st.
Proof.
  destruct r; try reflexivity.
  unfold verdict_view. simpl. destruct (decide (k0 = k)) as [<-|Hne].
  - rewrite lookup_insert_eq. simpl.
    unfold bool_or_false. rewrite truthy_obool_default, num_or_zero_default.
    reflexivity.
  - rewrite lookup_insert_ne by exact Hne. reflexivity.
Qed.

Lemma act_after_submitTest (s : Session) (a : Action) :
  testSubmitted (page s) = true -> is_back a = false ->
  testSubmitted (page (act s a)) = true
  /\ (questionStates (page (act s a)) = questionStates (page s)
      \/ exists k r, page (act s a) = generateHint_settled k r (page s)).
Proof.
  intros Ht Hb.
  destruct a as [k p i|k p|k p|k p| | |k r|k r| |t|t]; simpl in *; try discriminate.
  - unfold clickOption, isQuestionSubmitted. rewrite Ht, orb_true_r. simpl.
    destruct (options p ≫= _); auto.
  - unfold clickSubmitAnswer, isQuestionSubmitted. rewrite Ht, orb_true_r. simpl. auto.
  - unfold clickHint, hintButton_rendered, isQuestionSubmitted.
    rewrite Ht, orb_true_r. simpl. auto.
  - unfold clickSolution. destruct (_ && _); simpl; auto.
  - unfold clickSubmitTest. rewrite Ht. auto.
  - destruct (bool_decide (k ∈ hintsInFlight s)); simpl; [|auto].
    split; [destruct r; exact Ht|]. right. eauto.
  - destruct (bool_decide (k ∈ solutionsInFlight s)); simpl; [|auto].
    split; [destruct r; exact Ht|]. left. destruct r; reflexivity.
  - auto.
  - auto.
  - auto.
Qed.

(** X10.  Once the test is submitted, nothing that can be done through the
    buttons, short of leaving or reloading the test, changes an answer: the
    test stays submitted, every question keeps its letter, its verdict, its
    score and its submitted flag, and the total and the number of answered
    questions stay as they are, also when hints asked for earlier arrive. *)
Theorem frozen_after_submitTest (actions : list Action) (s : Session) :
  Forall (fun a => is_back a = false) actions ->
  testSubmitted (page s) = true ->
  testSubmitted (page (play actions s)) = true
  /\ (forall k, verdict_view k (page (play actions s)) = verdict_view k (page s))
  /\ calculateTotalScore (page (play actions s)) = calculateTotalScore (page s)
  /\ countAnsweredQuestions (page (play actions s)) = countAnsweredQuestions (page s).
Proof.
  intros Hact. revert s. induction Hact as [|a actions Ha _ IH]; intros s Ht.
  - simpl. repeat split; auto.
  - destruct (act_after_submitTest s a Ht Ha) as [Ht' Hstep].
    destruct (IH (act s a) Ht') as (H1 & H2 & H3 & H4).
    simpl. split; [exact H1|].
    destruct Hstep as [Hq|(k0 & r & Hp)].
    + split; [intros k; rewrite H2; apply verdict_view_ext, Hq|].
      rewrite H3, H4.
      split; [apply calculateTotalScore_ext|apply countAnsweredQuestions_ext]; exact Hq.
    + split; [intros k; rewrite H2, Hp; apply generateHint_settled_verdict_view|].
      rewrite H3, H4, Hp.
      exact (proj2 (proj2 (aggregates_handle (page s) (HintSettled k0 r) eq_refl)) eq_refl).
Qed.

Lemma frozen_after_submitTest_witness :
  let s := {| page := submitTest example_page;
              hintsInFlight := [js "0-2"]; solutionsInFlight := [] |} in
  let actions := [ClickOption (js "0-2") answer_one 0;
                  ClickSubmitAnswer (js "0-2") (problem_with (AnsValue (VString (js "C"))));
                  HintArrives (js "0-2") (ResponseOk (js "Try x = 1."))] in
  Forall (fun a => is_back a = false) actions
  /\ testSubmitted (page s) = true
  /\ calculateTotalScore (page (play actions s)) = 3.
Proof.
  intros s actions.
  assert (Ha : Forall (fun a => is_back a = false) actions) by (repeat constructor).
  split; [exact Ha|]. split; [reflexivity|].
  rewrite (proj1 (proj2 (proj2 (frozen_after_submitTest actions s Ha eq_refl)))).
  vm_compute. reflexivity.
Defined.

(** The handler itself does not look at the flag of the test: called on a
    submitted test it scores the question as on an open one. *)
Lemma submitQuestion_after_submitTest (k : jsstring) (problem : Problem) (st : Page) :
  submitQuestion k problem (submitTest st) = submitTest (submitQuestion k problem st).
Proof.
  unfold submitQuestion. simpl.
  destruct (questionStates st !! k) as [state|]; [|reflexivity].
  destruct (negb _ || _); reflexivity.
Qed.

(** ** From a click on an option to the verdict *)

Lemma getCorrectAnswer_answer (p p' : Problem) :
  answer p = answer p' -> getCorrectAnswer p = getCorrectAnswer p'.
Proof. intros H. unfold getCorrectAnswer. rewrite H. reflexivity. Qed.

Lemma optionLetter_inj (i j : nat) :
  Z.of_nat i < 65471 -> Z.of_nat j < 65471 -> optionLetter i = optionLetter j -> i = j.
Proof.
  intros Hi Hj H. unfold optionLetter, ToUint16 in H. injection H as H.
  rewrite !Z.mod_small in H by lia. lia.
Qed.

Lemma clickOption_open (k : jsstring) (p : Problem) (i : nat) (opt : Option) (st : Page) :
  options p ≫= (fun opts => opts !! i) = Some opt ->
  testSubmitted st = false ->
  default false (submitted <$> questionStates st !! k) = false ->
  clickOption k p i st
  = setQuestionStates (fun prev =>
      <[k := {| selectedAnswer := Some (optionLetter i);
                submitted := false;
                hintsUsed := hintsUsed_of k st;
                score := 0;
                isCorrect := questionStates st !! k ≫= isCorrect |}]> prev) st.
Proof.
  intros Hopt Ht Hsub. unfold clickOption, isQuestionSubmitted.
  rewrite Hopt, Ht, truthy_obool_default, Hsub. simpl.
  rewrite selectAnswer_open; [reflexivity|exact Ht|].
  intros state Hk. rewrite Hk in Hsub. exact Hsub.
Qed.

Lemma click_submit_general (k : jsstring) (p : Problem) (i : nat) (opt : Option)
    (st : Page) :
  options p ≫= (fun opts => opts !! i) = Some opt ->
  testSubmitted st = false ->
  default false (submitted <$> questionStates st !! k) = false ->
  let st' := clickSubmitAnswer k p (clickOption k p i st) in
  let correct := bool_decide (optionLetter i = getCorrectAnswer p) in
  let awarded := if correct then Z.max 0 (4 - hintsUsed_of k st) else 0 in
  (exists state',
      questionStates st' !! k = Some state'
      /\ selectedAnswer state' = Some (optionLetter i)
      /\ submitted state' = true
      /\ isCorrect state' = Some correct
      /\ score state' = awarded)
  /\ calculateTotalScore st' = calculateTotalScore st + awarded
  /\ countAnsweredQuestions st' = S (countAnsweredQuestions st).
Proof.
  intros Hopt Ht Hsub st' correct awarded.
  pose proof (clickOption_open k p i opt st Hopt Ht Hsub) as Hclick.
  set (s1 := {| selectedAnswer := Some (optionLetter i); submitted := false;
                hintsUsed := hintsUsed_of k st; score := 0;
                isCorrect := questionStates st !! k ≫= isCorrect |}) in Hclick.
  assert (Hk1 : questionStates (clickOption k p i st) !! k = Some s1).
  { rewrite Hclick. simpl. apply lookup_insert_eq. }
  assert (Hhas : has_options p = true).
  { unfold has_options. destruct (options p) as [[|o opts]|]; simpl in Hopt;
      try discriminate; reflexivity. }
  assert (Hsubmit : st' = submitQuestion k p (clickOption k p i st)).
  { unfold st', clickSubmitAnswer, isQuestionSubmitted.
    rewrite Hk1, Hhas. simpl.
    assert (Ht1 : testSubmitted (clickOption k p i st) = false)
      by (rewrite Hclick; exact Ht).
    rewrite Ht1. reflexivity. }
  assert (Hne : optionLetter i <> []) by discriminate.
  split.
  - rewrite Hsubmit, (submitQuestion_effective _ _ _ s1 _ Hk1 eq_refl Hne eq_refl).
    eexists. split; [apply lookup_insert_eq|]. simpl.
    repeat split; reflexivity.
  - destruct (submitQuestion_totals k p (clickOption k p i st) s1 (optionLetter i)
                Hk1 eq_refl Hne eq_refl) as [Ha Hc].
    rewrite Hsubmit, Ha, Hc.
    assert (Hsame : calculateTotalScore (clickOption k p i st) = calculateTotalScore st
                    /\ countAnsweredQuestions (clickOption k p i st)
                       = countAnsweredQuestions st).
    { destruct (aggregates_one_key k st (clickOption k p i st)) as [H1 H2].
      { intros k' Hne'. rewrite Hclick. simpl. apply lookup_insert_ne. congruence. }
      unfold contribution_at, counted_at in *. rewrite Hk1 in *. simpl in *.
      rewrite Hsub in H2.
      assert (Hc0 : default 0 (contribution <$> questionStates st !! k) = 0).
      { destruct (questionStates st !! k) as [s0|]; simpl in *; [|reflexivity].
        unfold contribution. rewrite Hsub. reflexivity. }
      unfold contribution in H1 at 1. simpl in H1. split; lia. }
    destruct Hsame as [-> ->]. split; reflexivity.
Qed.

(** X11.  On an open question of an open test, a click on option number [i]
    followed by a click on "Submit Answer" marks the question correct exactly
    when [i] is the option whose letter is the correct letter of the problem,
    and the total goes up by [max(0, 4 - hints used)] in that case and by
    nothing otherwise. *)
Theorem click_then_submit (k : jsstring) (p : Problem) (i j : nat) (opt : Option)
    (st : Page) :
  options p ≫= (fun opts => opts !! i) = Some opt ->
  Z.of_nat i < 65471 -> Z.of_nat j < 65471 ->
  getCorrectAnswer p = optionLetter j ->
  testSubmitted st = false ->
  default false (submitted <$> questionStates st !! k) = false ->
  let st' := clickSubmitAnswer k p (clickOption k p i st) in
  let awarded := if bool_decide (i = j) then Z.max 0 (4 - hintsUsed_of k st) else 0 in
  (exists state',
      questionStates st' !! k = Some state'
      /\ selectedAnswer state' = Some (optionLetter i)
      /\ submitted state' = true
      /\ isCorrect state' = Some (bool_decide (i = j))
      /\ score state' = awarded)
  /\ calculateTotalScore st' = calculateTotalScore st + awarded
  /\ countAnsweredQuestions st' = S (countAnsweredQuestions st).
Proof.
  intros Hopt Hi Hj Hcorrect Ht Hsub.
  assert (Hdec : bool_decide (optionLetter i = getCorrectAnswer p) = bool_decide (i = j)).
  { rewrite Hcorrect. apply bool_decide_ext. split; [|congruence].
    apply optionLetter_inj; assumption. }
  pose proof (click_submit_general k p i opt st Hopt Ht Hsub) as H.
  cbv zeta in H. rewrite Hdec in H. exact H.
Qed.

Lemma click_then_submit_witness :
  let p := problem_with (AnsArray [VString (js "2")]) in
  (exists state',
      questionStates (clickSubmitAnswer (js "1-0") p (clickOption (js "1-0") p 1 example_page))
        !! js "1-0" = Some state'
      /\ isCorrect state' = Some true /\ score state' = 4)
  /\ calculateTotalScore
       (clickSubmitAnswer (js "1-0") p (clickOption (js "1-0") p 0 example_page)) = 3.
Proof.
  intros p.
  assert (Hopt1 : options p ≫= (fun opts => opts !! 1%nat) = Some {| opt_text := js "second" |})
    by reflexivity.
  assert (Hopt0 : options p ≫= (fun opts => opts !! 0%nat) = Some {| opt_text := js "first" |})
    by reflexivity.
  assert (Hc : getCorrectAnswer p = optionLetter 1) by (vm_compute; reflexivity).
  assert (H0 : Z.of_nat 0 < 65471) by (simpl; lia).
  assert (H1 : Z.of_nat 1 < 65471) by (simpl; lia).
  split.
  - destruct (click_then_submit (js "1-0") p 1 1 _ example_page Hopt1 H1 H1 Hc eq_refl eq_refl)
      as ((state' & Hk & _ & _ & Hcorrect & Hs) & _).
    exists state'. split; [exact Hk|]. split; [exact Hcorrect|exact Hs].
  - destruct (click_then_submit (js "1-0") p 0 1 _ example_page Hopt0 H0 H1 Hc eq_refl eq_refl)
      as (_ & Ht & _).
    rewrite Ht. vm_compute. reflexivity.
Defined.

(** The letter of a position: answer [n], from 1 on, is option [n - 1]. *)
Lemma getCorrectAnswer_position_letter (p : Problem) (n : Z) :
  1 <= n -> answer p = AnsValue (VNumber (JFin (inject_Z n))) ->
  getCorrectAnswer p = optionLetter (Z.to_nat (n - 1)).
Proof.
  intros Hn Ha.
  rewrite (getCorrectAnswer_answer p (problem_with (AnsValue (VNumber (JFin (inject_Z n))))))
    by exact Ha.
  rewrite getCorrectAnswer_position. unfold optionLetter. do 2 f_equal. lia.
Qed.

(** ** The endpoint and the page together *)

Lemma truthy_default (o : option jsstring) :
  truthy_ostr o = true -> truthy_str (default [] o) = true.
Proof. destruct o; simpl; [auto|discriminate]. Qed.

Lemma extract_solution_truthy (data : Completion) :
  truthy_str (extract_solution data) = true.
Proof.
  unfold extract_solution.
  destruct (truthy_ostr (_ ≫= content)) eqn:Hc; [apply truthy_default, Hc|].
  destruct (truthy_ostr (_ ≫= reasoning)) eqn:Hr; [apply truthy_default, Hr|].
  reflexivity.
Qed.

Lemma POST_response_invalid (req : GenRequest) (o : ProviderOutcome) :
  truthy_ostr (questionText req) = false ->
  POST_response req o = ResponseNotOk (Some (js "Question text is required")).
Proof. intros H. unfold POST_response, POST. rewrite H. reflexivity. Qed.

Lemma POST_response_valid (req : GenRequest) (o : ProviderOutcome) :
  truthy_ostr (questionText req) = true ->
  POST_response req o
  = match o with
    | ProviderOk data => ResponseOk (extract_solution data)
    | ProviderFailed => ResponseNotOk (Some (js "Failed to generate solution"))
    end.
Proof. intros H. unfold POST_response, POST. rewrite H. reflexivity. Qed.

Lemma hint_round_trip_cases (k : jsstring) (problem : Problem) (o : ProviderOutcome)
    (st : Page) :
  let st' := hint_round_trip k problem o st in
  truthy_obool (field hintLoading (solutions st') k) = false
  /\ (text problem = [] ->
      hints_of k st' = hints_of k st
      /\ hintsUsed_of k st' = hintsUsed_of k st
      /\ field hintError (solutions st') k = Some (js "Question text is required"))
  /\ (text problem <> [] -> o = ProviderFailed ->
      hints_of k st' = hints_of k st
      /\ hintsUsed_of k st' = hintsUsed_of k st
      /\ field hintError (solutions st') k = Some (js "Failed to generate solution"))
  /\ (forall data, text problem <> [] -> o = ProviderOk data ->
      hints_of k st' = hints_of k st ++ [extract_solution data]
      /\ extract_solution data <> []
      /\ hintsUsed_of k st' = hintsUsed_of k st + 1
      /\ verdict_view k st' = verdict_view k st).
Proof.
  cbv zeta. unfold hint_round_trip. cbn [generateHint].
  set (req := {| questionText := Some (text problem); passageText := _ |}).
  set (st1 := setSolutions _ st).
  assert (Hh1 : hints_of k st1 = hints_of k st).
  { unfold st1, hints_of. simpl. rewrite field_insert_eq. reflexivity. }
  assert (Hq1 : questionStates st1 = questionStates st) by reflexivity.
  destruct (text problem) as [|c t] eqn:Htext.
  - (* no text *)
    rewrite (POST_response_invalid req o) by reflexivity.
    split; [simpl; rewrite field_insert_eq; reflexivity|].
    split; [|split; [congruence|intros data H; congruence]].
    intros _. unfold hints_of in *. unfold hintsUsed_of. simpl.
    rewrite !field_insert_eq. simpl. rewrite <- Hh1. split; [reflexivity|].
    split; reflexivity.
  - rewrite (POST_response_valid req o) by reflexivity.
    destruct o as [data|].
    + split; [simpl; rewrite field_insert_eq; reflexivity|].
      split; [congruence|]. split; [congruence|].
      intros data' _ Hd. injection Hd as <-.
      split; [|split; [|split]].
      * rewrite <- Hh1. unfold hints_of. simpl. rewrite field_insert_eq. reflexivity.
      * intros He. pose proof (extract_solution_truthy data) as Ht.
        rewrite He in Ht. discriminate.
      * unfold hintsUsed_of. cbn -[num_or_zero].
        rewrite lookup_insert_eq. cbn -[num_or_zero]. apply num_or_zero_Some.
      * rewrite generateHint_settled_verdict_view. apply verdict_view_ext, Hq1.
    + split; [simpl; rewrite field_insert_eq; reflexivity|].
      split; [congruence|]. split; [|intros data _ H; discriminate].
      intros _ _. unfold hints_of in *. unfold hintsUsed_of. simpl.
      rewrite !field_insert_eq. simpl. rewrite <- Hh1. split; [reflexivity|].
      split; reflexivity.
Qed.

(** X12.  A hint from the click to the answer of the endpoint.  In every
    case the question is no longer shown as loading.  For a problem without
    text the endpoint refuses the request, and for a provider that fails it
    answers 500: the hints and the hint counter stay, and the error shown is
    the one of the endpoint ("Question text is required", "Failed to generate
    solution").  Otherwise the text taken from the provider's answer, which
    is never empty, is added after the hints and the hint counter goes up by
    one, the answer to the question being left as it is. *)
Theorem hint_round_trip_spec (k : jsstring) (problem : Problem) (o : ProviderOutcome)
    (st : Page) :
  let st' := hint_round_trip k problem o st in
  truthy_obool (field hintLoading (solutions st') k) = false
  /\ (text problem = [] ->
      hints_of k st' = hints_of k st
      /\ hintsUsed_of k st' = hintsUsed_of k st
      /\ field hintError (solutions st') k = Some (js "Question text is required"))
  /\ (text problem <> [] -> o = ProviderFailed ->
      hints_of k st' = hints_of k st
      /\ hintsUsed_of k st' = hintsUsed_of k st
      /\ field hintError (solutions st') k = Some (js "Failed to generate solution"))
  /\ (forall data, text problem <> [] -> o = ProviderOk data ->
      hints_of k st' = hints_of k st ++ [extract_solution data]
      /\ extract_solution data <> []
      /\ hintsUsed_of k st' = hintsUsed_of k st + 1
      /\ verdict_view k st' = verdict_view k st).
Proof. exact (hint_round_trip_cases k problem o st). Qed.

Lemma hint_round_trip_spec_witness :
  let data := {| choices := Some [ {| message :=
                   Some {| content := Some []; reasoning := Some (js "Try x = 1.") |} |} ] |} in
  text answer_one <> []
  /\ hints_of (js "0-0") (hint_round_trip (js "0-0") answer_one (ProviderOk data) example_page)
     = [js "Try x = 1."]
  /\ field hintError
       (solutions (hint_round_trip (js "0-0") answer_one ProviderFailed example_page))
       (js "0-0")
     = Some (js "Failed to generate solution").
Proof.
  intros data.
  assert (Ht : text answer_one <> []) by discriminate.
  split; [exact Ht|]. split.
  - destruct (proj2 (proj2 (proj2
        (hint_round_trip_spec (js "0-0") answer_one (ProviderOk data) example_page)))
        data Ht eq_refl) as (Hh & _).
    rewrite Hh. vm_compute. reflexivity.
  - exact (proj2 (proj2 (proj1 (proj2 (proj2
        (hint_round_trip_spec (js "0-0") answer_one ProviderFailed example_page)))
        Ht eq_refl))).
Defined.

(** ** Templates and their tokens *)

Lemma starts_with_app (pat rest : jsstring) : starts_with pat (pat ++ rest) = true.
Proof.
  induction pat as [|p pat IH]; simpl; [reflexivity|].
  rewrite bool_decide_true by reflexivity. exact IH.
Qed.

Lemma starts_with_inv (pat s : jsstring) :
  starts_with pat s = true -> s = pat ++ drop (length pat) s.
Proof.
  revert s. induction pat as [|p pat IH]; intros s H; simpl in *.
  - rewrite drop_0. reflexivity.
  - destruct s as [|c s]; [discriminate|].
    apply andb_true_iff in H as [Hp Hs]. apply bool_decide_eq_true in Hp as ->.
    simpl. f_equal. apply IH, Hs.
Qed.

Lemma split_first_eq (pat s : jsstring) :
  split_first pat s
  = if starts_with pat s then Some ([], drop (length pat) s)
    else match s with
         | [] => None
         | c :: s' =>
             match split_first pat s' with
             | Some (before, after) => Some (c :: before, after)
             | None => None
             end
         end.
Proof. destruct s; reflexivity. Qed.

Lemma split_first_Some (pat s before after : jsstring) :
  split_first pat s = Some (before, after) -> s = before ++ pat ++ after.
Proof.
  revert before. induction s as [|c s IH]; intros before H; rewrite split_first_eq in H.
  - destruct (starts_with pat []) eqn:Hp; [|discriminate].
    injection H as <- <-. apply (starts_with_inv _ _ Hp).
  - destruct (starts_with pat (c :: s)) eqn:Hp.
    + injection H as <- <-. apply (starts_with_inv _ _ Hp).
    + destruct (split_first pat s) as [[b a]|]; [|discriminate].
      injection H as <- <-. simpl. f_equal. apply IH. reflexivity.
Qed.

(** [split_first] finds nothing exactly when the pattern does not occur. *)
Lemma split_first_None (pat s : jsstring) :
  split_first pat s = None <-> ~ occurs pat s.
Proof.
  split.
  - intros H (before & after & ->). revert H.
    induction before as [|c before IH]; intros H; rewrite split_first_eq in H.
    + simpl in H. rewrite starts_with_app in H. discriminate.
    + destruct (starts_with pat ((c :: before) ++ pat ++ after)); [discriminate|].
      simpl in H. destruct (split_first pat (before ++ pat ++ after)) as [[b a]|];
        [discriminate|]. apply IH. reflexivity.
  - intros H. destruct (split_first pat s) as [[b a]|] eqn:Hs; [|reflexivity].
    exfalso. apply H. exists b, a. apply split_first_Some, Hs.
Qed.

Lemma replace_absent (pat replacement s : jsstring) :
  ~ occurs pat s -> replace pat replacement s = s.
Proof.
  intros H. unfold replace. apply split_first_None in H. rewrite H. reflexivity.
Qed.

(** X13.  A custom prompt in which none of the three tokens occurs is
    submitted as it is: the question, its passage and its options are not
    put into the prompt at all. *)
Theorem POST_template_without_tokens (req : GenRequest) (template : jsstring) :
  truthy_ostr (questionText req) = true ->
  customPrompt req = Some template -> template <> [] ->
  ~ occurs (js "{{QUESTION_CONTENT}}") template ->
  ~ occurs (js "{{HINT_INSTRUCTIONS}}") template ->
  ~ occurs (js "{{PREVIOUS_HINTS}}") template ->
  POST req = SubmitPrompt template.
Proof.
  intros Hq Hc Hne H1 H2 H3. unfold POST. rewrite Hq, Hc. simpl.
  destruct template as [|c t]; [congruence|]. simpl truthy_str. cbv iota.
  rewrite (replace_absent _ _ _ H1), (replace_absent _ _ _ H2), (replace_absent _ _ _ H3).
  reflexivity.
Qed.

Lemma POST_template_without_tokens_witness :
  let req := {| questionText := Some (js "Which one?");
                passageText := None; reqOptions := None;
                type := Some (js "solution"); previousHints := None;
                customPrompt := Some (js "Solve the {QUESTION_CONTENT} below.") |} in
  ~ occurs (js "{{QUESTION_CONTENT}}") (js "Solve the {QUESTION_CONTENT} below.")
  /\ POST req = SubmitPrompt (js "Solve the {QUESTION_CONTENT} below.").
Proof.
  intros req.
  assert (H1 : ~ occurs (js "{{QUESTION_CONTENT}}") (js "Solve the {QUESTION_CONTENT} below."))
    by (apply split_first_None; vm_compute; reflexivity).
  assert (H2 : ~ occurs (js "{{HINT_INSTRUCTIONS}}") (js "Solve the {QUESTION_CONTENT} below."))
    by (apply split_first_None; vm_compute; reflexivity).
  assert (H3 : ~ occurs (js "{{PREVIOUS_HINTS}}") (js "Solve the {QUESTION_CONTENT} below."))
    by (apply split_first_None; vm_compute; reflexivity).
  split; [exact H1|].
  apply (POST_template_without_tokens req (js "Solve the {QUESTION_CONTENT} below."));
    try reflexivity; try assumption.
  discriminate.
Defined.

Lemma split_first_at (pat before after : jsstring) (p : N) (pat' : jsstring) :
  pat = p :: pat' -> Forall (fun c => c <> p) before ->
  split_first pat (before ++ pat ++ after) = Some (before, after).
Proof.
  intros Hpat Hb. induction Hb as [|c before Hc _ IH]; rewrite split_first_eq.
  - simpl. rewrite starts_with_app, drop_app_length. reflexivity.
  - subst pat. simpl. rewrite bool_decide_false by congruence. simpl.
    simpl in IH. rewrite IH. reflexivity.
Qed.

(** X14.  Only the first [{{QUESTION_CONTENT}}] of a template is replaced.
    For a custom prompt that reads [before], the token, [after], with no
    opening brace in [before], and a question content without a dollar, the
    prompt submitted is [before], the content, [after] (as long as no hint
    token occurs in it): whatever [after] holds, a second token too, stays as
    it is. *)
Theorem POST_first_token_only (req : GenRequest) (before after : jsstring) :
  truthy_ostr (questionText req) = true ->
  customPrompt req = Some (before ++ js "{{QUESTION_CONTENT}}" ++ after) ->
  Forall (fun c => c <> 123%N) before ->
  Forall (fun c => c <> 36%N) (build_questionContent req) ->
  ~ occurs (js "{{HINT_INSTRUCTIONS}}") (before ++ build_questionContent req ++ after) ->
  ~ occurs (js "{{PREVIOUS_HINTS}}") (before ++ build_questionContent req ++ after) ->
  POST req = SubmitPrompt (before ++ build_questionContent req ++ after).
Proof.
  intros Hq Hc Hb Hd H2 H3. unfold POST. rewrite Hq, Hc. simpl negb. cbv iota.
  assert (Ht : truthy_ostr (Some (before ++ js "{{QUESTION_CONTENT}}" ++ after)) = true).
  { simpl. destruct before; reflexivity. }
  rewrite Ht.
  change (default [] (Some (before ++ js "{{QUESTION_CONTENT}}" ++ after)))
    with (before ++ js "{{QUESTION_CONTENT}}" ++ after).
  assert (Hr : replace (js "{{QUESTION_CONTENT}}") (build_questionContent req)
                 (before ++ js "{{QUESTION_CONTENT}}" ++ after)
               = before ++ build_questionContent req ++ after).
  { unfold replace.
    rewrite (split_first_at (js "{{QUESTION_CONTENT}}") before after 123%N
               (js "{QUESTION_CONTENT}}") eq_refl Hb).
    rewrite (GetSubstitution_no_dollar _ _ _ _ Hd). reflexivity. }
  rewrite Hr, (replace_absent _ _ _ H2), (replace_absent _ _ _ H3). reflexivity.
Qed.

Lemma POST_first_token_only_witness :
  let req := {| questionText := Some (js "Which one?");
                passageText := None; reqOptions := None;
                type := Some (js "solution"); previousHints := None;
                customPrompt :=
                  Some (js "Q: " ++ js "{{QUESTION_CONTENT}}"
                        ++ js "Again: {{QUESTION_CONTENT}}") |} in
  Forall (fun c => c <> 123%N) (js "Q: ")
  /\ POST req
     = SubmitPrompt (js "Q: " ++ build_questionContent req ++ js "Again: {{QUESTION_CONTENT}}").
Proof.
  intros req.
  assert (Hb : Forall (fun c => c <> 123%N) (js "Q: ")) by (repeat constructor; discriminate).
  split; [exact Hb|].
  apply (POST_first_token_only req (js "Q: ") (js "Again: {{QUESTION_CONTENT}}")).
  - reflexivity.
  - reflexivity.
  - exact Hb.
  - vm_compute. repeat constructor; discriminate.
  - apply split_first_None. vm_compute. reflexivity.
  - apply split_first_None. vm_compute. reflexivity.
Defined.



(** ** The keys of the questions *)

Lemma js_String (a : ascii) (s : string) : js (String a s) = N_of_ascii a :: js s.
Proof. reflexivity. Qed.

Lemma js_inj (s1 s2 : string) : js s1 = js s2 -> s1 = s2.
Proof.
  revert s2. induction s1 as [|a s1 IH]; intros [|b s2] H; try discriminate.
  - reflexivity.
  - rewrite !js_String in H. injection H as Hab Hs.
    f_equal; [|apply IH, Hs].
    rewrite <- (ascii_N_embedding a), <- (ascii_N_embedding b), Hab. reflexivity.
Qed.

Lemma pretty_N_char_no_dash (x : N) : N_of_ascii (pretty_N_char x) <> 45%N.
Proof. unfold pretty_N_char. repeat case_match; discriminate. Qed.

Lemma pretty_N_go_no_dash (x : N) (s : string) :
  no_dash (js s) -> no_dash (js (pretty_N_go x s)).
Proof.
  revert s. induction (N.lt_wf_0 x) as [x _ IH]; intros s Hs.
  assert (x = 0 \/ 0 < x)%N as [->|Hx] by lia.
  - rewrite pretty_N_go_0. exact Hs.
  - rewrite pretty_N_go_step by exact Hx. apply IH.
    + apply N.div_lt; lia.
    + rewrite js_String. constructor; [apply pretty_N_char_no_dash|exact Hs].
Qed.

Lemma pretty_nat_no_dash (n : nat) : no_dash (js (pretty n)).
Proof.
  unfold pretty, pretty_nat, pretty, pretty_N.
  destruct (decide (N.of_nat n = 0%N)).
  - repeat constructor. discriminate.
  - apply pretty_N_go_no_dash. constructor.
Qed.

Lemma split_at_dash (l1 l2 r1 r2 : jsstring) :
  no_dash l1 -> no_dash l2 ->
  l1 ++ 45%N :: r1 = l2 ++ 45%N :: r2 -> l1 = l2 /\ r1 = r2.
Proof.
  intros H1. revert l2. induction H1 as [|c l1 Hc _ IH]; intros l2 H2 H.
  - destruct H2 as [|d l2 Hd _]; simpl in H.
    + injection H as ->. split; reflexivity.
    + injection H as Hd' _. congruence.
  - destruct H2 as [|d l2 Hd H2]; simpl in H.
    + injection H as Hc' _. congruence.
    + injection H as -> H. destruct (IH l2 H2 H) as [-> ->]. split; reflexivity.
Qed.

Lemma problemKey_inj (s1 p1 s2 p2 : nat) :
  problemKey s1 p1 = problemKey s2 p2 -> s1 = s2 /\ p1 = p2.
Proof.
  unfold problemKey. intros H.
  change (js "-") with [45%N] in H. simpl app in H.
  destruct (split_at_dash _ _ _ _ (pretty_nat_no_dash s1) (pretty_nat_no_dash s2) H)
    as [Hs Hp].
  split; apply (inj pretty), js_inj; assumption.
Qed.

Lemma elem_of_problems_from (key : jsstring) (p : Problem) (si pi : nat) (ps : list Problem) :
  (key, p) ∈ problems_from si pi ps ->
  exists pj, (pi <= pj)%nat /\ key = problemKey si pj.
Proof.
  revert pi. induction ps as [|q ps IH]; intros pi H; simpl in H.
  - inversion H.
  - apply elem_of_cons in H as [H|H].
    + injection H as -> _. exists pi. split; [lia|reflexivity].
    + destruct (IH _ H) as (pj & Hle & ->). exists pj. split; [lia|reflexivity].
Qed.

Lemma elem_of_sections_from (key : jsstring) (p : Problem) (si : nat)
    (sections : list ProblemSection) :
  (key, p) ∈ sections_from si sections ->
  exists sj pj, (si <= sj)%nat /\ key = problemKey sj pj.
Proof.
  revert si. induction sections as [|sec sections IH]; intros si H; simpl in H.
  - inversion H.
  - apply elem_of_app in H as [H|H].
    + destruct (elem_of_problems_from _ _ _ _ _ H) as (pj & _ & ->).
      exists si, pj. split; [lia|reflexivity].
    + destruct (IH _ H) as (sj & pj & Hle & ->). exists sj, pj. split; [lia|reflexivity].
Qed.

Lemma NoDup_problems_from (si pi : nat) (ps : list Problem) :
  NoDup (problems_from si pi ps).*1.
Proof.
  revert pi. induction ps as [|q ps IH]; intros pi; simpl; [constructor|].
  constructor; [|apply IH].
  intros Hin. apply list_elem_of_fmap in Hin as ([key p] & Hkey & Hin). simpl in Hkey.
  destruct (elem_of_problems_from _ _ _ _ _ Hin) as (pj & Hle & ->).
  apply problemKey_inj in Hkey as [_ ->]. lia.
Qed.

Lemma NoDup_sections_from (si : nat) (sections : list ProblemSection) :
  NoDup (sections_from si sections).*1.
Proof.
  revert si. induction sections as [|sec sections IH]; intros si; simpl; [constructor|].
  rewrite fmap_app. apply NoDup_app. split; [apply NoDup_problems_from|].
  split; [|apply IH].
  intros key H1 H2.
  apply list_elem_of_fmap in H1 as ([k1 q1] & -> & H1).
  apply list_elem_of_fmap in H2 as ([k2 q2] & Hk & H2). simpl in Hk. subst k2.
  destruct (elem_of_problems_from _ _ _ _ _ H1) as (pj & _ & Hk1).
  destruct (elem_of_sections_from _ _ _ _ H2) as (sj & pj' & Hle & Hk2).
  rewrite Hk1 in Hk2. apply problemKey_inj in Hk2 as [-> _]. lia.
Qed.

(** X16.  The questions rendered for a test all have different keys: the
    key of a question tells its section and its position in the section, so
    no two questions of a test share their answer, hint or solution state. *)
Theorem rendered_keys_distinct (t : Test) :
  NoDup (rendered_questions t).*1
  /\ (forall s1 p1 s2 p2, problemKey s1 p1 = problemKey s2 p2 -> s1 = s2 /\ p1 = p2).
Proof.
  split; [apply NoDup_sections_from|apply problemKey_inj].
Qed.

Lemma rendered_keys_distinct_witness :
  problemKey 1 12 = js "1-12" /\ problemKey 11 2 = js "11-2"
  /\ (problemKey 1 12 = problemKey 11 2 -> (1 = 11 /\ 12 = 2)%nat).
Proof.
  split; [vm_compute; reflexivity|]. split; [vm_compute; reflexivity|].
  exact (proj2 (rendered_keys_distinct
                  {| code := []; name := []; duration := []; marks := [];
                     problems := None |}) 1%nat 12%nat 11%nat 2%nat).
Defined.

(** ** The problems of a section *)






(** ** Loading a test *)

Lemma trim_all_white (s : jsstring) : all_white s -> trim s = [].
Proof. intros H. unfold trim. rewrite (trimStart_all_white _ H). reflexivity. Qed.

Lemma trimStart_head (s : jsstring) (c : N) (r : jsstring) :
  trimStart s = c :: r -> isWhiteSpace c = false.
Proof.
  induction s as [|d s IH]; simpl; [discriminate|].
  destruct (isWhiteSpace d) eqn:Hd; [exact IH|].
  intros H. injection H as <- _. exact Hd.
Qed.

Lemma trim_nil_inv (s : jsstring) : trim s = [] -> all_white s.
Proof.
  unfold trim, trimEnd. intros H.
  apply trimStart_nil_inv.
  destruct (trimStart s) as [|c r] eqn:Hs; [reflexivity|].
  assert (Hrev : trimStart (reverse (c :: r)) = []).
  { rewrite <- (reverse_involutive (trimStart _)), H. reflexivity. }
  apply trimStart_nil_inv in Hrev. unfold all_white in Hrev.
  rewrite Forall_reverse in Hrev. inversion Hrev as [|? ? Hc _]; subst.
  rewrite (trimStart_head _ _ _ Hs) in Hc. discriminate.
Qed.

Lemma fetchTest_blank {Json : Type} (null : Json) (id : option jsstring) (v : View Json) :
  blank_target id v ->
  fetchTest null id v
  = ({| view_page := view_page v; testId := testId v; test := test v;
        error := Some (js "Please enter a Test ID"); loading := loading v |}, false).
Proof.
  intros H. unfold fetchTest. rewrite (trim_all_white _ H). reflexivity.
Qed.

Lemma fetchTest_target {Json : Type} (null : Json) (id : option jsstring) (v : View Json) :
  ~ blank_target id v ->
  fetchTest null id v
  = ({| view_page := resetTest (view_page v); testId := testId v; test := null;
        error := None; loading := true |}, true).
Proof.
  intros H. unfold fetchTest.
  destruct (trim (if truthy_ostr id then default [] id else testId v)) as [|c r] eqn:Ht;
    [|reflexivity].
  exfalso. apply H, trim_nil_inv, Ht.
Qed.

Lemma status_ok_true (status : Z) : 200 <= status <= 299 -> status_ok status = true.
Proof.
  intros H. unfold status_ok. apply andb_true_iff; split; apply Z.leb_le; lia.
Qed.

Lemma status_ok_false (status : Z) : ~ 200 <= status <= 299 -> status_ok status = false.
Proof.
  intros H. unfold status_ok. apply andb_false_iff.
  destruct (Z.leb_spec 200 status); [right|left; reflexivity].
  apply Z.leb_gt. lia.
Qed.

(** X18.  Loading a test, from the click to the answer of the test route,
    for whatever values a JSON body can be.  With a blank identifier (empty
    or white space only) nothing is sent and nothing is reset: only the
    message "Please enter a Test ID" is set.  With any other identifier the
    answers, hints and solutions of the test shown before are discarded,
    whatever comes back, and at the end the page is no longer loading.  When
    the content system answers 2xx with a JSON body, the page has no error
    and has as its test the value of that body as it reads after the route
    has written it out again, whatever that value is: when it is [null], and
    [null] is written and read back as [null], the page has no test and no
    error.  In every other case the page has no test and one error: "Test not
    found" for a 404, "Failed to fetch test from CMS" for every other failure
    of the content system (an exception, a 2xx answer whose body is not JSON,
    any other status), "Failed to fetch test" when the route cannot be
    reached. *)
Theorem load_test_spec {Json : Type} (null : Json) (reread : Json -> Json)
    (id : option jsstring) (v : View Json) :
  (blank_target id v ->
   forall r,
     view_page (load_test null id r v) = view_page v
     /\ test (load_test null id r v) = test v
     /\ loading (load_test null id r v) = loading v
     /\ error (load_test null id r v) = Some (js "Please enter a Test ID"))
  /\ (~ blank_target id v ->
      (forall r,
          view_page (load_test null id r v) = resetTest (view_page v)
          /\ loading (load_test null id r v) = false)
      /\ (forall status data, 200 <= status <= 299 ->
            let v' := load_test null id
                        (TestAnswered (GET_test reread (CmsAnswered status (Some data)))) v in
            test v' = reread data
            /\ error v' = None
            /\ (data = null -> reread null = null -> test v' = null))
      /\ (forall body,
            let v' := load_test null id
                        (TestAnswered (GET_test reread (CmsAnswered 404 body))) v in
            test v' = null /\ error v' = Some (js "Test not found"))
      /\ (forall cms,
            cms = CmsThrew
            \/ (exists status, cms = CmsAnswered status None /\ 200 <= status <= 299)
            \/ (exists status body, cms = CmsAnswered status body
                                    /\ ~ 200 <= status <= 299 /\ status <> 404) ->
            let v' := load_test null id (TestAnswered (GET_test reread cms)) v in
            test v' = null /\ error v' = Some (js "Failed to fetch test from CMS"))
      /\ test (load_test null id TestFetchThrew v) = null
      /\ error (load_test null id TestFetchThrew v) = Some (js "Failed to fetch test")).
Proof.
  split.
  - intros Hb r. unfold load_test. rewrite (fetchTest_blank _ _ _ Hb). repeat split.
  - intros Hb. unfold load_test. rewrite (fetchTest_target _ _ _ Hb).
    split; [|split; [|split; [|split]]].
    + intros [[t|status msg]|]; split; reflexivity.
    + intros status data Hs. cbv zeta. unfold GET_test.
      rewrite (status_ok_true _ Hs). simpl.
      split; [reflexivity|]. split; [reflexivity|].
      intros -> Hn. exact Hn.
    + intros body. split; reflexivity.
    + intros cms [->|[(status & -> & Hs)|(status & body & -> & Hs & H404)]].
      * split; reflexivity.
      * cbv zeta. unfold GET_test. rewrite (status_ok_true _ Hs). split; reflexivity.
      * cbv zeta. unfold GET_test. rewrite (status_ok_false _ Hs). simpl negb. cbv iota.
        apply Z.eqb_neq in H404. rewrite H404. split; reflexivity.
    + split; reflexivity.
Qed.

Lemma load_test_spec_witness :
  let v : View (option Test) :=
    {| view_page := example_page; testId := js "   "; test := None;
       error := None; loading := false |} in
  blank_target None v
  /\ view_page (load_test None None TestFetchThrew v) = example_page
  /\ ~ blank_target (Some (js "5624c9f1")) v
  /\ questionStates (view_page (load_test None (Some (js "5624c9f1"))
                                  (TestAnswered (GET_test id (CmsAnswered 503 None))) v)) = ∅
  /\ error (load_test None (Some (js "5624c9f1"))
              (TestAnswered (GET_test id (CmsAnswered 503 None))) v)
     = Some (js "Failed to fetch test from CMS")
  /\ test (load_test None (Some (js "5624c9f1"))
             (TestAnswered (GET_test id (CmsAnswered 200 (Some None)))) v) = None
  /\ error (load_test None (Some (js "5624c9f1"))
              (TestAnswered (GET_test id (CmsAnswered 200 (Some None)))) v) = None.
Proof.
  intros v.
  assert (Hb : blank_target None v) by (repeat constructor).
  assert (Hn : ~ blank_target (Some (js "5624c9f1")) v).
  { intros H. inversion H as [|? ? Hc _]. discriminate Hc. }
  assert (H200 : 200 <= 200 <= 299) by lia.
  split; [exact Hb|]. split.
  - exact (proj1 (proj1 (load_test_spec None id None v) Hb TestFetchThrew)).
  - split; [exact Hn|].
    destruct (proj2 (load_test_spec None id (Some (js "5624c9f1")) v) Hn)
      as (Hreset & Hok & _ & Hfail & _).
    split; [|split; [|split]].
    + rewrite (proj1 (Hreset _)). reflexivity.
    + apply Hfail. right. right. exists 503, None.
      split; [reflexivity|]. split; [lia|discriminate].
    + exact (proj2 (proj2 (Hok 200 None H200)) eq_refl eq_refl).
    + exact (proj1 (proj2 (Hok 200 None H200))).
Defined.

(** ** The two versions of the endpoint *)

Lemma no_first_unit_no_occurrence (p : N) (pat' s : jsstring) :
  Forall (fun c => c <> p) s -> ~ occurs (p :: pat') s.
Proof.
  intros H (before & after & ->).
  apply Forall_app in H as [_ H]. simpl in H.
  inversion H as [|? ? Hp _]. congruence.
Qed.

Lemma default_solution_prompt_split :
  split_first (js "{{QUESTION_CONTENT}}") DEFAULT_SOLUTION_PROMPT
  = Some (V1_PROMPT_BEFORE, V1_PROMPT_AFTER).
Proof. vm_compute. reflexivity. Qed.

Lemma v1_prompt_no_brace :
  Forall (fun c => c <> 123%N) V1_PROMPT_BEFORE
  /\ Forall (fun c => c <> 123%N) V1_PROMPT_AFTER.
Proof.
  split; apply Forall_forall; intros c Hc Heq; subst c;
    apply list_elem_of_In in Hc; revert Hc; vm_compute; intuition discriminate.
Qed.

(** X19.  The first version of the endpoint puts the question content, as
    it is, into the text that later became the default solution prompt.  The
    later version submits the same prompt for a solution request without a
    custom prompt whenever the question content has no dollar and no opening
    brace in it. *)
Theorem endpoint_versions_agree (req : GenRequest) :
  (truthy_ostr (questionText req) = true ->
   POST_v1 req
   = SubmitPrompt (substitute_verbatim (js "{{QUESTION_CONTENT}}")
                     (build_questionContent req) DEFAULT_SOLUTION_PROMPT))
  /\ (truthy_ostr (customPrompt req) = false ->
      ostr_eq (type req) (js "hint") = false ->
      Forall (fun c => c <> 36%N) (build_questionContent req) ->
      Forall (fun c => c <> 123%N) (build_questionContent req) ->
      POST req = POST_v1 req).
Proof.
  split.
  - intros Hq. unfold POST_v1, substitute_verbatim.
    rewrite Hq, default_solution_prompt_split. reflexivity.
  - intros Hc Ht Hd Hb. unfold POST, POST_v1.
    destruct (truthy_ostr (questionText req)); [|reflexivity]. simpl negb. cbv iota.
    rewrite Hc, Ht.
    assert (Hr : replace (js "{{QUESTION_CONTENT}}") (build_questionContent req)
                   DEFAULT_SOLUTION_PROMPT
                 = V1_PROMPT_BEFORE ++ build_questionContent req ++ V1_PROMPT_AFTER).
    { unfold replace. rewrite default_solution_prompt_split.
      rewrite (GetSubstitution_no_dollar _ _ _ _ Hd). reflexivity. }
    rewrite Hr.
    assert (Hno : Forall (fun c => c <> 123%N)
                    (V1_PROMPT_BEFORE ++ build_questionContent req ++ V1_PROMPT_AFTER)).
    { destruct v1_prompt_no_brace as [H1 H2].
      apply Forall_app. split; [exact H1|]. apply Forall_app. split; assumption. }
    rewrite (replace_absent (js "{{HINT_INSTRUCTIONS}}")),
            (replace_absent (js "{{PREVIOUS_HINTS}}")); [reflexivity| |].
    + apply (no_first_unit_no_occurrence 123%N (js "{PREVIOUS_HINTS}}")), Hno.
    + apply (no_first_unit_no_occurrence 123%N (js "{HINT_INSTRUCTIONS}}")), Hno.
Qed.

Lemma endpoint_versions_agree_witness :
  let req := {| questionText := Some (js "Which one?");
                passageText := Some (js "Read this.");
                reqOptions := Some [ {| opt_text := js "first" |};
                                     {| opt_text := js "second" |} ];
                type := Some (js "solution"); previousHints := None;
                customPrompt := None |} in
  Forall (fun c => c <> 36%N) (build_questionContent req)
  /\ Forall (fun c => c <> 123%N) (build_questionContent req)
  /\ POST req = POST_v1 req.
Proof.
  intros req.
  assert (Hd : Forall (fun c => c <> 36%N) (build_questionContent req))
    by (vm_compute; repeat (constructor; [discriminate|]); constructor).
  assert (Hb : Forall (fun c => c <> 123%N) (build_questionContent req))
    by (vm_compute; repeat (constructor; [discriminate|]); constructor).
  split; [exact Hd|]. split; [exact Hb|].
  exact (proj2 (endpoint_versions_agree req) eq_refl eq_refl Hd Hb).
Defined.

(** ** Solutions from the click to the answer *)

(** X20.  A solution from the click to the answer of the endpoint never
    touches the answers: the question states, and so every score and both
    aggregates, are as before, and the hints of the question stay.  At the
    end the question is no longer shown as loading a solution; it has the
    text taken from the provider's answer, never empty, as its solution when
    the provider answered, and otherwise the solution it had before together
    with the error of the endpoint. *)
Theorem solution_round_trip_spec (k : jsstring) (problem : Problem) (o : ProviderOutcome)
    (st : Page) :
  let st' := solution_round_trip k problem o st in
  questionStates st' = questionStates st
  /\ calculateTotalScore st' = calculateTotalScore st
  /\ hints_of k st' = hints_of k st
  /\ truthy_obool (field solutionLoading (solutions st') k) = false
  /\ (forall data, text problem <> [] -> o = ProviderOk data ->
        field aiSolution (solutions st') k = Some (extract_solution data)
        /\ extract_solution data <> [])
  /\ (text problem = [] ->
        field aiSolution (solutions st') k = field aiSolution (solutions st) k
        /\ field solutionError (solutions st') k = Some (js "Question text is required"))
  /\ (text problem <> [] -> o = ProviderFailed ->
        field aiSolution (solutions st') k = field aiSolution (solutions st) k
        /\ field solutionError (solutions st') k
           = Some (js "Failed to generate solution")).
Proof.
  cbv zeta. unfold solution_round_trip. cbn [generateSolution].
  set (req := {| questionText := Some (text problem); passageText := _ |}).
  destruct (text problem) as [|c t] eqn:Htext.
  - rewrite (POST_response_invalid req o) by reflexivity.
    unfold hints_of. simpl. rewrite !field_insert_eq. simpl.
    repeat split; try reflexivity; try congruence.
  - rewrite (POST_response_valid req o) by reflexivity.
    destruct o as [data|]; unfold hints_of; simpl; rewrite !field_insert_eq; simpl.
    + repeat split; try reflexivity; try congruence.
      intros He.
      match type of He with
      | extract_solution ?d = [] => pose proof (extract_solution_truthy d) as Ht
      end.
      rewrite He in Ht. discriminate.
    + repeat split; try reflexivity; try congruence.
Qed.

Lemma solution_round_trip_spec_witness :
  let data := {| choices := Some [ {| message :=
                   Some {| content := Some (js "The correct answer is A.");
                           reasoning := None |} |} ] |} in
  text answer_one <> []
  /\ field aiSolution
       (solutions (solution_round_trip (js "0-0") answer_one (ProviderOk data) example_page))
       (js "0-0")
     = Some (js "The correct answer is A.")
  /\ field solutionError
       (solutions (solution_round_trip (js "0-0") answer_one ProviderFailed example_page))
       (js "0-0")
     = Some (js "Failed to generate solution").
Proof.
  intros data.
  assert (Ht : text answer_one <> []) by discriminate.
  split; [exact Ht|].
  destruct (solution_round_trip_spec (js "0-0") answer_one (ProviderOk data) example_page)
    as (_ & _ & _ & _ & Hok & _).
  destruct (solution_round_trip_spec (js "0-0") answer_one ProviderFailed example_page)
    as (_ & _ & _ & _ & _ & _ & Hfail).
  split.
  - rewrite (proj1 (Hok data Ht eq_refl)). vm_compute. reflexivity.
  - exact (proj2 (Hfail Ht eq_refl)).
Defined.

(** ** Problems without an answer *)

Lemma getCorrectAnswer_missing (p : Problem) :
  answer_missing (answer p) ->
  getCorrectAnswer p = [] \/ getCorrectAnswer p = [64%N].
Proof.
  intros H. unfold getCorrectAnswer.
  assert (Hv : forall v, answer_missing (AnsValue v) ->
            (if typeof_number v || negb (isNaN (ToNumber v))
             then fromCharCode_64_plus (ToNumber v)
             else trim (toUpperCase (String_or_empty v))) = []
            \/ (if typeof_number v || negb (isNaN (ToNumber v))
                then fromCharCode_64_plus (ToNumber v)
                else trim (toUpperCase (String_or_empty v))) = [64%N]).
  { intros v Hm. inversion Hm as [| |s Hs| |]; subst.
    - left. reflexivity.
    - right. reflexivity.
    - right. simpl. unfold StringToNumber. rewrite (trim_all_white _ Hs). reflexivity. }
  destruct (answer p) as [v|[|v l]].
  - apply Hv, H.
  - left. reflexivity.
  - inversion H; subst. simpl. apply Hv. assumption.
Qed.

(** X21.  A problem whose answer is missing (absent, [null], an empty
    array, an empty or blank string) cannot be answered correctly: whichever
    option is clicked and submitted, the question is marked incorrect with
    score 0 and the total stays as it is. *)
Theorem missing_answer_never_correct (k : jsstring) (p : Problem) (i : nat) (opt : Option)
    (st : Page) :
  answer_missing (answer p) ->
  options p ≫= (fun opts => opts !! i) = Some opt ->
  Z.of_nat i < 65471 ->
  testSubmitted st = false ->
  default false (submitted <$> questionStates st !! k) = false ->
  let st' := clickSubmitAnswer k p (clickOption k p i st) in
  (exists state',
      questionStates st' !! k = Some state'
      /\ submitted state' = true
      /\ isCorrect state' = Some false
      /\ score state' = 0)
  /\ calculateTotalScore st' = calculateTotalScore st.
Proof.
  intros Hm Hopt Hi Ht Hsub.
  assert (Hdec : bool_decide (optionLetter i = getCorrectAnswer p) = false).
  { apply bool_decide_eq_false. intros He.
    destruct (getCorrectAnswer_missing p Hm) as [H|H]; rewrite H in He;
      unfold optionLetter, ToUint16 in He; [discriminate|].
    injection He as He. rewrite Z.mod_small in He by lia. lia. }
  pose proof (click_submit_general k p i opt st Hopt Ht Hsub) as H.
  cbv zeta in H. rewrite Hdec in H.
  destruct H as ((state' & Hk & _ & Hs & Hc & Hscore) & Htotal & _).
  split; [exists state'; repeat split; assumption|].
  rewrite Htotal. lia.
Qed.

Lemma missing_answer_never_correct_witness :
  let p := problem_with (AnsArray [VString (js " ")]) in
  answer_missing (answer p)
  /\ calculateTotalScore
       (clickSubmitAnswer (js "1-0") p (clickOption (js "1-0") p 2 example_page))
     = calculateTotalScore example_page.
Proof.
  intros p.
  assert (Hm : answer_missing (answer p)).
  { apply missing_first, missing_blank. repeat constructor. }
  split; [exact Hm|].
  assert (Hopt : options p ≫= (fun opts => opts !! 2%nat) = Some {| opt_text := js "third" |})
    by reflexivity.
  assert (H2 : Z.of_nat 2 < 65471) by (simpl; lia).
  exact (proj2 (missing_answer_never_correct (js "1-0") p 2 _ example_page
                  Hm Hopt H2 eq_refl eq_refl)).
Defined.

(** ** The history of the hints *)

(** X22.  Hints asked for one after the other pile up in the order they
    were given: after any number of answered requests the question shows its
    earlier hints followed by the texts of the answers, oldest first, its hint
    counter is up by their number, and the next request carries exactly the
    hints shown as its history. *)
Theorem hint_history (k : jsstring) (problem : Problem) (answers : list Completion)
    (st : Page) :
  text problem <> [] ->
  let st' := hints_in_turn k problem answers st in
  hints_of k st' = hints_of k st ++ (extract_solution <$> answers)
  /\ hintsUsed_of k st' = hintsUsed_of k st + Z.of_nat (length answers)
  /\ (forall req, (generateHint k problem st').2 = [req] ->
        previousHints req = Some (hints_of k st ++ (extract_solution <$> answers))).
Proof.
  intros Ht. cbv zeta.
  assert (H : hints_of k (hints_in_turn k problem answers st)
              = hints_of k st ++ (extract_solution <$> answers)
              /\ hintsUsed_of k (hints_in_turn k problem answers st)
                 = hintsUsed_of k st + Z.of_nat (length answers)).
  { unfold hints_in_turn. revert st.
    induction answers as [|data answers IH]; intros st; csimpl.
    - rewrite app_nil_r. split; [reflexivity|lia].
    - destruct (IH (hint_round_trip k problem (ProviderOk data) st)) as [Hh Hu].
      destruct (proj2 (proj2 (proj2 (hint_round_trip_cases k problem (ProviderOk data) st)))
                  data Ht eq_refl) as (Hh1 & _ & Hu1 & _).
      rewrite Hh, Hu, Hh1, Hu1, <- app_assoc. split; [reflexivity|lia]. }
  destruct H as [Hh Hu]. split; [exact Hh|]. split; [exact Hu|].
  intros req Hreq. simpl in Hreq. injection Hreq as <-. simpl.
  f_equal. exact Hh.
Qed.

Lemma hint_history_witness :
  let answer txt := {| choices := Some [ {| message :=
                         Some {| content := Some txt; reasoning := None |} |} ] |} in
  text answer_one <> []
  /\ hints_of (js "0-0")
       (hints_in_turn (js "0-0") answer_one
          [answer (js "Look at the units."); answer (js "Now divide.")] mounted_page)
     = [js "Look at the units."; js "Now divide."].
Proof.
  intros answer.
  assert (Ht : text answer_one <> []) by discriminate.
  split; [exact Ht|].
  rewrite (proj1 (hint_history (js "0-0") answer_one
                    [answer (js "Look at the units."); answer (js "Now divide.")]
                    mounted_page Ht)).
  vm_compute. reflexivity.
Defined.

(** ** The pages reached through the buttons *)

Lemma act_handle (s : Session) (a : Action) :
  page (act s a) = page s \/ exists e, page (act s a) = handle (page s) e.
Proof.
  destruct a as [k p i|k p|k p|k p| | |k r|k r| |t|t]; simpl.
  - unfold clickOption. destruct (options p ≫= _); [|auto].
    destruct (negb _); [|auto]. right. exists (SelectAnswer k (optionLetter i)). reflexivity.
  - unfold clickSubmitAnswer. destruct (_ && _); [|auto].
    right. exists (SubmitQuestion k p). reflexivity.
  - unfold clickHint. destruct (_ && _); [|auto].
    right. exists (GenerateHint k p). reflexivity.
  - unfold clickSolution. destruct (_ && _); [|auto].
    right. exists (GenerateSolution k p). reflexivity.
  - unfold clickSubmitTest. destruct (testSubmitted (page s)); [auto|].
    right. exists SubmitTest. reflexivity.
  - right. exists ResetTest. reflexivity.
  - destruct (bool_decide _); [|auto]. right. exists (HintSettled k r). reflexivity.
  - destruct (bool_decide _); [|auto]. right. exists (SolutionSettled k r). reflexivity.
  - right. exists PromptsFetched. reflexivity.
  - right. exists (EditHintPrompt t). reflexivity.
  - right. exists (EditSolutionPrompt t). reflexivity.
Qed.

(** Every page reached through the buttons is a page reached by events, so
    the invariants above hold of it. *)
Lemma played_reachable (actions : list Action) :
  reachable (page (play actions initial_session)).
Proof.
  unfold play.
  assert (H : forall s, reachable (page s) -> reachable (page (foldl act s actions))).
  { induction actions as [|a actions IH]; intros s Hs; simpl; [exact Hs|].
    apply IH. destruct (act_handle s a) as [->|(e & ->)]; [exact Hs|].
    destruct Hs as (events & ->). exists (events ++ [e]).
    unfold run. rewrite foldl_app. reflexivity. }
  apply H. exists []. reflexivity.
Qed.
